(** * ADEDatasetMapper: panoptic, instance and semantic training targets

    A shallow embedding of
    [mask2former/data/dataset_mappers/ade_all_task_dataset_mapper.py]:
    the method [ADEDatasetMapper.__call__] and the library routines it
    calls, with Python exceptions as an error monad, dictionaries as
    [gmap string _] and arrays as a shape plus nested lists. *)

From Stdlib Require Import ZArith List Bool Sorted Lia.
From stdpp Require Import base option list strings gmap fin_maps.

Open Scope string_scope.
Open Scope list_scope.
Open Scope Z_scope.

(** * Exceptions *)

Module Exn.

(** The exceptions [__call__] can end with.  [External] stands for
    whatever a collaborator outside this file raises (image decoding,
    the augmentation pipeline, the image-size check).  [Undetermined] is
    no exception: it marks an input on which the model does not fix
    what a library call does. *)
Inductive error : Type :=
| AssertionError (msg : string)
| KeyError (key : string)
| ValueError (msg : string)
| NameError (name : string)
| TypeError (msg : string)
| AttributeError (msg : string)
| RuntimeError (msg : string)
| External (msg : string)
| Undetermined (what : string).

Inductive result (A : Type) : Type :=
| Ok (a : A)
| Err (e : error).

Arguments Ok {A} a.
Arguments Err {A} e.

Definition bind {A B : Type} (r : result A) (k : A -> result B) : result B :=
  match r with
  | Ok a => k a
  | Err e => Err e
  end.

Definition is_ok {A : Type} (r : result A) : bool :=
  match r with Ok _ => true | Err _ => false end.

Definition raises {A : Type} (r : result A) : Prop :=
  exists e, r = Err e.

(** The class of the error line 108 raises. *)
Definition is_ValueError (e : error) : bool :=
  match e with ValueError _ => true | _ => false end.

(** A collaborator's own failure, surfaced unchanged to the caller. *)
Definition external {A : Type} (r : string + A) : result A :=
  match r with
  | inr a => Ok a
  | inl msg => Err (External msg)
  end.

End Exn.

Export Exn.

(** [result] is a monad; the file uses stdpp's [x ← c; k] notation. *)
#[global] Instance result_ret : MRet result := fun A a => Ok a.
#[global] Instance result_bind : MBind result := fun A B k r => bind r k.

(** * Python values found in a segment table *)

(** The entries of [segments_info] come from the panoptic JSON: their
    values are integers ([id], [category_id], and [iscrowd] written 0/1)
    or booleans ([isthing]).  Python's [bool] is a subclass of [int]. *)
Inductive pyval : Type :=
| PyInt (z : Z)
| PyBool (b : bool).

(** [bool(v)], as used by [if v] and [not v]. *)
Definition truthy (v : pyval) : bool :=
  match v with
  | PyInt z => negb (z =? 0)
  | PyBool b => b
  end.

(** The numeric value of [v] ([True] is 1, [False] is 0). *)
Definition as_int (v : pyval) : Z :=
  match v with
  | PyInt z => z
  | PyBool b => Z.b2z b
  end.

(** [v == False]. *)
Definition eq_False (v : pyval) : bool := as_int v =? 0.

(** One entry of [segments_info]: a Python dict. *)
Abbreviation segment_info := (gmap string pyval).

(** [d[key]]: raises [KeyError] when the key is missing. *)
Definition getitem {V : Type} (d : gmap string V) (key : string) : result V :=
  match d !! key with
  | Some v => Ok v
  | None => Err (KeyError key)
  end.

(** [key in d]. *)
Definition contains {V : Type} (d : gmap string V) (key : string) : bool :=
  match d !! key with
  | Some _ => true
  | None => false
  end.

(** * Arrays *)

(** A two-dimensional array: its shape [(height, width)] and its rows. *)
Record ndarray (A : Type) : Type := mk_ndarray {
  height : nat;
  width : nat;
  rows : list (list A)
}.

Arguments mk_ndarray {A} height width rows.
Arguments height {A} n.
Arguments width {A} n.
Arguments rows {A} n.

(** The rows really have the declared shape. *)
Definition wf_ndarray {A : Type} (a : ndarray A) : Prop :=
  length (rows a) = height a /\
  Forall (fun r => length r = width a) (rows a).

(** [a[r, c]], when in range. *)
Definition pixel {A : Type} (a : ndarray A) (r c : nat) : option A :=
  match rows a !! r with
  | Some row => row !! c
  | None => None
  end.

(** Element-wise map, as numpy broadcasting of a scalar operation does. *)
Definition ndmap {A B : Type} (f : A -> B) (a : ndarray A) : ndarray B :=
  mk_ndarray (height a) (width a) (map (map f) (rows a)).

(** A boolean mask, the result of [array == scalar]. *)
Abbreviation mask := (ndarray bool).

(** [a == v] for an integer array and a scalar. *)
Definition eq_scalar (a : ndarray Z) (v : Z) : mask :=
  ndmap (fun x => x =? v) a.

(** All the values of the array, row after row. *)
Definition flatten {A : Type} (a : ndarray A) : list A := concat (rows a).

(** A three-dimensional array: an image [(H, W, C)] or [(C, H, W)], or a
    stack of masks [(N, H, W)]. *)
Record ndarray3 (A : Type) : Type := mk_ndarray3 {
  dim0 : nat;
  dim1 : nat;
  dim2 : nat;
  data : list (list (list A))
}.

Arguments mk_ndarray3 {A} dim0 dim1 dim2 data.
Arguments dim0 {A} n.
Arguments dim1 {A} n.
Arguments dim2 {A} n.
Arguments data {A} n.

Definition shape3 {A : Type} (a : ndarray3 A) : nat * nat * nat :=
  (dim0 a, dim1 a, dim2 a).

Definition wf_ndarray3 {A : Type} (a : ndarray3 A) : Prop :=
  length (data a) = dim0 a /\
  Forall (fun p => length p = dim1 a /\
                   Forall (fun r => length r = dim2 a) p) (data a).

(** The [i]-th plane of a stack, as a two-dimensional array. *)
Definition plane_at {A : Type} (a : ndarray3 A) (i : nat) : option (ndarray A) :=
  mk_ndarray (dim1 a) (dim2 a) <$> data a !! i.

Definition planes {A : Type} (a : ndarray3 A) : list (ndarray A) :=
  map (mk_ndarray (dim1 a) (dim2 a)) (data a).

(** [a[k, r, c]], when in range. *)
Definition voxel {A : Type} (a : ndarray3 A) (k r c : nat) : option A :=
  match plane_at a k with
  | Some p => pixel p r c
  | None => None
  end.

(** ** numpy and torch objects

    Python dispatches a method call on the class of the receiver.  The
    mapper moves its arrays from numpy to torch and calls methods on
    both, so the model keeps the class next to the contents. *)
Inductive pyarray (A : Type) : Type :=
| NdArray (a : A)     (* a [numpy.ndarray] *)
| Tensor (a : A).     (* a [torch.Tensor] *)

Arguments NdArray {A} a.
Arguments Tensor {A} a.

Definition contents {A : Type} (x : pyarray A) : A :=
  match x with NdArray a | Tensor a => a end.

(** [numpy.ndarray.transpose(2, 0, 1)] on the contents: axis 2 comes
    first. *)
Definition np_transpose_201 (a : ndarray3 Z) : ndarray3 Z :=
  mk_ndarray3 (dim2 a) (dim0 a) (dim1 a)
    (map (fun c => map (map (fun px => nth c px 0)) (data a)) (seq 0 (dim2 a))).

(** [x.transpose(2, 0, 1)].  [numpy.ndarray.transpose] takes a whole
    permutation of the axes; [torch.Tensor.transpose] takes exactly two
    dimensions and rejects three arguments. *)
Definition transpose_201 (x : pyarray (ndarray3 Z)) : result (ndarray3 Z) :=
  match x with
  | NdArray a => Ok (np_transpose_201 a)
  | Tensor _ =>
      Err (TypeError "transpose() received an invalid combination of arguments")
  end.

(** [x.astype("long")]: a method of [numpy.ndarray] only.  The values
    are integers already, so the contents are unchanged. *)
Definition astype_long {A : Type} (x : pyarray A) : result A :=
  match x with
  | NdArray a => Ok a
  | Tensor _ => Err (AttributeError "'Tensor' object has no attribute 'astype'")
  end.

(** [x.numpy()]: a method of [torch.Tensor] only. *)
Definition to_numpy {A : Type} (x : pyarray A) : result A :=
  match x with
  | Tensor a => Ok a
  | NdArray _ =>
      Err (AttributeError "'numpy.ndarray' object has no attribute 'numpy'")
  end.

(** ** torch.nn.functional.pad, constant mode *)

(** One axis: [before] and [after] elements are added at the two ends; a
    negative amount removes that many elements instead. *)
Definition pad_axis {A : Type} (fill : A) (before after : Z) (l : list A) : list A :=
  let l1 := if 0 <=? before
            then replicate (Z.to_nat before) fill ++ l
            else drop (Z.to_nat (- before)) l in
  if 0 <=? after
  then l1 ++ replicate (Z.to_nat after) fill
  else take (length l1 - Z.to_nat (- after))%nat l1.

(** The last two axes of one plane, for [pad = [l, r, t, b]] (left, right, top, bottom). *)
Definition pad_plane {A : Type} (fill : A) (l r t b : Z)
    (w : nat) (p : list (list A)) : list (list A) :=
  let new_w := Z.to_nat (Z.of_nat w + l + r) in
  pad_axis (replicate new_w fill) t b (map (pad_axis fill l r) p).

(** The padded size of an axis; a negative size is refused. *)
Definition padded_dim (n : nat) (before after : Z) : result nat :=
  let m := Z.of_nat n + before + after in
  if m <? 0
  then Err (RuntimeError "negative padding resulted in a negative output size")
  else Ok (Z.to_nat m).

(** [F.pad(a, [l, r, t, b], value=fill)] on a 2-D tensor. *)
Definition F_pad {A : Type} (a : ndarray A) (padding : Z * Z * Z * Z) (fill : A)
    : result (ndarray A) :=
  let '(l, r, t, b) := padding in
  new_w ← padded_dim (width a) l r;
  new_h ← padded_dim (height a) t b;
  mret (mk_ndarray new_h new_w
          (pad_plane fill l r t b (width a) (rows a))).

(** [F.pad] on a 3-D tensor: the last two axes of every plane. *)
Definition F_pad3 {A : Type} (a : ndarray3 A) (padding : Z * Z * Z * Z) (fill : A)
    : result (ndarray3 A) :=
  let '(l, r, t, b) := padding in
  new_w ← padded_dim (dim2 a) l r;
  new_h ← padded_dim (dim1 a) t b;
  mret (mk_ndarray3 (dim0 a) new_h new_w
          (map (pad_plane fill l r t b (dim2 a)) (data a))).

(** ** numpy.unique *)

(** Insertion into a strictly ascending list, dropping a value that is
    already there. *)
Fixpoint insert_unique (x : Z) (l : list Z) : list Z :=
  match l with
  | [] => [x]
  | y :: t =>
      if x <? y then x :: l
      else if x =? y then l
      else y :: insert_unique x t
  end.

(** [np.unique(a)]: the distinct values of [a], sorted. *)
Definition np_unique (a : ndarray Z) : list Z :=
  foldr insert_unique [] (flatten a).

(** ** torch.stack and torch.zeros on masks *)

(** [torch.stack(ms)] for masks of one shape: the shape of the first
    one, preceded by the number of masks. *)
Definition torch_stack (first : mask) (others : list mask) : ndarray3 bool :=
  mk_ndarray3 (S (length others)) (height first) (width first)
    (map rows (first :: others)).

(** [torch.zeros((0, h, w))]. *)
Definition torch_zeros_0 (h w : nat) : ndarray3 bool :=
  mk_ndarray3 0 h w [].

(** ** detectron2.structures.BitMasks.get_bounding_boxes *)

(** A box [(x0, y0, x1, y1)]: columns [x0 <= x < x1], rows [y0 <= y < y1].
    The library stores the four numbers as [float32]; they are pixel
    indices, far below 2^24, so every one is represented exactly and the
    model keeps them as integers. *)
Definition box : Type := (Z * Z * Z * Z)%type.

(** [torch.where(v)[0]]: the positions of the set entries, ascending. *)
Definition where_true (v : list bool) : list nat :=
  map fst (List.filter snd (imap (fun i b => (i, b)) v)).

(** [torch.any(m, dim=0)]: per column, whether some row has it set. *)
Definition any_per_column (m : mask) : list bool :=
  map (fun c => existsb (fun row => nth c row false) (rows m)) (seq 0 (width m)).

(** [torch.any(m, dim=1)]: per row, whether some column has it set. *)
Definition any_per_row (m : mask) : list bool :=
  map (existsb (fun b => b)) (rows m).

(** The bounding box of one mask: first and last set column and row, the
    upper bounds exclusive; an empty mask keeps the initial zeros. *)
Definition bounding_box (m : mask) : box :=
  let x := where_true (any_per_column m) in
  let y := where_true (any_per_row m) in
  match x, y with
  | x0 :: _, y0 :: _ =>
      (Z.of_nat x0, Z.of_nat y0,
       Z.of_nat (List.last x 0%nat) + 1, Z.of_nat (List.last y 0%nat) + 1)
  | _, _ => (0, 0, 0, 0)
  end.

Definition get_bounding_boxes (t : ndarray3 bool) : list box :=
  map bounding_box (planes t).

(** ** panopticapi.utils.rgb2id *)

(** The segment id of a colour: [r + 256 g + 256^2 b]. *)
Definition rgb2id_pixel (px : list Z) : Z :=
  nth 0 px 0 + 256 * nth 1 px 0 + 256 * 256 * nth 2 px 0.

(** [rgb2id] on an [(H, W, 3)] array: one id per pixel.  The label image
    is decoded with format "RGB", so there are three channels. *)
Definition rgb2id (color : ndarray3 Z) : ndarray Z :=
  mk_ndarray (dim0 color) (dim1 color) (map (map rgb2id_pixel) (data color)).

(** * Records *)

(** [detectron2.structures.Instances] with the fields the mapper sets. *)
Record Instances : Type := mk_Instances {
  image_size : nat * nat;
  gt_classes : list Z;
  gt_masks : ndarray3 bool;
  gt_boxes : option (list box)
}.

(** The values a dataset record holds. *)
Inductive value : Type :=
| VStr (s : string)                       (* a path, a name *)
| VInt (z : Z)                            (* "width", "height" *)
| VSegments (segs : list segment_info)    (* "segments_info" *)
| VInstances (i : Instances)              (* the three bundles *)
| VImage (t : ndarray3 Z)                 (* "image" *)
| VSemSeg (t : ndarray Z)                 (* "sem_seg" *)
| VOther (repr : string).                 (* any other object *)

Abbreviation dataset_record := (gmap string value).

(** The configuration stored on the mapper by [__init__]. *)
Record config : Type := mk_config {
  is_train : bool;
  img_format : string;
  ignore_label : Z;
  size_divisibility : Z
}.

(** ** Names bound in the module *)

(** What the module's imports and definitions bind (lines 2 to 19). *)
Definition module_globals : list string :=
  ["copy"; "logging"; "np"; "torch"; "F"; "configurable"; "utils"; "T";
   "BitMasks"; "Instances"; "MaskFormerSemanticDatasetMapper"; "__all__";
   "ADEDatasetMapper"].

(** Looking a global name up at run time. *)
Definition global_name (name : string) : result unit :=
  if bool_decide (name ∈ module_globals) then Ok tt else Err (NameError name).

(** ** detectron2.data.detection_utils.check_image_size *)

Definition value_is (v : value) (n : nat) : bool :=
  match v with
  | VInt z => z =? Z.of_nat n
  | _ => false
  end.

(** Compares the declared width and height, when the record has one of
    them, with the decoded image, and records them when absent. *)
Definition check_image_size (d : dataset_record) (image : ndarray3 Z)
    : result dataset_record :=
  _ ← (if contains d "width" || contains d "height" then
         w ← getitem d "width";
         h ← getitem d "height";
         if value_is w (dim1 image) && value_is h (dim0 image)
         then mret tt
         else Err (External "SizeMismatchError")
       else mret tt);
  let d := if contains d "width" then d
           else <["width" := VInt (Z.of_nat (dim1 image))]> d in
  let d := if contains d "height" then d
           else <["height" := VInt (Z.of_nat (dim0 image))]> d in
  mret d.

(** * The target builders *)

(** Lines 113 to 119 and 138 to 145: a loop over the segment table that
    appends a class and a mask for every entry its body keeps. *)
Fixpoint collect (body : segment_info -> result (option (pyval * mask)))
    (segments_info : list segment_info)
    (classes : list pyval) (masks : list mask)
    : result (list pyval * list mask) :=
  match segments_info with
  | [] => mret (classes, masks)
  | segment_info :: rest =>
      kept ← body segment_info;
      match kept with
      | Some (class_id, m) => collect body rest (classes ++ [class_id]) (masks ++ [m])
      | None => collect body rest classes masks
      end
  end.

(** Lines 116 to 119: the body of the panoptic loop. *)
Definition pan_segment (pan_seg_gt : ndarray Z) (segment_info : segment_info)
    : result (option (pyval * mask)) :=
  class_id ← getitem segment_info "category_id";
  iscrowd ← getitem segment_info "iscrowd";
  if negb (truthy iscrowd) then
    id ← getitem segment_info "id";
    mret (Some (class_id, eq_scalar pan_seg_gt (as_int id)))
  else mret None.

(** Lines 141 to 145: the body of the instance loop. *)
Definition ins_segment (pan_seg_gt : ndarray Z) (segment_info : segment_info)
    : result (option (pyval * mask)) :=
  class_id ← getitem segment_info "category_id";
  not_crowd ← (if negb (contains segment_info "iscrowd") then Ok true
               else iscrowd ← getitem segment_info "iscrowd";
                    mret (eq_False iscrowd));
  if (not_crowd : bool) then
    isthing ← getitem segment_info "isthing";
    if truthy isthing then
      id ← getitem segment_info "id";
      mret (Some (class_id, eq_scalar pan_seg_gt (as_int id)))
    else mret None
  else mret None.

(** ** Class ids as an int64 tensor *)

(** Whether an integer fits [int64]; fits [uint64] but not [int64]; fits
    neither. *)
Definition in_int64 (z : Z) : bool :=
  (-9223372036854775808 <=? z) && (z <? 9223372036854775808).

Definition above_int64 (z : Z) : bool :=
  (9223372036854775808 <=? z) && (z <? 18446744073709551616).

Definition beyond_64_bits (z : Z) : bool :=
  (z <? -9223372036854775808) || (18446744073709551616 <=? z).

(** Lines 121 to 122 and 147 to 148:
    [torch.tensor(np.array(classes), dtype=torch.int64)].  Class ids
    that all fit [int64] come out unchanged (an empty list too).  An id
    that fits no 64-bit type makes [np.array] build an object array, and
    ids that all lie from 2^63 up a [uint64] array; [torch.tensor] takes
    neither and raises [TypeError].  A list with ids on both sides of
    2^63 goes through numpy's promotion of [int64] with [uint64] to
    [float64], and [torch.tensor] casts the doubles to [int64]: the ids
    are rounded, and the cast of a value from 2^63 up is outside the
    target range.  The model does not fix these values and stops with
    [Undetermined]. *)
Definition int64_tensor (classes : list pyval) : result (list Z) :=
  let values := map as_int classes in
  if forallb in_int64 values then Ok values
  else if existsb beyond_64_bits values then
    Err (TypeError "can't convert np.ndarray of type numpy.object_")
  else if forallb above_int64 values then
    Err (TypeError "can't convert np.ndarray of type numpy.uint64")
  else Err (Undetermined "np.array of class ids on both sides of 2^63").

(** Lines 112 to 130: the panoptic bundle. *)
Definition pan_targets (image_shape : nat * nat) (pan_seg_gt : ndarray Z)
    (segments_info : list segment_info) : result Instances :=
  '(classes, masks) ← collect (pan_segment pan_seg_gt) segments_info [] [];
  classes ← int64_tensor classes;
  let gt_masks :=
    match masks with
    | [] => torch_zeros_0 (height pan_seg_gt) (width pan_seg_gt)
    | m :: ms => torch_stack m ms
    end in
  mret (mk_Instances image_shape classes gt_masks None).

(** Lines 137 to 158: the instance bundle.  The empty branch calls
    [Boxes], a name the module never imports. *)
Definition ins_targets (image_shape : nat * nat) (pan_seg_gt : ndarray Z)
    (segments_info : list segment_info) : result Instances :=
  '(classes, masks) ← collect (ins_segment pan_seg_gt) segments_info [] [];
  classes ← int64_tensor classes;
  match masks with
  | [] =>
      let gt_masks := torch_zeros_0 (height pan_seg_gt) (width pan_seg_gt) in
      _ ← global_name "Boxes";
      mret (mk_Instances image_shape classes gt_masks (Some []))
  | m :: ms =>
      let gt_masks := torch_stack m ms in
      mret (mk_Instances image_shape classes gt_masks
              (Some (get_bounding_boxes gt_masks)))
  end.

(** Lines 186 to 212: the semantic bundle of a label array. *)
Definition sem_targets (ignore : Z) (image_shape : nat * nat)
    (sem_seg_gt : ndarray Z) : Instances :=
  let sem_classes := np_unique sem_seg_gt in
  let sem_classes := List.filter (fun c => negb (c =? ignore)) sem_classes in
  let sem_masks := map (eq_scalar sem_seg_gt) sem_classes in
  let gt_masks :=
    match sem_masks with
    | [] => torch_zeros_0 (height sem_seg_gt) (width sem_seg_gt)
    | m :: ms => torch_stack m ms
    end in
  mk_Instances image_shape sem_classes gt_masks None.

(** Lines 167 to 179: the padding of the image and of the semantic
    label.  The amounts are [size_divisibility] minus the current size,
    on the right and at the bottom. *)
Definition pad_stage (self : config) (image : ndarray3 Z) (sem_seg_gt : ndarray Z)
    : result (ndarray3 Z * ndarray Z) :=
  if size_divisibility self >? 0 then
    let image_size := (dim1 image, dim2 image) in
    let padding_size :=
      (0, size_divisibility self - Z.of_nat (snd image_size),
       0, size_divisibility self - Z.of_nat (fst image_size)) in
    image ← F_pad3 image padding_size 128;
    sem_seg_gt ← F_pad sem_seg_gt padding_size (ignore_label self);
    mret (image, sem_seg_gt)
  else mret (image, sem_seg_gt).

(** * ADEDatasetMapper.__call__ *)

(** The collaborators outside the mapper, each with its own failures:
    [utils.read_image(path, format)] giving the decoded [(H, W, C)]
    image; [utils.read_image(path)] without a format, as used for the
    semantic label image, giving a two-dimensional array of class ids;
    [T.apply_transform_gens(self.tfm_gens, aug_input)] giving the
    augmented image and semantic label and the transform that was
    applied; [transforms.apply_segmentation(pan_seg_gt)]. *)
Record library : Type := mk_library {
  transform : Type;
  read_image : value -> string -> string + ndarray3 Z;
  read_label : value -> string + ndarray Z;
  apply_transform_gens :
    ndarray3 Z -> option (ndarray Z) ->
    string + (ndarray3 Z * option (ndarray Z) * transform);
  apply_segmentation : transform -> ndarray3 Z -> string + ndarray3 Z
}.

Section Mapper.

(** The mapper object and the libraries it runs against. *)
Variable self : config.
Variable lib : library.

(** Line 67. *)
Definition assert_is_train : result unit :=
  if is_train self then mret tt
  else Err (AssertionError
              "MaskFormerPanopticDatasetMapper should only be used for training!").

(** Lines 74 to 78: the semantic label is read, and its path popped,
    when the record has one. *)
Definition load_sem_seg (d : dataset_record)
    : result (option (ndarray Z) * dataset_record) :=
  if contains d "sem_seg_file_name" then
    path ← getitem d "sem_seg_file_name";
    sem_seg_gt ← external (read_label lib path);
    mret (Some sem_seg_gt, delete "sem_seg_file_name" d)
  else mret (None, d).

(** Lines 90 to 98: the panoptic label image is read, and its path
    popped; it is transformed like the image and decoded to segment ids. *)
Definition load_pan_seg (d : dataset_record) (transforms : transform lib)
    : result (pyarray (ndarray Z) * value * dataset_record) :=
  path ← getitem d "pan_seg_file_name";
  let d := delete "pan_seg_file_name" d in
  pan_seg_gt ← external (read_image lib path "RGB");
  segments_info ← getitem d "segments_info";
  pan_seg_gt ← external (apply_segmentation lib transforms pan_seg_gt);
  let pan_seg_gt := NdArray (rgb2id pan_seg_gt) in
  mret (pan_seg_gt, segments_info, d).

(** Line 115 iterates over [segments_info]: it has to be the table. *)
Definition as_segments (v : value) : result (list segment_info) :=
  match v with
  | VSegments segs => Ok segs
  | _ => Err (TypeError "segments_info is not a list of dicts")
  end.

(** Lines 164 to 214: the semantic branch, entered with the image and the
    label as lines 101 and 103 left them. *)
Definition semantic_branch (d : dataset_record)
    (image : pyarray (ndarray3 Z)) (sem_seg_gt : pyarray (ndarray Z))
    : result dataset_record :=
  image ← transpose_201 image;                              (* 165 *)
  sem_seg_gt ← astype_long sem_seg_gt;                      (* 166 *)
  '(image, sem_seg_gt) ← pad_stage self image sem_seg_gt;    (* 167-179 *)
  let image_shape := (dim1 image, dim2 image) in            (* 181 *)
  let d := <["image" := VImage image]> d in                 (* 182 *)
  let d := <["sem_seg" := VSemSeg sem_seg_gt]> d in         (* 184 *)
  let sem_seg_instances :=
    sem_targets (ignore_label self) image_shape sem_seg_gt in   (* 186-212 *)
  mret (<["sem_instances" := VInstances sem_seg_instances]> d). (* 214 *)

(** Lines 89 to 214: the branch of a record with a panoptic label. *)
Definition panoptic_branch (d : dataset_record) (image : ndarray3 Z)
    (sem_seg_gt : option (ndarray Z)) (transforms : transform lib)
    (image_shape : nat * nat) : result dataset_record :=
  '(pan_seg_gt, segments_info, d) ← load_pan_seg d transforms;      (* 90-98 *)
  image ← transpose_201 (NdArray image);                            (* 101 *)
  let image := Tensor image in
  sem_seg_gt ← match sem_seg_gt with                                (* 102-103 *)
               | Some s => s ← astype_long (NdArray s); mret (Some (Tensor s))
               | None => mret None
               end;
  pan_seg_gt ← astype_long pan_seg_gt;                              (* 104 *)
  let pan_seg_gt := Tensor pan_seg_gt in
  _ ← (if contains d "annotations"                                  (* 107-108 *)
       then Err (ValueError
                   "Pemantic segmentation dataset should not have 'annotations'.")
       else mret tt);
  pan_seg_gt ← to_numpy pan_seg_gt;                                 (* 111 *)
  segments_info ← as_segments segments_info;
  instances ← pan_targets image_shape pan_seg_gt segments_info;     (* 112-130 *)
  let d := <["pan_instances" := VInstances instances]> d in         (* 132 *)
  ins_instances ← ins_targets image_shape pan_seg_gt segments_info; (* 137-158 *)
  let d := <["ins_instances" := VInstances ins_instances]> d in     (* 160 *)
  match sem_seg_gt with                                             (* 164 *)
  | Some sem_seg_gt => semantic_branch d image sem_seg_gt
  | None => mret d
  end.

(** Lines 67 to 84: the image and the semantic label are read and
    augmented.  Line 69 deep-copies the record: every change is made on
    the copy, which the pure model gets for free. *)
Definition load_image (dataset_dict : dataset_record)
    : result (dataset_record * ndarray3 Z * option (ndarray Z) * transform lib) :=
  _ ← assert_is_train;                                              (* 67 *)
  file_name ← getitem dataset_dict "file_name";                     (* 70 *)
  image ← external (read_image lib file_name (img_format self));
  d ← check_image_size dataset_dict image;                          (* 71 *)
  '(sem_seg_gt, d) ← load_sem_seg d;                                (* 74-78 *)
  '(image, aug_sem_seg, transforms) ←                               (* 80-81 *)
    external (apply_transform_gens lib image sem_seg_gt);
  let sem_seg_gt := match sem_seg_gt with                           (* 83-84 *)
                    | Some _ => aug_sem_seg
                    | None => None
                    end in
  mret (d, image, sem_seg_gt, transforms).

(** Lines 67 to 216. *)
Definition call (dataset_dict : dataset_record) : result dataset_record :=
  '(d, image, sem_seg_gt, transforms) ← load_image dataset_dict;    (* 67-84 *)
  let image_shape := (dim1 image, dim2 image) in                    (* 86 *)
  if contains d "pan_seg_file_name"                                 (* 89 *)
  then panoptic_branch d image sem_seg_gt transforms image_shape
  else mret d.                                                      (* 216 *)

(** The label map the builders of lines 112 to 158 work on: the
    panoptic image of the record, transformed and decoded to ids. *)
Definition decoded_label_map (dataset_dict : dataset_record) : result (ndarray Z) :=
  '(d, _, _, transforms) ← load_image dataset_dict;
  '(pan_seg_gt, _, _) ← load_pan_seg d transforms;
  mret (contents pan_seg_gt).

End Mapper.

(** * Reading a segment table *)

(** The fields of a SegmentRecord, read off its dict.  The defaults are
    never reached on a table the panoptic loop accepts. *)
Definition category_id (s : segment_info) : Z :=
  from_option as_int 0 (s !! "category_id").

Definition segment_id (s : segment_info) : Z :=
  from_option as_int 0 (s !! "id").

Definition is_crowd (s : segment_info) : bool :=
  from_option truthy false (s !! "iscrowd").

Definition is_thing (s : segment_info) : bool :=
  from_option truthy false (s !! "isthing").

(** What the panoptic bundle keeps, and what the instance bundle keeps. *)
Definition pan_keeps (s : segment_info) : bool := negb (is_crowd s).

Definition ins_keeps (s : segment_info) : bool := negb (is_crowd s) && is_thing s.

(** The mask of a segment: [LabelMap == id]. *)
Definition segment_mask (label_map : ndarray Z) (s : segment_info) : mask :=
  eq_scalar label_map (segment_id s).

(** The class and the mask a kept segment contributes. *)
Definition entry_of (label_map : ndarray Z) (s : segment_info) : pyval * mask :=
  (default (PyInt 0) (s !! "category_id"), segment_mask label_map s).

(** An entry with the four fields of a SegmentRecord, its class id a
    machine integer. *)
Definition complete_segment (s : segment_info) : Prop :=
  is_Some (s !! "id") /\ is_Some (s !! "category_id") /\
  is_Some (s !! "iscrowd") /\ is_Some (s !! "isthing") /\
  in_int64 (category_id s) = true.

(** No pixel is set in two masks at distinct indices. *)
Definition pairwise_disjoint (masks : list mask) : Prop :=
  forall (i j : nat) (m1 m2 : mask) (r c : nat),
    i <> j -> masks !! i = Some m1 -> masks !! j = Some m2 ->
    pixel m1 r c = Some true -> pixel m2 r c = Some true -> False.

(** A box is tight around a mask: every set pixel is inside, each of
    its four sides touches a set pixel, and a mask with no set pixel has
    the all-zero box. *)
Definition tight_box (m : mask) (b : box) : Prop :=
  let '(x0, y0, x1, y1) := b in
  (forall r c : nat, pixel m r c = Some true ->
     x0 <= Z.of_nat c < x1 /\ y0 <= Z.of_nat r < y1) /\
  ((exists r c : nat, pixel m r c = Some true) ->
     (exists r, pixel m r (Z.to_nat x0) = Some true) /\
     (exists r, pixel m r (Z.to_nat (x1 - 1)) = Some true) /\
     (exists c, pixel m (Z.to_nat y0) c = Some true) /\
     (exists c, pixel m (Z.to_nat (y1 - 1)) c = Some true)) /\
  ((forall r c : nat, pixel m r c <> Some true) -> b = (0, 0, 0, 0)).

(** * A small dataset, for examples *)

Module Demo.

Definition px (id : Z) : list Z := [id; 0; 0].

(** A 2 x 3 image and its panoptic label image with segments 1, 2, 3. *)
Definition image : ndarray3 Z :=
  mk_ndarray3 2 3 3 [[px 10; px 20; px 30]; [px 40; px 50; px 60]].

Definition pan_image : ndarray3 Z :=
  mk_ndarray3 2 3 3 [[px 1; px 1; px 2]; [px 3; px 2; px 2]].

Definition sem_image : ndarray Z :=
  mk_ndarray 2 3 [[5; 5; 7]; [255; 7; 7]].

Definition label_map : ndarray Z :=
  mk_ndarray 2 3 [[1; 1; 2]; [3; 2; 2]].

Definition read_image (path : value) (format : string) : string + ndarray3 Z :=
  match path with
  | VStr "img.jpg" => inr image
  | VStr "pan.png" => inr pan_image
  | _ => inl "FileNotFoundError"
  end.

Definition read_label (path : value) : string + ndarray Z :=
  match path with
  | VStr "sem.png" => inr sem_image
  | _ => inl "FileNotFoundError"
  end.

(** No augmentation: the empty list of transforms. *)
Definition apply_transform_gens (i : ndarray3 Z) (s : option (ndarray Z))
    : string + (ndarray3 Z * option (ndarray Z) * unit) :=
  inr (i, s, tt).

Definition apply_segmentation (t : unit) (p : ndarray3 Z) : string + ndarray3 Z :=
  inr p.

Definition self : config := mk_config true "RGB" 255 32.

Definition segment (id cat crowd : Z) (thing : bool) : segment_info :=
  <["id" := PyInt id]> (<["category_id" := PyInt cat]>
    (<["iscrowd" := PyInt crowd]> (<["isthing" := PyBool thing]> ∅))).

(** A thing, a stuff region and a crowd. *)
Definition segments : list segment_info :=
  [segment 1 100 0 true; segment 2 200 0 false; segment 3 300 1 true].

Definition record : dataset_record :=
  <["file_name" := VStr "img.jpg"]>
    (<["pan_seg_file_name" := VStr "pan.png"]>
      (<["segments_info" := VSegments segments]> ∅)).

(** The same record with a semantic label image next to the panoptic one. *)
Definition record_with_sem : dataset_record :=
  <["sem_seg_file_name" := VStr "sem.png"]> record.

(** A record whose only segment is a crowd. *)
Definition record_all_crowd : dataset_record :=
  <["segments_info" := VSegments [segment 3 300 1 true]]> record.

(** A record that also carries box annotations. *)
Definition record_with_annotations : dataset_record :=
  <["annotations" := VOther "[]"]> record.

(** A segment whose dict has no "iscrowd" key. *)
Definition segment_no_iscrowd : segment_info :=
  <["id" := PyInt 1]> (<["category_id" := PyInt 100]>
    (<["isthing" := PyBool true]> ∅)).

Definition record_no_iscrowd : dataset_record :=
  <["segments_info" := VSegments [segment_no_iscrowd]]> record.

Definition lib : library :=
  mk_library unit read_image read_label apply_transform_gens apply_segmentation.

(** What the mapper returns for [record]. *)
Definition pan_bundle : Instances :=
  mk_Instances (3%nat, 3%nat) [100; 200]
    (mk_ndarray3 2 2 3 [[[true; true; false]; [false; false; false]];
                        [[false; false; true]; [false; true; true]]])
    None.

Definition ins_bundle : Instances :=
  mk_Instances (3%nat, 3%nat) [100]
    (mk_ndarray3 1 2 3 [[[true; true; false]; [false; false; false]]])
    (Some [(0, 0, 2, 1)]).

Definition output : dataset_record :=
  <["ins_instances" := VInstances ins_bundle]>
    (<["pan_instances" := VInstances pan_bundle]>
      (<["height" := VInt 2]> (<["width" := VInt 3]>
        (delete "pan_seg_file_name" record)))).

(** A 20 x 40 image with three channels, and a label of the same size. *)
Definition image_20_40 : ndarray3 Z :=
  mk_ndarray3 3 20 40 (replicate 3 (replicate 20 (replicate 40 0))).

Definition label_20_40 : ndarray Z :=
  mk_ndarray 20 40 (replicate 20 (replicate 40 7)).

End Demo.

(** * More small cases *)

Module Cases.

(** A table whose second segment, id 9, is nowhere in [Demo.label_map]. *)
Definition segments_vanished : list segment_info :=
  [Demo.segment 1 100 0 true; Demo.segment 9 900 0 true].

Definition ins_bundle_vanished : Instances :=
  mk_Instances (3%nat, 3%nat) [100; 900]
    (mk_ndarray3 2 2 3 [[[true; true; false]; [false; false; false]];
                        [[false; false; false]; [false; false; false]]])
    (Some [(0, 0, 2, 1); (0, 0, 0, 0)]).

(** A record with a semantic label image and no panoptic one. *)
Definition record_sem_only : dataset_record :=
  <["sem_seg_file_name" := VStr "sem.png"]>
    (<["file_name" := VStr "img.jpg"]> ∅).

Definition output_sem_only : dataset_record :=
  <["height" := VInt 2]> (<["width" := VInt 3]>
    (<["file_name" := VStr "img.jpg"]> ∅)).

(** A 20 x 40 image as the reader gives it, [(H, W, C)], with a
    panoptic label image holding one segment, id 1, and, under
    "sem.png", the 20 x 40 semantic label [Demo.label_20_40]. *)
Definition image_hwc_20_40 : ndarray3 Z :=
  mk_ndarray3 20 40 3 (replicate 20 (replicate 40 [0; 0; 0])).

Definition pan_image_20_40 : ndarray3 Z :=
  mk_ndarray3 20 40 3 (replicate 20 (replicate 40 (Demo.px 1))).

Definition read_image_20_40 (path : value) (format : string)
    : string + ndarray3 Z :=
  match path with
  | VStr "img.jpg" => inr image_hwc_20_40
  | VStr "pan.png" => inr pan_image_20_40
  | _ => inl "FileNotFoundError"
  end.

Definition read_label_20_40 (path : value) : string + ndarray Z :=
  match path with
  | VStr "sem.png" => inr Demo.label_20_40
  | _ => inl "FileNotFoundError"
  end.

Definition lib_20_40 : library :=
  mk_library unit read_image_20_40 read_label_20_40
    Demo.apply_transform_gens Demo.apply_segmentation.

Definition record_20_40 : dataset_record :=
  <["sem_seg_file_name" := VStr "sem.png"]>
    (<["segments_info" := VSegments [Demo.segment 1 100 0 true]]> Demo.record).

End Cases.

(** * What the loops and the call need *)

(** The panoptic loop gets through an entry that has "category_id" and
    "iscrowd" and, unless it is a crowd, "id" (lines 116 to 119). *)
Definition pan_accepts (s : segment_info) : bool :=
  contains s "category_id" && contains s "iscrowd" &&
  (is_crowd s || contains s "id").

(** The instance loop gets through an entry that has "category_id" and,
    unless it has a true "iscrowd", "isthing" and, if a thing, "id"
    (lines 141 to 145). *)
Definition ins_accepts (s : segment_info) : bool :=
  contains s "category_id" &&
  (is_crowd s || (contains s "isthing" && (negb (is_thing s) || contains s "id"))).

(** The augmentation hands a semantic label back whenever it got one, as
    [AugInput] does. *)
Definition keeps_sem_seg (lib : library) : Prop :=
  forall (image : ndarray3 Z) (sem : ndarray Z)
         (r : ndarray3 Z * option (ndarray Z) * transform lib),
    apply_transform_gens lib image (Some sem) = inr r -> is_Some (snd (fst r)).

(** The keys a call may change. *)
Definition touched_keys : list string :=
  ["width"; "height"; "sem_seg_file_name"; "pan_seg_file_name";
   "pan_instances"; "ins_instances"].

(** * Properties *)

Example demo_call_output : call Demo.self Demo.lib Demo.record = Ok Demo.output.
Proof. vm_compute. reflexivity. Qed.

(** ** The error monad *)

Lemma bind_Ok {A B : Type} (r : result A) (k : A -> result B) (b : B) :
  r ≫= k = Ok b -> exists a, r = Ok a /\ k a = Ok b.
Proof.
  destruct r as [a|e]; simpl; intros H.
  - exists a. split; [reflexivity | exact H].
  - discriminate H.
Qed.

Lemma bind_Err {A B : Type} (r : result A) (k : A -> result B) (e : error) :
  r ≫= k = Err e -> r = Err e \/ exists a, r = Ok a /\ k a = Err e.
Proof.
  destruct r as [a|e']; simpl; intros H.
  - right. exists a. split; [reflexivity | exact H].
  - left. congruence.
Qed.

Lemma getitem_Ok {V : Type} (d : gmap string V) (key : string) (v : V) :
  getitem d key = Ok v <-> d !! key = Some v.
Proof.
  unfold getitem. destruct (d !! key); split; intros H; congruence.
Qed.

Lemma getitem_Err {V : Type} (d : gmap string V) (key : string) (e : error) :
  getitem d key = Err e -> e = KeyError key /\ d !! key = None.
Proof.
  unfold getitem. destruct (d !! key); intros H; [discriminate|].
  split; congruence.
Qed.

Lemma contains_true {V : Type} (d : gmap string V) (key : string) :
  contains d key = true <-> is_Some (d !! key).
Proof.
  unfold contains. destruct (d !! key); split; intros H; eauto.
  - discriminate.
  - destruct H; discriminate.
Qed.

Lemma contains_false {V : Type} (d : gmap string V) (key : string) :
  contains d key = false <-> d !! key = None.
Proof.
  unfold contains. destruct (d !! key); split; intros H; congruence.
Qed.

Lemma external_Ok {A : Type} (r : string + A) (a : A) :
  external r = Ok a <-> r = inr a.
Proof. destruct r; simpl; split; intros H; congruence. Qed.

(** Takes a successful sequence of binds apart, one step at a time. *)
Ltac ok_step H :=
  let a := fresh "a" in
  let Ha := fresh "Hstep" in
  apply bind_Ok in H; destruct H as (a & Ha & H).

Tactic Notation "ok_bind" hyp(H) "as" ident(a) ident(Ha) :=
  apply bind_Ok in H; destruct H as (a & Ha & H).

(** Shows [mret] as the [Ok] it is. *)
Ltac ret_simpl := unfold mret, result_ret in *.

(** ** Python values *)

Lemma eq_False_truthy (v : pyval) : eq_False v = negb (truthy v).
Proof.
  destruct v as [z|[|]]; unfold eq_False; simpl; try reflexivity.
  destruct (z =? 0); reflexivity.
Qed.

(** ** Arrays and masks *)

Lemma pixel_ndmap {A B : Type} (f : A -> B) (a : ndarray A) (r c : nat) :
  pixel (ndmap f a) r c = f <$> pixel a r c.
Proof.
  unfold pixel, ndmap. simpl.
  rewrite list_lookup_fmap. destruct (rows a !! r) as [row|]; simpl.
  - apply list_lookup_fmap.
  - reflexivity.
Qed.

Lemma pixel_eq_scalar (a : ndarray Z) (v : Z) (r c : nat) :
  pixel (eq_scalar a v) r c = Some true <-> pixel a r c = Some v.
Proof.
  unfold eq_scalar. rewrite pixel_ndmap.
  destruct (pixel a r c) as [x|]; simpl; split; intros H; try discriminate.
  - injection H as H. apply Z.eqb_eq in H. congruence.
  - injection H as H. subst. rewrite Z.eqb_refl. reflexivity.
Qed.

(** Masks of distinct values never share a pixel. *)
Lemma eq_scalar_disjoint (a : ndarray Z) (v w : Z) (r c : nat) :
  v <> w ->
  pixel (eq_scalar a v) r c = Some true ->
  pixel (eq_scalar a w) r c = Some true -> False.
Proof.
  intros Hne Hv Hw. apply pixel_eq_scalar in Hv, Hw. congruence.
Qed.

Lemma wf_ndmap {A B : Type} (f : A -> B) (a : ndarray A) :
  wf_ndarray a -> wf_ndarray (ndmap f a).
Proof.
  intros [Hh Hw]. split; simpl.
  - rewrite length_map. exact Hh.
  - apply Forall_map. eapply Forall_impl; [exact Hw|].
    intros row Hrow. simpl. rewrite length_map. exact Hrow.
Qed.

(** Stacking masks of one shape, or the explicit empty tensor, gives the
    masks back plane by plane, with the number of masks first in the shape. *)
Lemma planes_stack (h w : nat) (ms : list mask) :
  Forall (fun m => height m = h /\ width m = w) ms ->
  let t := match ms with
           | [] => torch_zeros_0 h w
           | m :: ms' => torch_stack m ms'
           end in
  planes t = ms /\ shape3 t = (length ms, h, w).
Proof.
  intros Hall. destruct ms as [|m ms']; simpl.
  - split; reflexivity.
  - apply Forall_cons in Hall as [[Hh Hw] Hrest].
    unfold planes, shape3. simpl. subst h w. split; [|reflexivity]. f_equal.
    + destruct m; reflexivity.
    + induction Hrest as [|m' l [Hh' Hw'] _ IH]; simpl; [reflexivity|].
      rewrite IH. f_equal. destruct m'; simpl in *. congruence.
Qed.

(** ** The loops over the segment table *)

Section Collect.

Variable body : segment_info -> result (option (pyval * mask)).

(** A loop that returns has run its body on every entry. *)
Lemma collect_Ok_each (segs : list segment_info) :
  forall cs ms r, collect body segs cs ms = Ok r ->
  forall s, s ∈ segs -> exists k, body s = Ok k.
Proof.
  induction segs as [|s0 rest IH]; intros cs ms r H s Hin.
  - apply elem_of_nil in Hin. destruct Hin.
  - simpl in H. ok_step H.
    apply elem_of_cons in Hin as [->|Hin]; [eauto|].
    destruct a as [[c m]|]; eapply IH; eauto.
Qed.

(** A loop that raises does so in its body, on some entry. *)
Lemma collect_Err_each (segs : list segment_info) :
  forall cs ms e, collect body segs cs ms = Err e ->
  exists s, s ∈ segs /\ body s = Err e.
Proof.
  induction segs as [|s0 rest IH]; intros cs ms e H.
  - discriminate H.
  - simpl in H. apply bind_Err in H as [H | (k & Hk & H)].
    + exists s0. split; [apply list_elem_of_here | exact H].
    + destruct k as [[c m]|]; apply IH in H as (s & Hin & Hs);
        exists s; (split; [apply list_elem_of_further; exact Hin | exact Hs]).
Qed.

(** One failing entry makes the whole loop raise. *)
Lemma collect_raises (segs : list segment_info) (s : segment_info) (e : error) :
  s ∈ segs -> body s = Err e ->
  forall cs ms, raises (collect body segs cs ms).
Proof.
  intros Hin Hs cs ms. destruct (collect body segs cs ms) as [r|e'] eqn:H.
  - destruct (collect_Ok_each _ _ _ _ H s Hin) as [k Hk]. congruence.
  - exists e'. reflexivity.
Qed.

(** When the body keeps the entries selected by [keep] and appends
    [entry s] for them, the loop is a filter followed by a map. *)
Lemma collect_filter (keep : segment_info -> bool)
    (entry : segment_info -> pyval * mask) (segs : list segment_info) :
  (forall s, s ∈ segs -> body s = Ok (if keep s then Some (entry s) else None)) ->
  forall cs ms,
    collect body segs cs ms =
    Ok (cs ++ map (fun s => fst (entry s)) (List.filter keep segs),
        ms ++ map (fun s => snd (entry s)) (List.filter keep segs)).
Proof.
  induction segs as [|s0 rest IH]; intros Hbody cs ms; simpl.
  - rewrite !app_nil_r. reflexivity.
  - rewrite (Hbody s0) by apply list_elem_of_here.
    assert (Hrest : forall s, s ∈ rest ->
              body s = Ok (if keep s then Some (entry s) else None)).
    { intros s Hin. apply Hbody. apply list_elem_of_further. exact Hin. }
    destruct (keep s0); simpl.
    + destruct (entry s0) as [c m] eqn:He. rewrite IH by exact Hrest.
      simpl. rewrite <- !app_assoc. reflexivity.
    + apply IH. exact Hrest.
Qed.

End Collect.

Lemma entry_of_class (label_map : ndarray Z) (s : segment_info) :
  as_int (fst (entry_of label_map s)) = category_id s.
Proof.
  unfold entry_of, category_id. simpl.
  destruct (s !! "category_id"); reflexivity.
Qed.

(** The panoptic body returns exactly when the entry has "category_id"
    and "iscrowd" and, if it is kept, "id"; it keeps the non-crowd ones. *)
Lemma pan_segment_Ok (lm : ndarray Z) (s : segment_info)
    (k : option (pyval * mask)) :
  pan_segment lm s = Ok k ->
  is_Some (s !! "category_id") /\ is_Some (s !! "iscrowd") /\
  k = if pan_keeps s then Some (entry_of lm s) else None.
Proof.
  unfold pan_segment. intros H.
  ok_step H. apply getitem_Ok in Hstep.
  ok_step H. apply getitem_Ok in Hstep0.
  split; [eauto|]. split; [eauto|].
  unfold pan_keeps, is_crowd, entry_of, segment_mask, segment_id.
  rewrite Hstep, Hstep0. simpl. ret_simpl.
  destruct (truthy a0); simpl in *.
  - congruence.
  - ok_step H. apply getitem_Ok in Hstep1. rewrite Hstep1. simpl.
    simpl in H. congruence.
Qed.

(** The panoptic body raises nothing but key-lookup errors. *)
Lemma pan_segment_Err (lm : ndarray Z) (s : segment_info) (e : error) :
  pan_segment lm s = Err e -> exists key, e = KeyError key.
Proof.
  unfold pan_segment. intros H.
  apply bind_Err in H as [H | (c & _ & H)];
    [apply getitem_Err in H as [-> _]; eauto|].
  apply bind_Err in H as [H | (v & _ & H)];
    [apply getitem_Err in H as [-> _]; eauto|].
  destruct (negb (truthy v)); [|discriminate H].
  apply bind_Err in H as [H | (i & _ & H)];
    [apply getitem_Err in H as [-> _]; eauto | discriminate H].
Qed.

(** An entry without "iscrowd" stops the panoptic body with a
    key-lookup error: on "category_id" if that is missing too, on
    "iscrowd" otherwise. *)
Lemma pan_segment_no_iscrowd (lm : ndarray Z) (s : segment_info) :
  s !! "iscrowd" = None ->
  pan_segment lm s =
  Err (KeyError (if contains s "category_id" then "iscrowd" else "category_id")).
Proof.
  intros Hnone. unfold pan_segment, getitem, contains.
  destruct (s !! "category_id"); simpl; [|reflexivity].
  rewrite Hnone. reflexivity.
Qed.

(** The instance body on an entry that has "iscrowd": it keeps the
    non-crowd things. *)
Lemma ins_segment_Ok (lm : ndarray Z) (s : segment_info)
    (k : option (pyval * mask)) :
  is_Some (s !! "iscrowd") ->
  ins_segment lm s = Ok k ->
  k = if ins_keeps s then Some (entry_of lm s) else None.
Proof.
  unfold ins_segment. intros [v Hv] H. ret_simpl.
  ok_step H. apply getitem_Ok in Hstep.
  unfold contains, getitem in H. rewrite Hv in H. simpl in H.
  unfold ins_keeps, is_crowd, is_thing, entry_of, segment_mask, segment_id.
  rewrite Hstep, Hv. simpl. rewrite eq_False_truthy in H.
  destruct (truthy v); simpl in *.
  - congruence.
  - destruct (s !! "isthing") as [t|]; simpl in *; [|discriminate H].
    destruct (truthy t); simpl in *.
    + destruct (s !! "id") as [i|]; simpl in *; [congruence | discriminate H].
    + congruence.
Qed.

(** The conversion returns exactly the lists whose ids all fit int64,
    and returns them unchanged. *)
Lemma int64_tensor_Ok (classes : list pyval) (values : list Z) :
  int64_tensor classes = Ok values ->
  values = map as_int classes /\ forallb in_int64 values = true.
Proof.
  unfold int64_tensor.
  destruct (forallb in_int64 (map as_int classes)) eqn:Hfit.
  - intros H. injection H as <-. split; [reflexivity | exact Hfit].
  - destruct (existsb beyond_64_bits (map as_int classes)); [discriminate|].
    destruct (forallb above_int64 (map as_int classes)); discriminate.
Qed.

Lemma int64_tensor_fits (classes : list pyval) :
  forallb in_int64 (map as_int classes) = true ->
  int64_tensor classes = Ok (map as_int classes).
Proof. unfold int64_tensor. intros ->. reflexivity. Qed.

(** When it does not return, it is with a [TypeError] or undetermined. *)
Lemma int64_tensor_Err (classes : list pyval) (e : error) :
  int64_tensor classes = Err e ->
  (exists msg, e = TypeError msg) \/ (exists what, e = Undetermined what).
Proof.
  unfold int64_tensor.
  destruct (forallb in_int64 (map as_int classes)); [discriminate|].
  destruct (existsb beyond_64_bits (map as_int classes));
    [intros H; injection H as <-; eauto|].
  destruct (forallb above_int64 (map as_int classes));
    intros H; injection H as <-; eauto.
Qed.

Lemma segment_mask_shape (lm : ndarray Z) (segs : list segment_info) :
  Forall (fun m : mask => height m = height lm /\ width m = width lm)
         (map (segment_mask lm) segs).
Proof.
  apply Forall_map. apply Forall_forall. intros s _. split; reflexivity.
Qed.

(** What a panoptic loop that returns has collected. *)
Lemma collect_pan_Ok (lm : ndarray Z) (segs : list segment_info)
    (r : list pyval * list mask) :
  collect (pan_segment lm) segs [] [] = Ok r ->
  (forall s, s ∈ segs -> is_Some (s !! "category_id") /\ is_Some (s !! "iscrowd")) /\
  map as_int (fst r) = map category_id (List.filter pan_keeps segs) /\
  snd r = map (segment_mask lm) (List.filter pan_keeps segs).
Proof.
  intros H.
  assert (Hbody : forall s, s ∈ segs ->
     pan_segment lm s = Ok (if pan_keeps s then Some (entry_of lm s) else None)).
  { intros s Hin. destruct (collect_Ok_each _ _ _ _ _ H s Hin) as [k Hk].
    rewrite Hk. f_equal. apply (pan_segment_Ok _ _ _ Hk). }
  split.
  - intros s Hin. specialize (Hbody s Hin).
    apply pan_segment_Ok in Hbody as (Hc & Hi & _). split; assumption.
  - rewrite (collect_filter _ pan_keeps (entry_of lm) segs Hbody) in H.
    injection H as <-. simpl. split; [|reflexivity].
    rewrite map_map. apply map_ext. intros s. exact (entry_of_class lm s).
Qed.

(** The same for the instance loop, on a table whose entries all have
    "iscrowd". *)
Lemma collect_ins_Ok (lm : ndarray Z) (segs : list segment_info)
    (r : list pyval * list mask) :
  (forall s, s ∈ segs -> is_Some (s !! "iscrowd")) ->
  collect (ins_segment lm) segs [] [] = Ok r ->
  map as_int (fst r) = map category_id (List.filter ins_keeps segs) /\
  snd r = map (segment_mask lm) (List.filter ins_keeps segs).
Proof.
  intros Hcrowd H.
  assert (Hbody : forall s, s ∈ segs ->
     ins_segment lm s = Ok (if ins_keeps s then Some (entry_of lm s) else None)).
  { intros s Hin. destruct (collect_Ok_each _ _ _ _ _ H s Hin) as [k Hk].
    rewrite Hk. f_equal. apply (ins_segment_Ok _ _ _ (Hcrowd s Hin) Hk). }
  rewrite (collect_filter _ ins_keeps (entry_of lm) segs Hbody) in H.
  injection H as <-. simpl. split; [|reflexivity].
  rewrite map_map. apply map_ext. intros s. exact (entry_of_class lm s).
Qed.

(** The panoptic bundle of a table the loop accepts. *)
Lemma pan_targets_Ok (shape : nat * nat) (lm : ndarray Z)
    (segs : list segment_info) (pan : Instances) :
  pan_targets shape lm segs = Ok pan ->
  (forall s, s ∈ segs -> is_Some (s !! "category_id") /\ is_Some (s !! "iscrowd")) /\
  gt_classes pan = map category_id (List.filter pan_keeps segs) /\
  planes (gt_masks pan) = map (segment_mask lm) (List.filter pan_keeps segs) /\
  shape3 (gt_masks pan) =
    (length (List.filter pan_keeps segs), height lm, width lm) /\
  gt_boxes pan = None.
Proof.
  unfold pan_targets. intros H. ok_step H. destruct a as [cs ms].
  apply collect_pan_Ok in Hstep as (Hkeys & Hcs & Hms). simpl in Hcs, Hms.
  ok_bind H as values Hvalues. apply int64_tensor_Ok in Hvalues as [-> _].
  ret_simpl. injection H as <-. simpl.
  split; [exact Hkeys|]. split; [exact Hcs|].
  destruct (planes_stack (height lm) (width lm) ms) as [Hp Hs].
  { rewrite Hms. apply segment_mask_shape. }
  rewrite Hp, Hs, Hms, length_map. repeat split; reflexivity.
Qed.

(** The instance bundle of a table whose entries all have "iscrowd":
    the call returns only when some segment is kept, and the boxes are
    computed from the stacked masks. *)
Lemma ins_targets_Ok (shape : nat * nat) (lm : ndarray Z)
    (segs : list segment_info) (ins : Instances) :
  (forall s, s ∈ segs -> is_Some (s !! "iscrowd")) ->
  ins_targets shape lm segs = Ok ins ->
  List.filter ins_keeps segs <> [] /\
  gt_classes ins = map category_id (List.filter ins_keeps segs) /\
  planes (gt_masks ins) = map (segment_mask lm) (List.filter ins_keeps segs) /\
  shape3 (gt_masks ins) =
    (length (List.filter ins_keeps segs), height lm, width lm) /\
  gt_boxes ins = Some (map bounding_box (planes (gt_masks ins))).
Proof.
  unfold ins_targets. intros Hcrowd H. ok_step H. destruct a as [cs ms].
  apply collect_ins_Ok in Hstep as (Hcs & Hms); [|exact Hcrowd].
  simpl in Hcs, Hms.
  ok_bind H as values Hvalues. apply int64_tensor_Ok in Hvalues as [-> _].
  destruct (planes_stack (height lm) (width lm) ms) as [Hp Hs].
  { rewrite Hms. apply segment_mask_shape. }
  destruct ms as [|m ms'].
  - discriminate H.
  - ret_simpl. injection H as <-.
    cbn [gt_classes gt_masks gt_boxes].
    split; [intros Hnil; rewrite Hnil in Hms; discriminate Hms|].
    split; [exact Hcs|].
    split; [rewrite Hp; exact Hms|].
    split; [|reflexivity].
    rewrite Hs. cbn [length] in Hs |- *.
    change (S (length ms')) with (length (m :: ms')).
    rewrite Hms, length_map. reflexivity.
Qed.

(** With nothing kept, the instance builder stops on the unbound name. *)
Lemma ins_targets_empty (shape : nat * nat) (lm : ndarray Z)
    (segs : list segment_info) :
  collect (ins_segment lm) segs [] [] = Ok ([], []) ->
  ins_targets shape lm segs = Err (NameError "Boxes").
Proof.
  unfold ins_targets. intros ->. reflexivity.
Qed.

(** ** The call, taken apart *)

Section MapperFacts.

Variable self : config.
Variable lib : library.

(** The size check adds "width" and "height" and touches nothing else. *)
Lemma check_image_size_Ok (d d' : dataset_record) (image : ndarray3 Z) :
  check_image_size d image = Ok d' ->
  forall key, key <> "width" -> key <> "height" -> d' !! key = d !! key.
Proof.
  unfold check_image_size. intros H key Hw Hh. ok_step H.
  ret_simpl. injection H as <-.
  destruct (contains d "width");
    match goal with |- context [contains ?m "height"] =>
      destruct (contains m "height") end;
    rewrite ?lookup_insert_ne by congruence; reflexivity.
Qed.

(** Reading the semantic label pops its path. *)
Lemma load_sem_seg_Ok (d d' : dataset_record) (sem : option (ndarray Z)) :
  load_sem_seg lib d = Ok (sem, d') ->
  d' = delete "sem_seg_file_name" d /\
  (is_Some sem <-> is_Some (d !! "sem_seg_file_name")).
Proof.
  unfold load_sem_seg. intros H.
  destruct (contains d "sem_seg_file_name") eqn:Hc.
  - apply contains_true in Hc. do 2 ok_step H. ret_simpl.
    injection H as <- <-. split; [reflexivity|]. split; eauto.
  - apply contains_false in Hc. ret_simpl. injection H as <- <-.
    split; [symmetry; apply delete_id; exact Hc|].
    rewrite Hc. split; intros [x Hx]; discriminate Hx.
Qed.

(** After lines 67 to 84 the record has lost "sem_seg_file_name", may
    have gained "width" and "height", and is otherwise the input. *)
Lemma load_image_Ok (d d1 : dataset_record) (image : ndarray3 Z)
    (sem : option (ndarray Z)) (tfm : transform lib) :
  load_image self lib d = Ok (d1, image, sem, tfm) ->
  is_train self = true /\
  d1 !! "sem_seg_file_name" = None /\
  (is_Some sem -> is_Some (d !! "sem_seg_file_name")) /\
  forall key, key <> "width" -> key <> "height" ->
              key <> "sem_seg_file_name" -> d1 !! key = d !! key.
Proof.
  unfold load_image, assert_is_train. intros H.
  destruct (is_train self); [|discriminate H]. simpl in H.
  do 4 ok_step H. destruct a2 as [sem0 d2].
  ok_step H. destruct a2 as [[image' aug_sem] tfm'].
  ret_simpl. injection H as <- <- <- <-.
  apply load_sem_seg_Ok in Hstep2 as [-> Hsem].
  split; [reflexivity|]. split; [apply lookup_delete_eq|]. split.
  - intros Hs.
    assert (Hk : a1 !! "sem_seg_file_name" = d !! "sem_seg_file_name").
    { eapply check_image_size_Ok; [exact Hstep1 | congruence | congruence]. }
    rewrite <- Hk. apply Hsem. destruct sem0; [eauto|].
    destruct Hs as [x Hx]; discriminate Hx.
  - intros key Hw Hh Hs. rewrite lookup_delete_ne by congruence.
    eapply check_image_size_Ok; eassumption.
Qed.

(** Reading the panoptic label pops its path and fetches the table. *)
Lemma load_pan_seg_Ok (d d' : dataset_record) (tfm : transform lib)
    (pan : pyarray (ndarray Z)) (table : value) :
  load_pan_seg lib d tfm = Ok (pan, table, d') ->
  d' = delete "pan_seg_file_name" d /\
  is_Some (d !! "pan_seg_file_name") /\
  d !! "segments_info" = Some table /\
  pan = NdArray (contents pan).
Proof.
  unfold load_pan_seg. intros H. do 4 ok_step H.
  ret_simpl. injection H as <- <- <-.
  apply getitem_Ok in Hstep, Hstep1.
  rewrite lookup_delete_ne in Hstep1 by congruence.
  repeat split; eauto.
Qed.

(** Lines 165 and 166 call numpy methods on what lines 101 and 103
    turned into torch tensors: the semantic branch stops there. *)
Lemma semantic_branch_raises (d : dataset_record) (image : ndarray3 Z)
    (sem : pyarray (ndarray Z)) :
  semantic_branch self d (Tensor image) sem =
  Err (TypeError "transpose() received an invalid combination of arguments").
Proof. reflexivity. Qed.

(** A panoptic branch that returns: no "annotations", both builders
    returned, their bundles are attached, and there was no semantic
    label. *)
Lemma panoptic_branch_Ok (d out : dataset_record) (image : ndarray3 Z)
    (sem : option (ndarray Z)) (tfm : transform lib) (shape : nat * nat) :
  panoptic_branch self lib d image sem tfm shape = Ok out ->
  exists (lm : ndarray Z) (segs : list segment_info) (pan ins : Instances),
    load_pan_seg lib d tfm = Ok (NdArray lm, VSegments segs, delete "pan_seg_file_name" d) /\
    d !! "annotations" = None /\
    sem = None /\
    pan_targets shape lm segs = Ok pan /\
    ins_targets shape lm segs = Ok ins /\
    out = <["ins_instances" := VInstances ins]>
            (<["pan_instances" := VInstances pan]>
               (delete "pan_seg_file_name" d)).
Proof.
  unfold panoptic_branch. intros H.
  ok_step H. destruct a as [[pan_seg_gt table] d'].
  destruct (load_pan_seg_Ok _ _ _ _ _ Hstep) as (-> & _ & _ & Hpan).
  rewrite Hpan in Hstep, H.
  ok_bind H as image_t Himage. ok_bind H as sem_t Hsem_t.
  ok_bind H as pan_l Hpan_l. simpl in Hpan_l. injection Hpan_l as <-.
  ok_bind H as u Hcheck.
  destruct (contains (delete "pan_seg_file_name" d) "annotations") eqn:Hann;
    [discriminate Hcheck|].
  apply contains_false in Hann.
  rewrite lookup_delete_ne in Hann by congruence.
  ok_bind H as pan_np Hnp. simpl in Hnp. injection Hnp as <-.
  ok_bind H as segs Hsegs.
  destruct table as [| |segs0| | | |]; try discriminate Hsegs.
  simpl in Hsegs. injection Hsegs as ->.
  ok_bind H as pan Hp. ok_bind H as ins Hi.
  exists (contents pan_seg_gt), segs, pan, ins.
  assert (Hsem : sem = None).
  { destruct sem as [s|]; [|reflexivity].
    simpl in Hsem_t. ret_simpl. injection Hsem_t as <-.
    simpl in Himage. injection Himage as <-.
    rewrite semantic_branch_raises in H. discriminate H. }
  subst sem. simpl in Hsem_t. ret_simpl. injection Hsem_t as <-.
  injection H as <-.
  repeat split; assumption.
Qed.

(** A call that returns on a record with a panoptic label. *)
Lemma call_Ok_pan (d out : dataset_record) :
  call self lib d = Ok out ->
  is_Some (d !! "pan_seg_file_name") ->
  exists (d1 : dataset_record) (image : ndarray3 Z) (tfm : transform lib)
         (lm : ndarray Z) (segs : list segment_info) (pan ins : Instances),
    load_image self lib d = Ok (d1, image, None, tfm) /\
    decoded_label_map self lib d = Ok lm /\
    d !! "segments_info" = Some (VSegments segs) /\
    d !! "annotations" = None /\
    pan_targets (dim1 image, dim2 image) lm segs = Ok pan /\
    ins_targets (dim1 image, dim2 image) lm segs = Ok ins /\
    out = <["ins_instances" := VInstances ins]>
            (<["pan_instances" := VInstances pan]>
               (delete "pan_seg_file_name" d1)).
Proof.
  unfold call. intros H Hpan.
  ok_step H. destruct a as [[[d1 image] sem] tfm].
  destruct (load_image_Ok _ _ _ _ _ Hstep) as (_ & _ & _ & Hframe).
  assert (Hc : contains d1 "pan_seg_file_name" = true).
  { apply contains_true. rewrite Hframe by congruence. exact Hpan. }
  rewrite Hc in H.
  apply panoptic_branch_Ok in H
    as (lm & segs & pan & ins & Hload & Hann & -> & Hp & Hi & ->).
  exists d1, image, tfm, lm, segs, pan, ins.
  split; [exact Hstep|]. split.
  { unfold decoded_label_map. rewrite Hstep. simpl. rewrite Hload. reflexivity. }
  apply load_pan_seg_Ok in Hload as (_ & _ & Hsegs & _).
  rewrite Hframe in Hsegs, Hann by congruence.
  repeat split; assumption.
Qed.

(** A call that returns on a record without a panoptic label gives the
    loaded record back. *)
Lemma call_Ok_no_pan (d out : dataset_record) :
  call self lib d = Ok out ->
  d !! "pan_seg_file_name" = None ->
  exists (image : ndarray3 Z) (sem : option (ndarray Z)) (tfm : transform lib),
    load_image self lib d = Ok (out, image, sem, tfm).
Proof.
  unfold call. intros H Hpan.
  ok_step H. destruct a as [[[d1 image] sem] tfm].
  destruct (load_image_Ok _ _ _ _ _ Hstep) as (_ & _ & _ & Hframe).
  assert (Hc : contains d1 "pan_seg_file_name" = false).
  { apply contains_false. rewrite Hframe by congruence. exact Hpan. }
  rewrite Hc in H. ret_simpl. injection H as <-. eauto.
Qed.

End MapperFacts.

(** ** Tables the builders accept *)

Lemma pan_segment_complete (lm : ndarray Z) (s : segment_info) :
  complete_segment s ->
  pan_segment lm s = Ok (if pan_keeps s then Some (entry_of lm s) else None).
Proof.
  intros ([i Hi] & [c Hc] & [v Hv] & _).
  unfold pan_segment, getitem, pan_keeps, is_crowd, entry_of, segment_mask,
    segment_id.
  rewrite Hc, Hv, Hi. simpl. destruct (truthy v); reflexivity.
Qed.

Lemma ins_segment_complete (lm : ndarray Z) (s : segment_info) :
  complete_segment s ->
  ins_segment lm s = Ok (if ins_keeps s then Some (entry_of lm s) else None).
Proof.
  intros ([i Hi] & [c Hc] & [v Hv] & [t Ht] & _).
  unfold ins_segment, getitem, contains, ins_keeps, is_crowd, is_thing,
    entry_of, segment_mask, segment_id.
  rewrite Hc, Hv, Hi, Ht. simpl. rewrite eq_False_truthy.
  destruct (truthy v), (truthy t); reflexivity.
Qed.

(** The class ids collected from entries that fit int64 fit int64. *)
Lemma kept_classes_fit (keep : segment_info -> bool) (lm : ndarray Z)
    (segs : list segment_info) :
  (forall s, s ∈ segs -> in_int64 (category_id s) = true) ->
  forallb in_int64
    (map as_int (map (fun s => fst (entry_of lm s)) (List.filter keep segs)))
  = true.
Proof.
  intros Hfit. apply forallb_forall. intros z Hz.
  rewrite map_map in Hz. apply in_map_iff in Hz as (s & <- & Hs).
  apply filter_In in Hs as [Hs _].
  rewrite (entry_of_class lm s). apply Hfit, list_elem_of_In, Hs.
Qed.

(** On a table of complete entries the panoptic builder returns. *)
Lemma pan_targets_complete (shape : nat * nat) (lm : ndarray Z)
    (segs : list segment_info) :
  (forall s, s ∈ segs -> complete_segment s) ->
  exists pan, pan_targets shape lm segs = Ok pan.
Proof.
  intros Hall. unfold pan_targets.
  rewrite (collect_filter _ pan_keeps (entry_of lm) segs).
  - simpl. rewrite int64_tensor_fits.
    + simpl. eauto.
    + apply (kept_classes_fit _ lm). intros s Hin. apply (Hall s Hin).
  - intros s Hin. apply pan_segment_complete, Hall, Hin.
Qed.

(** On a table of complete entries with a non-crowd thing among them
    the instance builder returns. *)
Lemma ins_targets_complete (shape : nat * nat) (lm : ndarray Z)
    (segs : list segment_info) :
  (forall s, s ∈ segs -> complete_segment s) ->
  List.filter ins_keeps segs <> [] ->
  exists ins, ins_targets shape lm segs = Ok ins.
Proof.
  intros Hall Hkept. unfold ins_targets.
  rewrite (collect_filter _ ins_keeps (entry_of lm) segs).
  - simpl. rewrite int64_tensor_fits.
    + simpl. destruct (List.filter ins_keeps segs); [congruence|].
      simpl. eauto.
    + apply (kept_classes_fit _ lm). intros s Hin. apply (Hall s Hin).
  - intros s Hin. apply ins_segment_complete, Hall, Hin.
Qed.

(** ** The panoptic bundle *)

(** C1.  The panoptic bundle lists, in the order of the segment table,
    the [category_id] and the mask [LabelMap == id] of every segment
    whose crowd flag is false, and nothing for a crowd segment.  The
    builder returns this bundle on every table of complete entries (the
    four fields present and the class id within int64, which lines 121
    to 122 convert to), and every call that returns on a record with a
    panoptic label has attached it under "pan_instances". *)
Theorem pan_instances_non_crowd (self : config) (lib : library) :
  (forall (shape : nat * nat) (lm : ndarray Z) (segs : list segment_info),
     Forall complete_segment segs ->
     exists pan,
       pan_targets shape lm segs = Ok pan /\
       gt_classes pan = map category_id (List.filter pan_keeps segs) /\
       planes (gt_masks pan) = map (segment_mask lm) (List.filter pan_keeps segs)) /\
  (forall (d out : dataset_record),
     call self lib d = Ok out ->
     is_Some (d !! "pan_seg_file_name") ->
     exists (lm : ndarray Z) (segs : list segment_info) (pan : Instances),
       decoded_label_map self lib d = Ok lm /\
       d !! "segments_info" = Some (VSegments segs) /\
       (forall s, s ∈ segs -> is_Some (s !! "iscrowd")) /\
       out !! "pan_instances" = Some (VInstances pan) /\
       gt_classes pan = map category_id (List.filter pan_keeps segs) /\
       planes (gt_masks pan) = map (segment_mask lm) (List.filter pan_keeps segs)).
Proof.
  split.
  - intros shape lm segs Hall. rewrite Forall_forall in Hall.
    destruct (pan_targets_complete shape lm segs Hall) as [pan Hpan].
    exists pan. split; [exact Hpan|].
    apply pan_targets_Ok in Hpan as (_ & Hc & Hm & _). split; assumption.
  - intros d out Hcall Hfile.
    destruct (call_Ok_pan _ _ _ _ Hcall Hfile)
      as (d1 & image & tfm & lm & segs & pan & ins
          & _ & Hlm & Hsegs & _ & Hpan & _ & ->).
    exists lm, segs, pan.
    apply pan_targets_Ok in Hpan as (Hkeys & Hc & Hm & _).
    split; [exact Hlm|]. split; [exact Hsegs|].
    split; [intros s Hin; apply (Hkeys s Hin)|].
    split; [|split; assumption].
    rewrite lookup_insert_ne by congruence. apply lookup_insert_eq.
Qed.

(** ** The instance bundle *)

(** C2.  The instance bundle holds a segment exactly when its crowd flag
    is false and its thing flag is true, in the order of the table:
    the builder returns that bundle on every table of complete entries
    (the four fields present and the class id within int64, which lines
    147 to 148 convert to) that keeps a segment, and every call that
    returns on a record with a panoptic label has attached it under
    "ins_instances". *)
Theorem ins_instances_non_crowd_things (self : config) (lib : library) :
  (forall (shape : nat * nat) (lm : ndarray Z) (segs : list segment_info),
     Forall complete_segment segs ->
     List.filter ins_keeps segs <> [] ->
     exists ins,
       ins_targets shape lm segs = Ok ins /\
       gt_classes ins = map category_id (List.filter ins_keeps segs) /\
       planes (gt_masks ins) = map (segment_mask lm) (List.filter ins_keeps segs)) /\
  (forall (d out : dataset_record),
     call self lib d = Ok out ->
     is_Some (d !! "pan_seg_file_name") ->
     exists (lm : ndarray Z) (segs : list segment_info) (ins : Instances),
       decoded_label_map self lib d = Ok lm /\
       d !! "segments_info" = Some (VSegments segs) /\
       (forall s, s ∈ segs -> is_Some (s !! "iscrowd")) /\
       out !! "ins_instances" = Some (VInstances ins) /\
       gt_classes ins = map category_id (List.filter ins_keeps segs) /\
       planes (gt_masks ins) = map (segment_mask lm) (List.filter ins_keeps segs)) /\
  (forall s : segment_info,
     ins_keeps s = true <-> is_crowd s = false /\ is_thing s = true).
Proof.
  split; [|split].
  - intros shape lm segs Hall Hkept. rewrite Forall_forall in Hall.
    destruct (ins_targets_complete shape lm segs Hall Hkept) as [ins Hins].
    exists ins. split; [exact Hins|].
    apply ins_targets_Ok in Hins as (_ & Hc & Hm & _);
      [split; assumption|].
    intros s Hin. apply (Hall s Hin).
  - intros d out Hcall Hfile.
    destruct (call_Ok_pan _ _ _ _ Hcall Hfile)
      as (d1 & image & tfm & lm & segs & pan & ins
          & _ & Hlm & Hsegs & _ & Hpan & Hins & ->).
    exists lm, segs, ins.
    apply pan_targets_Ok in Hpan as (Hkeys & _).
    assert (Hcrowd : forall s, s ∈ segs -> is_Some (s !! "iscrowd")).
    { intros s Hin. apply (Hkeys s Hin). }
    apply ins_targets_Ok in Hins as (_ & Hc & Hm & _); [|exact Hcrowd].
    split; [exact Hlm|]. split; [exact Hsegs|]. split; [exact Hcrowd|].
    split; [|split; assumption].
    apply lookup_insert_eq.
  - intros s. unfold ins_keeps.
    destruct (is_crowd s), (is_thing s); simpl; split;
      try (intros [? ?]); auto; discriminate.
Qed.

Lemma pan_instances_non_crowd_witness :
  (exists pan,
     pan_targets (3%nat, 3%nat) Demo.label_map Demo.segments = Ok pan /\
     gt_classes pan = [100; 200] /\
     planes (gt_masks pan) =
       [eq_scalar Demo.label_map 1; eq_scalar Demo.label_map 2]) /\
  (exists (lm : ndarray Z) (segs : list segment_info) (pan : Instances),
     decoded_label_map Demo.self Demo.lib Demo.record = Ok lm /\
     Demo.record !! "segments_info" = Some (VSegments segs) /\
     (forall s, s ∈ segs -> is_Some (s !! "iscrowd")) /\
     Demo.output !! "pan_instances" = Some (VInstances pan) /\
     gt_classes pan = map category_id (List.filter pan_keeps segs) /\
     planes (gt_masks pan) = map (segment_mask lm) (List.filter pan_keeps segs)).
Proof.
  split.
  - apply (proj1 (pan_instances_non_crowd Demo.self Demo.lib)
             (3%nat, 3%nat) Demo.label_map Demo.segments).
    repeat constructor; vm_compute; eauto.
  - apply (proj2 (pan_instances_non_crowd Demo.self Demo.lib)
             Demo.record Demo.output).
    + vm_compute. reflexivity.
    + vm_compute. eauto.
Defined.

Lemma ins_instances_non_crowd_things_witness :
  (exists ins,
     ins_targets (3%nat, 3%nat) Demo.label_map Demo.segments = Ok ins /\
     gt_classes ins = [100] /\
     planes (gt_masks ins) = [eq_scalar Demo.label_map 1]) /\
  (exists (lm : ndarray Z) (segs : list segment_info) (ins : Instances),
     decoded_label_map Demo.self Demo.lib Demo.record = Ok lm /\
     Demo.record !! "segments_info" = Some (VSegments segs) /\
     (forall s, s ∈ segs -> is_Some (s !! "iscrowd")) /\
     Demo.output !! "ins_instances" = Some (VInstances ins) /\
     gt_classes ins = map category_id (List.filter ins_keeps segs) /\
     planes (gt_masks ins) = map (segment_mask lm) (List.filter ins_keeps segs)).
Proof.
  destruct (ins_instances_non_crowd_things Demo.self Demo.lib) as (HA & HB & _).
  split.
  - apply (HA (3%nat, 3%nat) Demo.label_map Demo.segments).
    + repeat constructor; vm_compute; eauto.
    + vm_compute. discriminate.
  - apply (HB Demo.record Demo.output).
    + vm_compute. reflexivity.
    + vm_compute. eauto.
Defined.

(** ** Which errors a call can end with *)

Lemma bind_Err_class {A B : Type} (P : error -> Prop) (r : result A)
    (k : A -> result B) (e : error) :
  (r = Err e -> P e) -> (forall a, k a = Err e -> P e) ->
  r ≫= k = Err e -> P e.
Proof.
  intros Hr Hk H. apply bind_Err in H as [H | (a & _ & H)]; eauto.
Qed.

Lemma getitem_not_ValueError {V : Type} (d : gmap string V) (key : string)
    (e : error) :
  getitem d key = Err e -> is_ValueError e = false.
Proof. intros H. apply getitem_Err in H as [-> _]. reflexivity. Qed.

Lemma external_not_ValueError {A : Type} (r : string + A) (e : error) :
  external r = Err e -> is_ValueError e = false.
Proof. destruct r; simpl; intros H; [injection H as <-; reflexivity | discriminate]. Qed.

(** Peels one bind off a failing computation and settles the cases that
    are a dictionary lookup or a collaborator. *)
Tactic Notation "err_bind" hyp(H) "as" simple_intropattern(pat) :=
  apply (bind_Err_class (fun e => is_ValueError e = false)) in H;
  [exact H
  | clear H; intros H;
    first [ exact (getitem_not_ValueError _ _ _ H)
          | exact (external_not_ValueError _ _ H)
          | idtac ]
  | clear H; intros pat H ].

Tactic Notation "err_bind" hyp(H) := err_bind H as ?.

Lemma check_image_size_not_ValueError (d : dataset_record) (image : ndarray3 Z)
    (e : error) :
  check_image_size d image = Err e -> is_ValueError e = false.
Proof.
  unfold check_image_size. intros H. err_bind H.
  - destruct (contains d "width" || contains d "height"); [|discriminate H].
    err_bind H. err_bind H.
    destruct (value_is _ _ && value_is _ _); [discriminate H|].
    injection H as <-. reflexivity.
  - discriminate H.
Qed.

Lemma load_image_not_ValueError (self : config) (lib : library)
    (d : dataset_record) (e : error) :
  load_image self lib d = Err e -> is_ValueError e = false.
Proof.
  unfold load_image. intros H. err_bind H.
  { unfold assert_is_train in H. destruct (is_train self); [discriminate H|].
    injection H as <-. reflexivity. }
  err_bind H. err_bind H. err_bind H.
  { exact (check_image_size_not_ValueError _ _ _ H). }
  err_bind H as [sem d2].
  { unfold load_sem_seg in H. destruct (contains _ _); [|discriminate H].
    err_bind H. err_bind H. discriminate H. }
  err_bind H as [[image' aug] tfm]. discriminate H.
Qed.

Lemma load_pan_seg_not_ValueError (lib : library) (d : dataset_record)
    (tfm : transform lib) (e : error) :
  load_pan_seg lib d tfm = Err e -> is_ValueError e = false.
Proof.
  unfold load_pan_seg. intros H.
  err_bind H. err_bind H. err_bind H. err_bind H. discriminate H.
Qed.

Lemma pan_targets_Err (shape : nat * nat) (lm : ndarray Z)
    (segs : list segment_info) (e : error) :
  pan_targets shape lm segs = Err e ->
  (exists key, e = KeyError key) \/ (exists msg, e = TypeError msg) \/
  (exists what, e = Undetermined what).
Proof.
  unfold pan_targets. intros H.
  apply bind_Err in H as [H | ([cs ms] & _ & H)].
  - left. apply collect_Err_each in H as (s & _ & H).
    exact (pan_segment_Err _ _ _ H).
  - right. apply bind_Err in H as [H | (values & _ & H)]; [|discriminate H].
    exact (int64_tensor_Err _ _ H).
Qed.

Lemma ins_segment_Err (lm : ndarray Z) (s : segment_info) (e : error) :
  ins_segment lm s = Err e -> exists key, e = KeyError key.
Proof.
  unfold ins_segment. intros H.
  apply bind_Err in H as [H | (c & _ & H)];
    [apply getitem_Err in H as [-> _]; eauto|].
  apply bind_Err in H as [H | (v & _ & H)].
  { destruct (negb (contains s "iscrowd")); [discriminate H|].
    apply bind_Err in H as [H | (i & _ & H)];
      [apply getitem_Err in H as [-> _]; eauto | discriminate H]. }
  destruct v; [|discriminate H].
  apply bind_Err in H as [H | (t & _ & H)];
    [apply getitem_Err in H as [-> _]; eauto|].
  destruct (truthy t); [|discriminate H].
  apply bind_Err in H as [H | (i & _ & H)];
    [apply getitem_Err in H as [-> _]; eauto | discriminate H].
Qed.

Lemma ins_targets_Err (shape : nat * nat) (lm : ndarray Z)
    (segs : list segment_info) (e : error) :
  ins_targets shape lm segs = Err e ->
  (exists key, e = KeyError key) \/ e = NameError "Boxes" \/
  (exists msg, e = TypeError msg) \/ (exists what, e = Undetermined what).
Proof.
  unfold ins_targets. intros H.
  apply bind_Err in H as [H | ([cs ms] & _ & H)].
  - left. apply collect_Err_each in H as (s & _ & H).
    exact (ins_segment_Err _ _ _ H).
  - right. apply bind_Err in H as [H | (values & _ & H)].
    + right. exact (int64_tensor_Err _ _ H).
    + left. destruct ms; [|discriminate H].
      vm_compute in H. congruence.
Qed.

(** The only [ValueError] of a call is the one of line 108, and it takes
    a record with "annotations". *)
Lemma call_ValueError (self : config) (lib : library) (d : dataset_record)
    (e : error) :
  d !! "annotations" = None ->
  call self lib d = Err e -> is_ValueError e = false.
Proof.
  intros Hann H. unfold call in H.
  apply bind_Err in H as [H | ([[[d1 image] sem] tfm] & Hload & H)];
    [exact (load_image_not_ValueError _ _ _ _ H)|].
  destruct (load_image_Ok _ _ _ _ _ _ _ Hload) as (_ & _ & _ & Hframe).
  destruct (contains d1 "pan_seg_file_name"); [|discriminate H].
  unfold panoptic_branch in H.
  apply bind_Err in H as [H | ([[pan table] d2] & Hpan & H)];
    [exact (load_pan_seg_not_ValueError _ _ _ _ H)|].
  apply load_pan_seg_Ok in Hpan as (-> & _ & _ & Hnp).
  rewrite Hnp in H. simpl in H.
  apply bind_Err in H as [H | (sem_t & Hsem & H)].
  { destruct sem; [|discriminate H]. discriminate H. }
  assert (Hc : contains (delete "pan_seg_file_name" d1) "annotations" = false).
  { apply contains_false. rewrite lookup_delete_ne by congruence.
    rewrite Hframe by congruence. exact Hann. }
  rewrite Hc in H. simpl in H.
  apply bind_Err in H as [H | (segs & _ & H)].
  { destruct table; simpl in H; try discriminate H;
      injection H as <-; reflexivity. }
  apply bind_Err in H as [H | (pan_b & _ & H)].
  { apply pan_targets_Err in H as [[key ->] | [[msg ->] | [what ->]]];
      reflexivity. }
  apply bind_Err in H as [H | (ins_b & _ & H)].
  { apply ins_targets_Err in H
      as [[key ->] | [-> | [[msg ->] | [what ->]]]]; reflexivity. }
  destruct sem_t as [sem_t|]; [|discriminate H].
  rewrite semantic_branch_raises in H. injection H as <-. reflexivity.
Qed.

(** ** Running a call forward *)

(** A record whose label map decodes got through lines 67 to 104. *)
Lemma decoded_label_map_Ok (self : config) (lib : library)
    (d : dataset_record) (lm : ndarray Z) :
  decoded_label_map self lib d = Ok lm ->
  exists (d1 : dataset_record) (image : ndarray3 Z) (sem : option (ndarray Z))
         (tfm : transform lib) (table : value),
    load_image self lib d = Ok (d1, image, sem, tfm) /\
    load_pan_seg lib d1 tfm =
      Ok (NdArray lm, table, delete "pan_seg_file_name" d1) /\
    d !! "segments_info" = Some table /\
    d1 !! "annotations" = d !! "annotations" /\
    contains d1 "pan_seg_file_name" = true.
Proof.
  unfold decoded_label_map. intros H.
  ok_bind H as loaded Hload. destruct loaded as [[[d1 image] sem] tfm].
  ok_bind H as pan_loaded Hpan. destruct pan_loaded as [[pan table] d2].
  ret_simpl. injection H as <-.
  destruct (load_image_Ok _ _ _ _ _ _ _ Hload) as (_ & _ & _ & Hframe).
  destruct (load_pan_seg_Ok _ _ _ _ _ _ Hpan) as (-> & Hfile & Htable & Hnp).
  exists d1, image, sem, tfm, table.
  split; [exact Hload|]. split; [rewrite Hpan, <- Hnp; reflexivity|].
  split; [rewrite <- Hframe by congruence; exact Htable|].
  split; [apply Hframe; congruence|].
  apply contains_true. exact Hfile.
Qed.

(** Past line 104, a record with "annotations" is refused at line 108. *)
Lemma call_with_annotations (self : config) (lib : library)
    (d : dataset_record) (lm : ndarray Z) :
  decoded_label_map self lib d = Ok lm ->
  is_Some (d !! "annotations") ->
  call self lib d =
  Err (ValueError "Pemantic segmentation dataset should not have 'annotations'.").
Proof.
  intros Hlm Hann.
  apply decoded_label_map_Ok in Hlm
    as (d1 & image & sem & tfm & table & Hload & Hpan & _ & Hframe & Hc).
  unfold call. rewrite Hload. simpl. rewrite Hc.
  unfold panoptic_branch. rewrite Hpan. simpl.
  assert (Ha : contains (delete "pan_seg_file_name" d1) "annotations" = true).
  { apply contains_true. rewrite lookup_delete_ne by congruence.
    rewrite Hframe. exact Hann. }
  rewrite Ha. destruct sem; reflexivity.
Qed.

(** Past line 108, a table the panoptic builder refuses ends the call
    with the builder's error. *)
Lemma call_pan_targets_Err (self : config) (lib : library)
    (d : dataset_record) (lm : ndarray Z) (segs : list segment_info)
    (e : error) :
  decoded_label_map self lib d = Ok lm ->
  d !! "annotations" = None ->
  d !! "segments_info" = Some (VSegments segs) ->
  (forall shape, pan_targets shape lm segs = Err e) ->
  call self lib d = Err e.
Proof.
  intros Hlm Hann Hsegs Hpan_err.
  apply decoded_label_map_Ok in Hlm
    as (d1 & image & sem & tfm & table & Hload & Hpan & Htable & Hframe & Hc).
  assert (table = VSegments segs) as -> by congruence.
  unfold call. rewrite Hload. simpl. rewrite Hc.
  unfold panoptic_branch. rewrite Hpan. simpl.
  assert (Ha : contains (delete "pan_seg_file_name" d1) "annotations" = false).
  { apply contains_false. rewrite lookup_delete_ne by congruence.
    rewrite Hframe. exact Hann. }
  rewrite Ha. destruct sem; simpl; rewrite Hpan_err; reflexivity.
Qed.

(** The same for the instance builder, once the panoptic one returned. *)
Lemma call_ins_targets_Err (self : config) (lib : library)
    (d : dataset_record) (lm : ndarray Z) (segs : list segment_info)
    (e : error) :
  decoded_label_map self lib d = Ok lm ->
  d !! "annotations" = None ->
  d !! "segments_info" = Some (VSegments segs) ->
  (forall shape, exists pan, pan_targets shape lm segs = Ok pan) ->
  (forall shape, ins_targets shape lm segs = Err e) ->
  call self lib d = Err e.
Proof.
  intros Hlm Hann Hsegs Hpan_ok Hins_err.
  apply decoded_label_map_Ok in Hlm
    as (d1 & image & sem & tfm & table & Hload & Hpan & Htable & Hframe & Hc).
  assert (table = VSegments segs) as -> by congruence.
  unfold call. rewrite Hload. simpl. rewrite Hc.
  unfold panoptic_branch. rewrite Hpan. simpl.
  assert (Ha : contains (delete "pan_seg_file_name" d1) "annotations" = false).
  { apply contains_false. rewrite lookup_delete_ne by congruence.
    rewrite Hframe. exact Hann. }
  rewrite Ha.
  destruct (Hpan_ok (dim1 image, dim2 image)) as [pan Hp].
  destruct sem; simpl; rewrite Hp; simpl; rewrite Hins_err; reflexivity.
Qed.

(** ** The empty instance bundle *)

(** Whenever the table is complete and keeps no segment for the instance
    bundle, a call that got past line 108 stops at line 152: [Boxes] is
    not bound in the module. *)
Lemma call_no_instance_NameError (self : config) (lib : library)
    (d : dataset_record) (lm : ndarray Z) (segs : list segment_info) :
  decoded_label_map self lib d = Ok lm ->
  d !! "annotations" = None ->
  d !! "segments_info" = Some (VSegments segs) ->
  Forall complete_segment segs ->
  List.filter ins_keeps segs = [] ->
  call self lib d = Err (NameError "Boxes").
Proof.
  intros Hlm Hann Hsegs Hall Hnone. rewrite Forall_forall in Hall.
  apply (call_ins_targets_Err self lib d lm segs); try assumption.
  - intros shape. apply pan_targets_complete. exact Hall.
  - intros shape. apply (ins_targets_empty shape lm segs).
    rewrite (collect_filter _ ins_keeps (entry_of lm) segs).
    + rewrite Hnone. reflexivity.
    + intros s Hin. apply ins_segment_complete, Hall, Hin.
Qed.

(** C5.  On a record whose only segment is a crowd, so that nothing
    qualifies for the instance bundle, the call does not return the
    empty bundle with masks [(0, H, W)] and boxes [(0, 4)]: the panoptic
    builder returns, and line 152 raises [NameError] on [Boxes], a name
    the module does not import. *)
Theorem empty_instance_bundle_raises :
  List.filter ins_keeps [Demo.segment 3 300 1 true] = [] /\
  is_ok (pan_targets (3%nat, 3%nat) Demo.label_map [Demo.segment 3 300 1 true])
    = true /\
  ins_targets (3%nat, 3%nat) Demo.label_map [Demo.segment 3 300 1 true]
    = Err (NameError "Boxes") /\
  call Demo.self Demo.lib Demo.record_all_crowd = Err (NameError "Boxes").
Proof. repeat split; vm_compute; reflexivity. Qed.

(** ** Records with box annotations *)

(** C6.  A record with a panoptic label and an "annotations" field makes
    the call raise; once the images are loaded the error is the
    [ValueError] of line 108, raised before any bundle is built.  On a
    record without "annotations" a call never ends with a [ValueError]. *)
Theorem annotations_fail_fast (self : config) (lib : library) :
  (forall d : dataset_record,
     is_Some (d !! "pan_seg_file_name") -> is_Some (d !! "annotations") ->
     raises (call self lib d)) /\
  (forall (d : dataset_record) (lm : ndarray Z),
     decoded_label_map self lib d = Ok lm -> is_Some (d !! "annotations") ->
     call self lib d =
     Err (ValueError
            "Pemantic segmentation dataset should not have 'annotations'.")) /\
  (forall (d : dataset_record) (e : error),
     d !! "annotations" = None -> call self lib d = Err e ->
     is_ValueError e = false).
Proof.
  split; [|split].
  - intros d Hpan Hann. destruct (call self lib d) as [out|e] eqn:H.
    + destruct (call_Ok_pan _ _ _ _ H Hpan)
        as (d1 & image & tfm & lm & segs & pan & ins & _ & _ & _ & Hnone & _).
      rewrite Hnone in Hann. destruct Hann as [x Hx]. discriminate Hx.
    + exists e. reflexivity.
  - intros d lm. apply call_with_annotations.
  - intros d e. apply call_ValueError.
Qed.

Lemma annotations_fail_fast_witness :
  raises (call Demo.self Demo.lib Demo.record_with_annotations) /\
  call Demo.self Demo.lib Demo.record_with_annotations =
    Err (ValueError
           "Pemantic segmentation dataset should not have 'annotations'.") /\
  is_ValueError (NameError "Boxes") = false.
Proof.
  destruct (annotations_fail_fast Demo.self Demo.lib) as (HA & HB & HC).
  split; [|split].
  - apply (HA Demo.record_with_annotations); vm_compute; eauto.
  - apply (HB Demo.record_with_annotations Demo.label_map).
    + vm_compute. reflexivity.
    + vm_compute. eauto.
  - apply (HC Demo.record_all_crowd (NameError "Boxes")).
    + vm_compute. reflexivity.
    + vm_compute. reflexivity.
Defined.

(** ** Path fields of the output *)

(** C9, the claim as stated fails: the call on the demo record returns,
    "file_name" was loaded, and the output still has it. *)
Lemma loaded_paths_removed_counterexample :
  ~ (forall (d out : dataset_record) (key : string),
       call Demo.self Demo.lib d = Ok out ->
       key ∈ ["file_name"; "sem_seg_file_name"; "pan_seg_file_name"] ->
       is_Some (d !! key) ->
       out !! key = None).
Proof.
  intros Hclaim.
  assert (H : Demo.output !! "file_name" = None).
  { apply (Hclaim Demo.record Demo.output "file_name").
    - vm_compute. reflexivity.
    - apply list_elem_of_here.
    - vm_compute. eauto. }
  vm_compute in H. discriminate H.
Qed.

(** C9, amended.  Every call that returns has removed
    "sem_seg_file_name" and "pan_seg_file_name" from the record and has
    kept "file_name" as it was; when the record had a panoptic label the
    output carries the two bundles built from it. *)
Theorem popped_paths_removed (self : config) (lib : library)
    (d out : dataset_record) :
  call self lib d = Ok out ->
  out !! "sem_seg_file_name" = None /\
  out !! "pan_seg_file_name" = None /\
  out !! "file_name" = d !! "file_name" /\
  is_Some (out !! "file_name") /\
  (is_Some (d !! "pan_seg_file_name") ->
   exists pan ins : Instances,
     out !! "pan_instances" = Some (VInstances pan) /\
     out !! "ins_instances" = Some (VInstances ins)).
Proof.
  intros H.
  assert (Hfile : is_Some (d !! "file_name")).
  { unfold call in H. ok_bind H as loaded Hload.
    unfold load_image in Hload. ok_bind Hload as u Hassert.
    ok_bind Hload as file Hget. apply getitem_Ok in Hget. eauto. }
  destruct (d !! "pan_seg_file_name") as [path|] eqn:Hpan.
  - destruct (call_Ok_pan _ _ _ _ H (ltac:(eauto) : is_Some (d !! "pan_seg_file_name")))
      as (d1 & image & tfm & lm & segs & pan & ins
          & Hload & _ & _ & _ & _ & _ & ->).
    destruct (load_image_Ok _ _ _ _ _ _ _ Hload) as (_ & Hsem & _ & Hframe).
    split; [|split; [|split; [|split]]].
    + rewrite !lookup_insert_ne, lookup_delete_ne by congruence. exact Hsem.
    + rewrite !lookup_insert_ne by congruence. apply lookup_delete_eq.
    + rewrite !lookup_insert_ne, lookup_delete_ne by congruence.
      apply Hframe; congruence.
    + rewrite !lookup_insert_ne, lookup_delete_ne by congruence.
      rewrite Hframe by congruence. exact Hfile.
    + intros _. exists pan, ins. split.
      * rewrite lookup_insert_ne by congruence. apply lookup_insert_eq.
      * apply lookup_insert_eq.
  - destruct (call_Ok_no_pan _ _ _ _ H Hpan) as (image & sem & tfm & Hload).
    destruct (load_image_Ok _ _ _ _ _ _ _ Hload) as (_ & Hsem & _ & Hframe).
    split; [exact Hsem|].
    split; [rewrite Hframe by congruence; exact Hpan|].
    split; [apply Hframe; congruence|].
    split; [rewrite Hframe by congruence; exact Hfile|].
    intros [x Hx]. discriminate Hx.
Qed.

Lemma popped_paths_removed_witness :
  Demo.output !! "sem_seg_file_name" = None /\
  Demo.output !! "pan_seg_file_name" = None /\
  Demo.output !! "file_name" = Demo.record !! "file_name" /\
  is_Some (Demo.output !! "file_name") /\
  (is_Some (Demo.record !! "pan_seg_file_name") ->
   exists pan ins : Instances,
     Demo.output !! "pan_instances" = Some (VInstances pan) /\
     Demo.output !! "ins_instances" = Some (VInstances ins)).
Proof.
  apply (popped_paths_removed Demo.self Demo.lib Demo.record Demo.output).
  vm_compute. reflexivity.
Defined.

(** ** The loops, entry by entry *)

Lemma forallb_pointwise {A : Type} (f g : A -> bool) (l : list A) :
  (forall x, f x = g x) -> forallb f l = forallb g l.
Proof.
  intros Hfg. induction l as [|x t IH]; simpl; [reflexivity|].
  rewrite Hfg, IH. reflexivity.
Qed.

Lemma collect_is_ok (body : segment_info -> result (option (pyval * mask)))
    (segs : list segment_info) :
  forall cs ms,
    is_ok (collect body segs cs ms) = forallb (fun s => is_ok (body s)) segs.
Proof.
  induction segs as [|s rest IH]; intros cs ms; simpl; [reflexivity|].
  destruct (body s) as [[[c m]|]|e]; simpl; [apply IH | apply IH | reflexivity].
Qed.

Lemma pan_segment_is_ok (lm : ndarray Z) (s : segment_info) :
  is_ok (pan_segment lm s) = pan_accepts s.
Proof.
  unfold pan_segment, pan_accepts, getitem, contains, is_crowd.
  destruct (s !! "category_id"); simpl; [|reflexivity].
  destruct (s !! "iscrowd") as [v|]; simpl; [|reflexivity].
  destruct (truthy v); simpl; [reflexivity|].
  destruct (s !! "id"); reflexivity.
Qed.

Lemma ins_segment_is_ok (lm : ndarray Z) (s : segment_info) :
  is_ok (ins_segment lm s) = ins_accepts s.
Proof.
  unfold ins_segment, ins_accepts, getitem, contains, is_crowd, is_thing.
  destruct (s !! "category_id"); simpl; [|reflexivity].
  destruct (s !! "iscrowd") as [v|]; simpl.
  - rewrite eq_False_truthy. destruct (truthy v); simpl; [reflexivity|].
    destruct (s !! "isthing") as [t|]; simpl; [|reflexivity].
    destruct (truthy t); simpl; [|reflexivity].
    destruct (s !! "id"); reflexivity.
  - destruct (s !! "isthing") as [t|]; simpl; [|reflexivity].
    destruct (truthy t); simpl; [|reflexivity].
    destruct (s !! "id"); reflexivity.
Qed.

(** The instance body keeps the non-crowd things, an absent "iscrowd"
    counting as non-crowd. *)
Lemma ins_segment_Ok_any (lm : ndarray Z) (s : segment_info)
    (k : option (pyval * mask)) :
  ins_segment lm s = Ok k ->
  k = if ins_keeps s then Some (entry_of lm s) else None.
Proof.
  destruct (s !! "iscrowd") as [v|] eqn:Hv.
  - apply ins_segment_Ok. eauto.
  - unfold ins_segment, getitem, contains, ins_keeps, is_crowd, is_thing,
      entry_of, segment_mask, segment_id.
    rewrite Hv. ret_simpl.
    destruct (s !! "category_id") as [c|]; simpl; [|discriminate].
    destruct (s !! "isthing") as [t|]; simpl; [|discriminate].
    destruct (truthy t); simpl; [|congruence].
    destruct (s !! "id") as [i|]; simpl; [congruence | discriminate].
Qed.

(** What an instance loop that returns has collected, on any table. *)
Lemma collect_ins_Ok_any (lm : ndarray Z) (segs : list segment_info)
    (r : list pyval * list mask) :
  collect (ins_segment lm) segs [] [] = Ok r ->
  map as_int (fst r) = map category_id (List.filter ins_keeps segs) /\
  snd r = map (segment_mask lm) (List.filter ins_keeps segs).
Proof.
  intros H.
  assert (Hbody : forall s, s ∈ segs ->
     ins_segment lm s = Ok (if ins_keeps s then Some (entry_of lm s) else None)).
  { intros s Hin. destruct (collect_Ok_each _ _ _ _ _ H s Hin) as [k Hk].
    rewrite Hk. f_equal. apply (ins_segment_Ok_any _ _ _ Hk). }
  rewrite (collect_filter _ ins_keeps (entry_of lm) segs Hbody) in H.
  injection H as <-. simpl. split; [|reflexivity].
  rewrite map_map. apply map_ext. intros s. exact (entry_of_class lm s).
Qed.

(** The instance bundle on any table the builder accepts. *)
Lemma ins_targets_Ok_any (shape : nat * nat) (lm : ndarray Z)
    (segs : list segment_info) (ins : Instances) :
  ins_targets shape lm segs = Ok ins ->
  List.filter ins_keeps segs <> [] /\
  image_size ins = shape /\
  gt_classes ins = map category_id (List.filter ins_keeps segs) /\
  planes (gt_masks ins) = map (segment_mask lm) (List.filter ins_keeps segs) /\
  shape3 (gt_masks ins) =
    (length (List.filter ins_keeps segs), height lm, width lm) /\
  gt_boxes ins = Some (map bounding_box (planes (gt_masks ins))).
Proof.
  unfold ins_targets. intros H. ok_bind H as r Hcol. destruct r as [cs ms].
  apply collect_ins_Ok_any in Hcol as (Hcs & Hms). simpl in Hcs, Hms.
  ok_bind H as values Hvalues. apply int64_tensor_Ok in Hvalues as [-> _].
  destruct (planes_stack (height lm) (width lm) ms) as [Hp Hs].
  { rewrite Hms. apply segment_mask_shape. }
  destruct ms as [|m ms'].
  - discriminate H.
  - ret_simpl. injection H as <-.
    cbn [gt_classes gt_masks gt_boxes image_size].
    split; [intros Hnil; rewrite Hnil in Hms; discriminate Hms|].
    split; [reflexivity|]. split; [exact Hcs|].
    split; [rewrite Hp; exact Hms|].
    split; [|reflexivity].
    rewrite Hs. change (S (length ms')) with (length (m :: ms')).
    rewrite Hms, length_map. reflexivity.
Qed.

Lemma planes_lookup {A : Type} (t : ndarray3 A) (i : nat) :
  planes t !! i = plane_at t i.
Proof. unfold planes, plane_at. apply list_lookup_fmap. Qed.

(** An accepted entry goes through the body of either loop. *)
Lemma pan_segment_accepted (lm : ndarray Z) (s : segment_info) :
  pan_accepts s = true ->
  pan_segment lm s = Ok (if pan_keeps s then Some (entry_of lm s) else None).
Proof.
  intros Hacc. rewrite <- (pan_segment_is_ok lm s) in Hacc.
  destruct (pan_segment lm s) as [k|e] eqn:Hk; [|discriminate Hacc].
  f_equal. apply (pan_segment_Ok lm s k Hk).
Qed.

Lemma ins_segment_accepted (lm : ndarray Z) (s : segment_info) :
  ins_accepts s = true ->
  ins_segment lm s = Ok (if ins_keeps s then Some (entry_of lm s) else None).
Proof.
  intros Hacc. rewrite <- (ins_segment_is_ok lm s) in Hacc.
  destruct (ins_segment lm s) as [k|e] eqn:Hk; [|discriminate Hacc].
  f_equal. exact (ins_segment_Ok_any lm s k Hk).
Qed.

(** On a table of accepted entries a loop collects the kept ones. *)
Lemma collect_pan_accepted (lm : ndarray Z) (segs : list segment_info) :
  forallb pan_accepts segs = true ->
  collect (pan_segment lm) segs [] [] =
  Ok (map (fun s => fst (entry_of lm s)) (List.filter pan_keeps segs),
      map (fun s => snd (entry_of lm s)) (List.filter pan_keeps segs)).
Proof.
  intros Hacc. apply (collect_filter _ pan_keeps (entry_of lm) segs).
  intros s Hin. apply pan_segment_accepted.
  rewrite forallb_forall in Hacc. apply Hacc, list_elem_of_In, Hin.
Qed.

Lemma collect_ins_accepted (lm : ndarray Z) (segs : list segment_info) :
  forallb ins_accepts segs = true ->
  collect (ins_segment lm) segs [] [] =
  Ok (map (fun s => fst (entry_of lm s)) (List.filter ins_keeps segs),
      map (fun s => snd (entry_of lm s)) (List.filter ins_keeps segs)).
Proof.
  intros Hacc. apply (collect_filter _ ins_keeps (entry_of lm) segs).
  intros s Hin. apply ins_segment_accepted.
  rewrite forallb_forall in Hacc. apply Hacc, list_elem_of_In, Hin.
Qed.

(** A refused entry makes a loop raise a [KeyError]. *)
Lemma collect_pan_refused (lm : ndarray Z) (segs : list segment_info) :
  forallb pan_accepts segs = false ->
  exists key, key ∈ ["category_id"; "iscrowd"; "id"] /\
              collect (pan_segment lm) segs [] [] = Err (KeyError key).
Proof.
  intros Hno.
  assert (Hok : is_ok (collect (pan_segment lm) segs [] []) = false).
  { rewrite collect_is_ok.
    rewrite (forallb_pointwise _ pan_accepts)
      by (intros s; apply pan_segment_is_ok).
    exact Hno. }
  destruct (collect (pan_segment lm) segs [] []) as [r|e] eqn:Hc;
    [discriminate Hok|].
  apply collect_Err_each in Hc as (s & _ & Hs).
  unfold pan_segment, getitem in Hs.
  destruct (s !! "category_id"); simpl in Hs;
    [|injection Hs as <-; eexists; split; [|reflexivity]; set_solver].
  destruct (s !! "iscrowd") as [v|]; simpl in Hs;
    [|injection Hs as <-; eexists; split; [|reflexivity]; set_solver].
  destruct (truthy v); simpl in Hs; [discriminate Hs|].
  destruct (s !! "id"); simpl in Hs; [discriminate Hs|].
  injection Hs as <-. eexists. split; [|reflexivity]. set_solver.
Qed.

Lemma collect_ins_refused (lm : ndarray Z) (segs : list segment_info) :
  forallb ins_accepts segs = false ->
  exists key, collect (ins_segment lm) segs [] [] = Err (KeyError key).
Proof.
  intros Hno.
  assert (Hok : is_ok (collect (ins_segment lm) segs [] []) = false).
  { rewrite collect_is_ok.
    rewrite (forallb_pointwise _ ins_accepts)
      by (intros s; apply ins_segment_is_ok).
    exact Hno. }
  destruct (collect (ins_segment lm) segs [] []) as [r|e] eqn:Hc;
    [discriminate Hok|].
  apply collect_Err_each in Hc as (s & _ & Hs).
  apply ins_segment_Err in Hs as [key ->]. eauto.
Qed.

(** The class ids a loop has collected, as integers. *)
Lemma kept_class_ids (lm : ndarray Z) (kept : list segment_info) :
  map as_int (map (fun s => fst (entry_of lm s)) kept) = map category_id kept.
Proof.
  rewrite map_map. apply map_ext. intros s. exact (entry_of_class lm s).
Qed.

(** The conversion cannot return when an id fits no 64-bit type, or
    when there are ids and all of them lie from 2^63 up. *)
Lemma int64_tensor_TypeError (classes : list pyval) :
  existsb beyond_64_bits (map as_int classes) = true \/
  (map as_int classes <> [] /\
   forallb above_int64 (map as_int classes) = true) ->
  exists msg, int64_tensor classes = Err (TypeError msg).
Proof.
  unfold int64_tensor. intros H.
  destruct (forallb in_int64 (map as_int classes)) eqn:Hfit.
  - exfalso. rewrite forallb_forall in Hfit. destruct H as [H | [Hne H]].
    + apply existsb_exists in H as (z & Hz & Hb). specialize (Hfit z Hz).
      unfold in_int64 in Hfit. unfold beyond_64_bits in Hb. lia.
    + destruct (map as_int classes) as [|z zs]; [congruence|].
      specialize (Hfit z (or_introl eq_refl)).
      simpl in H. apply andb_prop in H as [H _].
      unfold in_int64 in Hfit. unfold above_int64 in H. lia.
  - destruct (existsb beyond_64_bits (map as_int classes)); [eauto|].
    destruct H as [H | [_ H]]; [discriminate H|].
    rewrite H. eauto.
Qed.

(** On a table of accepted entries whose kept class ids fit int64 and
    which keeps a segment, the instance builder returns. *)
Lemma ins_targets_accepted (shape : nat * nat) (lm : ndarray Z)
    (segs : list segment_info) :
  forallb ins_accepts segs = true ->
  forallb in_int64 (map category_id (List.filter ins_keeps segs)) = true ->
  List.filter ins_keeps segs <> [] ->
  exists ins, ins_targets shape lm segs = Ok ins.
Proof.
  intros Hacc Hfit Hkept. unfold ins_targets.
  rewrite (collect_ins_accepted lm segs Hacc).
  rewrite <- (kept_class_ids lm) in Hfit.
  unfold mbind, result_bind, bind. rewrite (int64_tensor_fits _ Hfit).
  simpl. destruct (List.filter ins_keeps segs); [congruence|].
  simpl. eauto.
Qed.

(** The panoptic builder under the same conditions, kept or not. *)
Lemma pan_targets_accepted (shape : nat * nat) (lm : ndarray Z)
    (segs : list segment_info) :
  forallb pan_accepts segs = true ->
  forallb in_int64 (map category_id (List.filter pan_keeps segs)) = true ->
  exists pan, pan_targets shape lm segs = Ok pan.
Proof.
  intros Hacc Hfit. unfold pan_targets.
  rewrite (collect_pan_accepted lm segs Hacc).
  rewrite <- (kept_class_ids lm) in Hfit.
  unfold mbind, result_bind, bind. rewrite (int64_tensor_fits _ Hfit).
  simpl. eauto.
Qed.

(** A kept segment of the table is in the instance bundle, at the index
    it has among the kept ones. *)
Lemma ins_targets_includes (shape : nat * nat) (lm : ndarray Z)
    (segs : list segment_info) (ins : Instances) (s : segment_info) :
  ins_targets shape lm segs = Ok ins ->
  s ∈ segs -> ins_keeps s = true ->
  exists k : nat,
    gt_classes ins !! k = Some (category_id s) /\
    plane_at (gt_masks ins) k = Some (segment_mask lm s) /\
    gt_boxes ins ≫= (fun bs => bs !! k)
      = Some (bounding_box (segment_mask lm s)).
Proof.
  intros H Hin Hkeep.
  apply ins_targets_Ok_any in H as (_ & _ & Hc & Hp & _ & Hb).
  assert (Hf : s ∈ List.filter ins_keeps segs).
  { apply list_elem_of_In, filter_In. split; [apply list_elem_of_In, Hin | exact Hkeep]. }
  apply list_elem_of_lookup in Hf as [k Hk].
  exists k.
  split; [rewrite Hc, list_lookup_fmap, Hk; reflexivity|].
  split; [rewrite <- planes_lookup, Hp, list_lookup_fmap, Hk; reflexivity|].
  rewrite Hb. simpl. rewrite Hp, !list_lookup_fmap, Hk. reflexivity.
Qed.

(** ** Entries without "iscrowd" *)

(** C10.  For an entry of the segment table without the "iscrowd" key
    whose "isthing" flag is true: the instance loop takes it for a
    non-crowd and keeps it, so every instance bundle built from a table
    that holds it lists its class, its mask and the box of that mask,
    and the instance builder does return such a bundle on every table of
    accepted entries with class ids in int64; the panoptic loop raises a
    [KeyError] on the entry, and so does the panoptic builder on any
    table that holds it; hence a call on a record with a panoptic label
    and such a table never returns, and past line 108 it ends with that
    [KeyError], before "pan_instances" is attached. *)
Theorem missing_iscrowd_key (self : config) (lib : library) (s : segment_info) :
  s !! "iscrowd" = None ->
  (forall (lm : ndarray Z) (c t i : pyval),
     s !! "category_id" = Some c -> s !! "isthing" = Some t ->
     truthy t = true -> s !! "id" = Some i ->
     ins_segment lm s = Ok (Some (c, eq_scalar lm (as_int i)))) /\
  (forall (shape : nat * nat) (lm : ndarray Z) (segs : list segment_info)
          (ins : Instances) (c t i : pyval),
     s !! "category_id" = Some c -> s !! "isthing" = Some t ->
     truthy t = true -> s !! "id" = Some i ->
     s ∈ segs -> ins_targets shape lm segs = Ok ins ->
     exists k : nat,
       gt_classes ins !! k = Some (as_int c) /\
       plane_at (gt_masks ins) k = Some (eq_scalar lm (as_int i)) /\
       gt_boxes ins ≫= (fun bs => bs !! k)
         = Some (bounding_box (eq_scalar lm (as_int i)))) /\
  (forall (shape : nat * nat) (lm : ndarray Z) (segs : list segment_info)
          (t : pyval),
     s !! "isthing" = Some t -> truthy t = true -> s ∈ segs ->
     forallb ins_accepts segs = true ->
     forallb in_int64 (map category_id (List.filter ins_keeps segs)) = true ->
     exists ins, ins_targets shape lm segs = Ok ins) /\
  (forall lm : ndarray Z, exists key, pan_segment lm s = Err (KeyError key)) /\
  (forall (shape : nat * nat) (lm : ndarray Z) (segs : list segment_info),
     s ∈ segs -> exists key, pan_targets shape lm segs = Err (KeyError key)) /\
  (forall (d : dataset_record) (segs : list segment_info),
     is_Some (d !! "pan_seg_file_name") ->
     d !! "segments_info" = Some (VSegments segs) -> s ∈ segs ->
     raises (call self lib d)) /\
  (forall (d : dataset_record) (lm : ndarray Z) (segs : list segment_info),
     decoded_label_map self lib d = Ok lm ->
     d !! "annotations" = None ->
     d !! "segments_info" = Some (VSegments segs) -> s ∈ segs ->
     exists key, call self lib d = Err (KeyError key)).
Proof.
  intros Hnone.
  assert (Hkeeps : forall t, s !! "isthing" = Some t -> truthy t = true ->
                             ins_keeps s = true).
  { intros t Ht Htrue. unfold ins_keeps, is_crowd, is_thing.
    rewrite Hnone, Ht. simpl. exact Htrue. }
  assert (Hbody : forall lm, exists key, pan_segment lm s = Err (KeyError key)).
  { intros lm. rewrite (pan_segment_no_iscrowd lm s Hnone). eauto. }
  assert (Hloop : forall lm segs, s ∈ segs ->
            exists key, collect (pan_segment lm) segs [] [] = Err (KeyError key)).
  { intros lm segs Hin. destruct (Hbody lm) as [key Hkey].
    destruct (collect (pan_segment lm) segs [] []) as [r|e] eqn:Hc.
    - destruct (collect_Ok_each _ _ _ _ _ Hc s Hin) as [k Hk]. congruence.
    - apply collect_Err_each in Hc as (s' & _ & Hs').
      apply pan_segment_Err in Hs' as [key' ->]. eauto. }
  assert (Hbuilder : forall shape lm segs, s ∈ segs ->
            exists key, pan_targets shape lm segs = Err (KeyError key)).
  { intros shape lm segs Hin. destruct (Hloop lm segs Hin) as [key Hkey].
    exists key. unfold pan_targets. rewrite Hkey. reflexivity. }
  split; [|split; [|split; [|split; [exact Hbody|split; [exact Hbuilder|split]]]]].
  - intros lm c t i Hc Ht Htrue Hi.
    unfold ins_segment, getitem, contains.
    rewrite Hc, Hnone, Ht. simpl. rewrite Htrue, Hi. reflexivity.
  - intros shape lm segs ins c t i Hc Ht Htrue Hi Hin Hins.
    destruct (ins_targets_includes shape lm segs ins s Hins Hin
                (Hkeeps t Ht Htrue)) as (k & Hk1 & Hk2 & Hk3).
    exists k. unfold category_id in Hk1. unfold segment_mask, segment_id in Hk2, Hk3.
    rewrite Hc in Hk1. rewrite Hi in Hk2, Hk3.
    repeat split; assumption.
  - intros shape lm segs t Ht Htrue Hin Hacc Hfit.
    apply ins_targets_accepted; try assumption.
    intros Hnil.
    assert (Hf : In s (List.filter ins_keeps segs)).
    { apply filter_In. split; [apply list_elem_of_In, Hin | exact (Hkeeps t Ht Htrue)]. }
    rewrite Hnil in Hf. destruct Hf.
  - intros d segs Hpan Hsegs Hin.
    destruct (call self lib d) as [out|e] eqn:H; [|exists e; reflexivity].
    destruct (call_Ok_pan _ _ _ _ H Hpan)
      as (d1 & image & tfm & lm & segs' & pan & ins
          & _ & _ & Hsegs' & _ & Hp & _).
    assert (segs' = segs) as -> by congruence.
    destruct (Hbuilder (dim1 image, dim2 image) lm segs Hin) as [key Hkey].
    congruence.
  - intros d lm segs Hlm Hann Hsegs Hin.
    destruct (Hloop lm segs Hin) as [key Hkey].
    exists key. apply (call_pan_targets_Err self lib d lm segs); try assumption.
    intros shape. unfold pan_targets. rewrite Hkey. reflexivity.
Qed.

Lemma missing_iscrowd_key_witness :
  ins_segment Demo.label_map Demo.segment_no_iscrowd =
    Ok (Some (PyInt 100, eq_scalar Demo.label_map 1)) /\
  (exists (ins : Instances) (k : nat),
     ins_targets (3%nat, 3%nat) Demo.label_map
       [Demo.segment 2 200 0 false; Demo.segment_no_iscrowd] = Ok ins /\
     gt_classes ins !! k = Some 100 /\
     plane_at (gt_masks ins) k = Some (eq_scalar Demo.label_map 1) /\
     gt_boxes ins ≫= (fun bs => bs !! k)
       = Some (bounding_box (eq_scalar Demo.label_map 1))) /\
  (exists key, pan_segment Demo.label_map Demo.segment_no_iscrowd =
                 Err (KeyError key)) /\
  raises (call Demo.self Demo.lib Demo.record_no_iscrowd) /\
  (exists key, call Demo.self Demo.lib Demo.record_no_iscrowd =
                 Err (KeyError key)).
Proof.
  destruct (missing_iscrowd_key Demo.self Demo.lib Demo.segment_no_iscrowd)
    as (HA & HB & HC & HD & _ & HF & HG).
  - vm_compute. reflexivity.
  - split; [|split; [|split; [|split]]].
    + apply (HA Demo.label_map (PyInt 100) (PyBool true) (PyInt 1));
        vm_compute; reflexivity.
    + destruct (HC (3%nat, 3%nat) Demo.label_map
                  [Demo.segment 2 200 0 false; Demo.segment_no_iscrowd]
                  (PyBool true)) as [ins Hins].
      * vm_compute. reflexivity.
      * reflexivity.
      * apply list_elem_of_further, list_elem_of_here.
      * vm_compute. reflexivity.
      * vm_compute. reflexivity.
      * destruct (HB (3%nat, 3%nat) Demo.label_map
                    [Demo.segment 2 200 0 false; Demo.segment_no_iscrowd]
                    ins (PyInt 100) (PyBool true) (PyInt 1))
          as (k & Hk); try (vm_compute; reflexivity).
        -- apply list_elem_of_further, list_elem_of_here.
        -- exact Hins.
        -- exists ins, k. split; [exact Hins | exact Hk].
    + apply HD.
    + apply (HF Demo.record_no_iscrowd [Demo.segment_no_iscrowd]).
      * vm_compute. eauto.
      * vm_compute. reflexivity.
      * apply list_elem_of_here.
    + apply (HG Demo.record_no_iscrowd Demo.label_map
               [Demo.segment_no_iscrowd]).
      * vm_compute. reflexivity.
      * vm_compute. reflexivity.
      * vm_compute. reflexivity.
      * apply list_elem_of_here.
Defined.

Example demo_no_iscrowd :
  call Demo.self Demo.lib Demo.record_no_iscrowd = Err (KeyError "iscrowd").
Proof. vm_compute. reflexivity. Qed.

Example demo_with_sem :
  call Demo.self Demo.lib Demo.record_with_sem =
  Err (TypeError "transpose() received an invalid combination of arguments").
Proof. vm_compute. reflexivity. Qed.

(** ** The semantic bundle *)

Lemma insert_unique_In (x y : Z) (l : list Z) :
  In y (insert_unique x l) <-> y = x \/ In y l.
Proof.
  induction l as [|z t IH]; simpl.
  - intuition congruence.
  - destruct (x <? z) eqn:Hlt; [simpl; intuition congruence|].
    destruct (x =? z) eqn:Heq.
    + apply Z.eqb_eq in Heq. subst z. simpl. intuition congruence.
    + simpl. rewrite IH. intuition congruence.
Qed.

Lemma insert_unique_sorted (x : Z) (l : list Z) :
  StronglySorted Z.lt l -> StronglySorted Z.lt (insert_unique x l).
Proof.
  induction 1 as [|z t Hsorted IH Hall]; simpl.
  - repeat constructor.
  - destruct (x <? z) eqn:Hlt.
    + apply Z.ltb_lt in Hlt. constructor.
      * constructor; assumption.
      * constructor; [exact Hlt|].
        eapply Forall_impl; [exact Hall|]. intros w Hw. simpl in Hw. lia.
    + destruct (x =? z) eqn:Heq.
      * constructor; assumption.
      * apply Z.ltb_ge in Hlt. apply Z.eqb_neq in Heq.
        constructor; [exact IH|].
        apply Forall_forall. intros w Hw.
        apply list_elem_of_In, insert_unique_In in Hw as [->|Hw]; [lia|].
        rewrite Forall_forall in Hall. apply Hall, list_elem_of_In, Hw.
Qed.

(** [np.unique] returns a strictly ascending list... *)
Lemma np_unique_sorted (a : ndarray Z) : StronglySorted Z.lt (np_unique a).
Proof.
  unfold np_unique. induction (flatten a) as [|x l IH]; simpl.
  - constructor.
  - apply insert_unique_sorted, IH.
Qed.

(** ... of exactly the values of the array. *)
Lemma np_unique_In (a : ndarray Z) (c : Z) :
  In c (np_unique a) <-> In c (flatten a).
Proof.
  unfold np_unique. induction (flatten a) as [|x l IH]; simpl.
  - reflexivity.
  - rewrite insert_unique_In, IH. intuition congruence.
Qed.

Lemma filter_sorted (f : Z -> bool) (l : list Z) :
  StronglySorted Z.lt l -> StronglySorted Z.lt (List.filter f l).
Proof.
  induction 1 as [|z t Hsorted IH Hall]; simpl; [constructor|].
  destruct (f z); [|exact IH].
  constructor; [exact IH|].
  apply Forall_forall. intros w Hw.
  apply list_elem_of_In, filter_In in Hw as [Hw _].
  rewrite Forall_forall in Hall. apply Hall, list_elem_of_In, Hw.
Qed.

Lemma sorted_lt_NoDup (l : list Z) : StronglySorted Z.lt l -> NoDup l.
Proof.
  induction 1 as [|z t Hsorted IH Hall]; constructor; [|exact IH].
  intros Hin. rewrite Forall_forall in Hall. specialize (Hall z Hin). lia.
Qed.

Lemma eq_scalar_shape (a : ndarray Z) (cs : list Z) :
  Forall (fun m : mask => height m = height a /\ width m = width a)
         (map (eq_scalar a) cs).
Proof.
  apply Forall_map. apply Forall_forall. intros c _. split; reflexivity.
Qed.

(** The semantic bundle, field by field. *)
Lemma sem_targets_fields (ignore : Z) (shape : nat * nat) (sem : ndarray Z) :
  let b := sem_targets ignore shape sem in
  gt_classes b = List.filter (fun c => negb (c =? ignore)) (np_unique sem) /\
  planes (gt_masks b) = map (eq_scalar sem) (gt_classes b) /\
  shape3 (gt_masks b) = (length (gt_classes b), height sem, width sem) /\
  image_size b = shape /\ gt_boxes b = None.
Proof.
  unfold sem_targets. cbn [gt_classes gt_masks gt_boxes image_size].
  set (cs := List.filter _ _).
  destruct (planes_stack (height sem) (width sem) (map (eq_scalar sem) cs))
    as [Hp Hs]; [apply eq_scalar_shape|].
  rewrite length_map in Hs. repeat split; assumption.
Qed.

(** The classes of the semantic bundle have no repetition, and its
    masks are the label array compared with each of them. *)
Lemma sem_bundle_NoDup (ignore : Z) (shape : nat * nat)
    (sem : ndarray Z) :
  NoDup (gt_classes (sem_targets ignore shape sem)) /\
  planes (gt_masks (sem_targets ignore shape sem)) =
    map (eq_scalar sem) (gt_classes (sem_targets ignore shape sem)).
Proof.
  destruct (sem_targets_fields ignore shape sem) as (Hc & Hp & _).
  split; [|exact Hp].
  rewrite Hc. apply sorted_lt_NoDup, filter_sorted, np_unique_sorted.
Qed.

(** C3.  Whatever label array the semantic builder of lines 186 to 212
    is run on, the classes of its bundle are strictly ascending, they are
    exactly the values of the array other than [ignore_label], and the
    mask at each index is the array compared with the class at that
    index; [ignore_label] is never a class. *)
Theorem sem_classes_sorted_distinct (ignore : Z) (shape : nat * nat)
    (sem_seg_gt : ndarray Z) :
  let b := sem_targets ignore shape sem_seg_gt in
  StronglySorted Z.lt (gt_classes b) /\
  NoDup (gt_classes b) /\
  (forall c : Z, c ∈ gt_classes b <-> c ∈ flatten sem_seg_gt /\ c <> ignore) /\
  planes (gt_masks b) = map (eq_scalar sem_seg_gt) (gt_classes b) /\
  (forall (i : nat) (c : Z),
     gt_classes b !! i = Some c ->
     plane_at (gt_masks b) i = Some (eq_scalar sem_seg_gt c)) /\
  ignore ∉ gt_classes b.
Proof.
  intros b.
  destruct (sem_targets_fields ignore shape sem_seg_gt) as (Hc & Hp & _).
  fold b in Hc, Hp.
  assert (Hsorted : StronglySorted Z.lt (gt_classes b)).
  { rewrite Hc. apply filter_sorted, np_unique_sorted. }
  assert (Hmem : forall c, c ∈ gt_classes b <->
                           c ∈ flatten sem_seg_gt /\ c <> ignore).
  { intros c. rewrite Hc, !list_elem_of_In, filter_In, np_unique_In.
    rewrite negb_true_iff, Z.eqb_neq. reflexivity. }
  split; [exact Hsorted|]. split; [apply sorted_lt_NoDup, Hsorted|].
  split; [exact Hmem|]. split; [exact Hp|]. split.
  - intros i c Hi. rewrite <- planes_lookup, Hp, list_lookup_fmap, Hi.
    reflexivity.
  - intros Hin. apply Hmem in Hin as [_ Hne]. congruence.
Qed.

Example demo_sem_targets :
  gt_classes (sem_targets 255 (2%nat, 3%nat) Demo.sem_image) = [5; 7].
Proof. reflexivity. Qed.

(** ** Disjoint masks *)

(** Masks of pairwise distinct values are pairwise disjoint. *)
Lemma eq_scalar_masks_disjoint (a : ndarray Z) (vals : list Z) :
  NoDup vals -> pairwise_disjoint (map (eq_scalar a) vals).
Proof.
  intros Hnd i j m1 m2 r c Hne H1 H2 P1 P2.
  rewrite list_lookup_fmap in H1, H2.
  destruct (vals !! i) as [v|] eqn:Hv; [|discriminate H1].
  destruct (vals !! j) as [w|] eqn:Hw; [|discriminate H2].
  simpl in H1, H2. injection H1 as <-. injection H2 as <-.
  apply (eq_scalar_disjoint a v w r c); try assumption.
  intros ->. apply Hne. eapply NoDup_lookup; eassumption.
Qed.

(** Distinct ids stay distinct among the segments a bundle keeps. *)
Lemma NoDup_kept_ids (keep : segment_info -> bool) (segs : list segment_info) :
  NoDup (map segment_id segs) ->
  NoDup (map segment_id (List.filter keep segs)).
Proof.
  induction segs as [|s rest IH]; simpl; intros Hnd; [constructor|].
  apply NoDup_cons in Hnd as [Hnotin Hrest].
  destruct (keep s); simpl; [|exact (IH Hrest)].
  apply NoDup_cons. split; [|exact (IH Hrest)].
  intros Hin. apply Hnotin.
  apply list_elem_of_In, in_map_iff in Hin as (s' & Hid & Hs').
  apply filter_In in Hs' as [Hs' _].
  apply list_elem_of_In, in_map_iff. exists s'. split; assumption.
Qed.

Lemma segment_masks_disjoint (keep : segment_info -> bool) (lm : ndarray Z)
    (segs : list segment_info) :
  NoDup (map segment_id segs) ->
  pairwise_disjoint (map (segment_mask lm) (List.filter keep segs)).
Proof.
  intros Hnd.
  replace (map (segment_mask lm) (List.filter keep segs))
    with (map (eq_scalar lm) (map segment_id (List.filter keep segs)))
    by (rewrite map_map; reflexivity).
  apply eq_scalar_masks_disjoint, NoDup_kept_ids, Hnd.
Qed.

(** C7.  With segment ids unique in the table, the masks of the panoptic
    bundle and those of the instance bundle are pairwise disjoint, for
    each builder and in the output of every call that returns; the masks
    of the semantic bundle are pairwise disjoint for every label array. *)
Theorem masks_pairwise_disjoint (self : config) (lib : library) :
  (forall (shape : nat * nat) (lm : ndarray Z) (segs : list segment_info)
          (pan : Instances),
     NoDup (map segment_id segs) ->
     pan_targets shape lm segs = Ok pan ->
     pairwise_disjoint (planes (gt_masks pan))) /\
  (forall (shape : nat * nat) (lm : ndarray Z) (segs : list segment_info)
          (ins : Instances),
     NoDup (map segment_id segs) ->
     Forall (fun s : segment_info => is_Some (s !! "iscrowd")) segs ->
     ins_targets shape lm segs = Ok ins ->
     pairwise_disjoint (planes (gt_masks ins))) /\
  (forall (d out : dataset_record) (segs : list segment_info),
     call self lib d = Ok out ->
     is_Some (d !! "pan_seg_file_name") ->
     d !! "segments_info" = Some (VSegments segs) ->
     NoDup (map segment_id segs) ->
     exists pan ins : Instances,
       out !! "pan_instances" = Some (VInstances pan) /\
       out !! "ins_instances" = Some (VInstances ins) /\
       pairwise_disjoint (planes (gt_masks pan)) /\
       pairwise_disjoint (planes (gt_masks ins))) /\
  (forall (ignore : Z) (shape : nat * nat) (sem_seg_gt : ndarray Z),
     pairwise_disjoint (planes (gt_masks (sem_targets ignore shape sem_seg_gt)))).
Proof.
  assert (Hpan : forall shape lm segs pan,
            NoDup (map segment_id segs) ->
            pan_targets shape lm segs = Ok pan ->
            pairwise_disjoint (planes (gt_masks pan))).
  { intros shape lm segs pan Hnd H.
    apply pan_targets_Ok in H as (_ & _ & -> & _).
    apply segment_masks_disjoint, Hnd. }
  assert (Hins : forall shape lm segs ins,
            NoDup (map segment_id segs) ->
            Forall (fun s : segment_info => is_Some (s !! "iscrowd")) segs ->
            ins_targets shape lm segs = Ok ins ->
            pairwise_disjoint (planes (gt_masks ins))).
  { intros shape lm segs ins Hnd Hcrowd H. rewrite Forall_forall in Hcrowd.
    apply ins_targets_Ok in H as (_ & _ & -> & _); [|exact Hcrowd].
    apply segment_masks_disjoint, Hnd. }
  split; [exact Hpan|]. split; [exact Hins|]. split.
  - intros d out segs Hcall Hfile Hsegs Hnd.
    destruct (call_Ok_pan _ _ _ _ Hcall Hfile)
      as (d1 & image & tfm & lm & segs' & pan & ins
          & _ & _ & Hsegs' & _ & Hp & Hi & ->).
    assert (segs' = segs) as -> by congruence.
    exists pan, ins.
    split; [rewrite lookup_insert_ne by congruence; apply lookup_insert_eq|].
    split; [apply lookup_insert_eq|].
    split; [exact (Hpan _ _ _ _ Hnd Hp)|].
    apply (Hins (dim1 image, dim2 image) lm segs ins Hnd); [|exact Hi].
    apply Forall_forall. intros s Hin.
    apply pan_targets_Ok in Hp as (Hkeys & _). apply (Hkeys s Hin).
  - intros ignore shape sem.
    destruct (sem_bundle_NoDup ignore shape sem) as [Hnd ->].
    apply eq_scalar_masks_disjoint, Hnd.
Qed.

Lemma masks_pairwise_disjoint_witness :
  pairwise_disjoint (planes (gt_masks Demo.pan_bundle)) /\
  pairwise_disjoint (planes (gt_masks Demo.ins_bundle)) /\
  (exists pan ins : Instances,
     Demo.output !! "pan_instances" = Some (VInstances pan) /\
     Demo.output !! "ins_instances" = Some (VInstances ins) /\
     pairwise_disjoint (planes (gt_masks pan)) /\
     pairwise_disjoint (planes (gt_masks ins))).
Proof.
  assert (Hnd : NoDup (map segment_id Demo.segments)).
  { apply (bool_decide_unpack _). vm_compute. exact I. }
  destruct (masks_pairwise_disjoint Demo.self Demo.lib) as (HA & HB & HC & _).
  split; [|split].
  - apply (HA (3%nat, 3%nat) Demo.label_map Demo.segments Demo.pan_bundle Hnd).
    vm_compute. reflexivity.
  - apply (HB (3%nat, 3%nat) Demo.label_map Demo.segments Demo.ins_bundle Hnd).
    + repeat constructor; vm_compute; eauto.
    + vm_compute. reflexivity.
  - apply (HC Demo.record Demo.output Demo.segments).
    + vm_compute. reflexivity.
    + vm_compute. eauto.
    + vm_compute. reflexivity.
    + exact Hnd.
Defined.

(** ** Padding *)

(** Padding at the end of one axis: the list gets the requested length;
    what stays of the old entries stays in place, what is new is [fill]. *)
Lemma pad_axis_trailing {A : Type} (fill : A) (after : Z) (l : list A) :
  0 <= Z.of_nat (length l) + after ->
  let n := Z.to_nat (Z.of_nat (length l) + after) in
  length (pad_axis fill 0 after l) = n /\
  forall i : nat, (i < n)%nat ->
    pad_axis fill 0 after l !! i =
    if (i <? length l)%nat then l !! i else Some fill.
Proof.
  intros Hn n. unfold pad_axis. simpl.
  destruct (0 <=? after) eqn:Hsign.
  - apply Z.leb_le in Hsign. split.
    + rewrite length_app, length_replicate. lia.
    + intros i Hi. destruct (i <? length l)%nat eqn:Hlt.
      * apply Nat.ltb_lt in Hlt. apply lookup_app_l. exact Hlt.
      * apply Nat.ltb_ge in Hlt. rewrite lookup_app_r by exact Hlt.
        apply lookup_replicate_2. lia.
  - apply Z.leb_gt in Hsign. split.
    + rewrite length_take. lia.
    + intros i Hi.
      assert (Hlt : (i <? length l)%nat = true) by (apply Nat.ltb_lt; lia).
      rewrite Hlt. apply lookup_take_lt. lia.
Qed.

(** Padding one plane to [D x D] from the right and the bottom. *)
Lemma pad_plane_trailing {A : Type} (fill : A) (D : Z) (h w : nat)
    (p : list (list A)) :
  0 < D ->
  length p = h -> Forall (fun row => length row = w) p ->
  let q := pad_plane fill 0 (D - Z.of_nat w) 0 (D - Z.of_nat h) w p in
  length q = Z.to_nat D /\
  Forall (fun row => length row = Z.to_nat D) q /\
  forall r c : nat, (r < Z.to_nat D)%nat -> (c < Z.to_nat D)%nat ->
    pixel (mk_ndarray (Z.to_nat D) (Z.to_nat D) q) r c =
    if (r <? h)%nat && (c <? w)%nat
    then pixel (mk_ndarray h w p) r c
    else Some fill.
Proof.
  intros HD Hh Hw. unfold pad_plane.
  replace (Z.to_nat (Z.of_nat w + 0 + (D - Z.of_nat w))) with (Z.to_nat D)
    by lia.
  set (p' := map (pad_axis fill 0 (D - Z.of_nat w)) p).
  set (q := pad_axis (replicate (Z.to_nat D) fill) 0 (D - Z.of_nat h) p').
  cbv zeta.
  assert (Hrow : forall row, length row = w ->
            length (pad_axis fill 0 (D - Z.of_nat w) row) = Z.to_nat D /\
            forall c, (c < Z.to_nat D)%nat ->
              pad_axis fill 0 (D - Z.of_nat w) row !! c =
              if (c <? w)%nat then row !! c else Some fill).
  { intros row Hlen.
    destruct (pad_axis_trailing fill (D - Z.of_nat w) row) as [Hl Hi];
      [lia|].
    rewrite Hlen in Hl, Hi.
    replace (Z.to_nat (Z.of_nat w + (D - Z.of_nat w))) with (Z.to_nat D)
      in Hl, Hi by lia.
    split; assumption. }
  assert (Hp' : length p' = h) by (unfold p'; rewrite length_map; exact Hh).
  assert (Hall' : Forall (fun row => length row = Z.to_nat D) p').
  { unfold p'. apply Forall_map. eapply Forall_impl; [exact Hw|].
    intros row Hlen. simpl. apply (Hrow row Hlen). }
  destruct (pad_axis_trailing (replicate (Z.to_nat D) fill)
              (D - Z.of_nat h) p') as [Hl Hi]; [lia|].
  rewrite Hp' in Hl, Hi.
  replace (Z.to_nat (Z.of_nat h + (D - Z.of_nat h))) with (Z.to_nat D)
    in Hl, Hi by lia.
  fold q in Hl, Hi.
  split; [exact Hl|]. split.
  - apply Forall_forall. intros row Hin.
    apply list_elem_of_lookup in Hin as [r Hr].
    assert (Hlt : (r < Z.to_nat D)%nat).
    { rewrite <- Hl. eapply lookup_lt_Some. exact Hr. }
    rewrite (Hi r Hlt) in Hr. destruct (r <? h)%nat.
    + rewrite Forall_forall in Hall'. apply Hall'.
      apply list_elem_of_lookup. eauto.
    + injection Hr as <-. apply length_replicate.
  - intros r c Hr Hc. unfold pixel. simpl. rewrite (Hi r Hr).
    destruct (r <? h)%nat eqn:Hrh; simpl.
    + unfold p'. rewrite list_lookup_fmap.
      destruct (p !! r) as [row|] eqn:Hrow_r; simpl.
      * assert (Hlen : length row = w).
        { rewrite Forall_forall in Hw. apply Hw.
          apply list_elem_of_lookup. eauto. }
        destruct (Hrow row Hlen) as [_ Hcol]. rewrite (Hcol c Hc).
        destruct (c <? w)%nat eqn:Hcw; [reflexivity|].
        reflexivity.
      * apply Nat.ltb_lt in Hrh. apply lookup_ge_None in Hrow_r. lia.
    + apply lookup_replicate_2. exact Hc.
Qed.

Lemma padded_dim_to (D : Z) (n : nat) :
  0 < D -> padded_dim n 0 (D - Z.of_nat n) = Ok (Z.to_nat D).
Proof.
  intros HD. unfold padded_dim.
  replace (Z.of_nat n + 0 + (D - Z.of_nat n)) with D by lia.
  destruct (D <? 0) eqn:Hneg; [apply Z.ltb_lt in Hneg; lia | reflexivity].
Qed.

(** With [size_divisibility] off, nothing is padded. *)
Lemma pad_stage_off (self : config) (image : ndarray3 Z) (sem : ndarray Z) :
  size_divisibility self <= 0 -> pad_stage self image sem = Ok (image, sem).
Proof.
  intros Hoff. unfold pad_stage.
  destruct (size_divisibility self >? 0) eqn:Hon; [|reflexivity].
  apply Z.gtb_lt in Hon. lia.
Qed.

(** What lines 167 to 179 compute.  When [size_divisibility] is a
    positive [D], [F.pad] gets [D] minus the current size as the amount
    on the right and at the bottom, and a negative amount removes
    trailing rows or columns: image and label come out with height and
    width [D]; every entry at a position the old array had keeps its
    value, and every other entry is the fill value, 128 for the image
    and [ignore_label] for the label. *)
Theorem pad_stage_to_divisor (self : config) (image : ndarray3 Z)
    (sem : ndarray Z) :
  0 < size_divisibility self ->
  wf_ndarray3 image -> wf_ndarray sem ->
  height sem = dim1 image -> width sem = dim2 image ->
  let D := Z.to_nat (size_divisibility self) in
  exists (image' : ndarray3 Z) (sem' : ndarray Z),
    pad_stage self image sem = Ok (image', sem') /\
    shape3 image' = (dim0 image, D, D) /\
    (height sem', width sem') = (D, D) /\
    wf_ndarray3 image' /\ wf_ndarray sem' /\
    (forall r c : nat, (r < D)%nat -> (c < D)%nat ->
       pixel sem' r c =
       if (r <? height sem)%nat && (c <? width sem)%nat
       then pixel sem r c else Some (ignore_label self)) /\
    (forall k r c : nat, (k < dim0 image)%nat -> (r < D)%nat -> (c < D)%nat ->
       voxel image' k r c =
       if (r <? dim1 image)%nat && (c <? dim2 image)%nat
       then voxel image k r c else Some 128).
Proof.
  intros HD [Hlen3 Hplanes] [Hlen Hrows] Hh Hw D.
  unfold pad_stage.
  assert (Hon : (size_divisibility self >? 0) = true) by (apply Z.gtb_lt; lia).
  rewrite Hon. cbn [fst snd]. unfold F_pad3, F_pad.
  rewrite <- Hw, <- Hh.
  rewrite !(padded_dim_to _ _ HD). cbn [mbind result_bind bind mret result_ret].
  fold D.
  destruct (pad_plane_trailing (ignore_label self) (size_divisibility self)
              (height sem) (width sem) (rows sem) HD Hlen Hrows)
    as (Hq & Hqrows & Hqpix).
  fold D in Hq, Hqrows, Hqpix.
  eexists. eexists. split; [reflexivity|].
  split; [reflexivity|]. split; [reflexivity|].
  assert (Hplane : forall p, p ∈ data image ->
            length p = height sem /\ Forall (fun r => length r = width sem) p).
  { intros p Hin. rewrite Forall_forall in Hplanes. rewrite Hh, Hw.
    apply Hplanes, Hin. }
  split; [|split; [|split]].
  - split; cbn [data dim0 dim1 dim2].
    + rewrite length_map. exact Hlen3.
    + apply Forall_map. apply Forall_forall. intros p Hin. simpl.
      destruct (Hplane p Hin) as [Hpl Hpr].
      destruct (pad_plane_trailing 128 (size_divisibility self)
                  (height sem) (width sem) p HD Hpl Hpr) as (Hl & Hr & _).
      split; assumption.
  - split; cbn [rows height width]; assumption.
  - exact Hqpix.
  - intros k r c Hk Hr Hc. unfold voxel, plane_at. cbn [data dim1 dim2].
    rewrite list_lookup_fmap.
    destruct (data image !! k) as [p|] eqn:Hp; cbn [fmap option_fmap option_map].
    + assert (Hin : p ∈ data image) by (apply list_elem_of_lookup; eauto).
      destruct (Hplane p Hin) as [Hpl Hpr].
      destruct (pad_plane_trailing 128 (size_divisibility self)
                  (height sem) (width sem) p HD Hpl Hpr) as (_ & _ & Hpix).
      fold D in Hpix. rewrite (Hpix r c Hr Hc). reflexivity.
    + apply lookup_ge_None in Hp. lia.
Qed.

Lemma pad_stage_to_divisor_witness :
  exists (image' : ndarray3 Z) (sem' : ndarray Z),
    pad_stage Demo.self Demo.image_20_40 Demo.label_20_40 = Ok (image', sem') /\
    shape3 image' = (3%nat, 32%nat, 32%nat) /\
    (height sem', width sem') = (32%nat, 32%nat) /\
    wf_ndarray3 image' /\ wf_ndarray sem' /\
    (forall r c : nat, (r < 32)%nat -> (c < 32)%nat ->
       pixel sem' r c =
       if (r <? 20)%nat && (c <? 40)%nat
       then pixel Demo.label_20_40 r c else Some 255) /\
    (forall k r c : nat, (k < 3)%nat -> (r < 32)%nat -> (c < 32)%nat ->
       voxel image' k r c =
       if (r <? 20)%nat && (c <? 40)%nat
       then voxel Demo.image_20_40 k r c else Some 128).
Proof.
  apply (pad_stage_to_divisor Demo.self Demo.image_20_40 Demo.label_20_40).
  - vm_compute. reflexivity.
  - apply (bool_decide_unpack _). vm_compute. exact I.
  - apply (bool_decide_unpack _). vm_compute. exact I.
  - reflexivity.
  - reflexivity.
Defined.

(** C4.  The code does not pad by [max(0, divisor - dimension)].  Lines
    169 to 174 hand [size_divisibility - dimension] to [F.pad] with no
    clamp at 0, so with a positive [size_divisibility] both dimensions
    come out equal to it, and a dimension larger than it is cut down
    where the stated policy leaves it unchanged: with divisor 32, a
    20 x 40 image and its label come out 32 x 32, not 32 x 40.  And no
    call gets as far as these lines: on a record with that image, a
    panoptic and a semantic label, [__call__] ends at line 165 with the
    [TypeError] of [transpose(2, 0, 1)] on a tensor. *)
Theorem padding_crops_oversize :
  (forall (self : config) (image : ndarray3 Z) (sem : ndarray Z),
     0 < size_divisibility self ->
     wf_ndarray3 image -> wf_ndarray sem ->
     height sem = dim1 image -> width sem = dim2 image ->
     exists (image' : ndarray3 Z) (sem' : ndarray Z),
       pad_stage self image sem = Ok (image', sem') /\
       Z.of_nat (dim1 image') = size_divisibility self /\
       Z.of_nat (dim2 image') = size_divisibility self /\
       Z.of_nat (height sem') = size_divisibility self /\
       Z.of_nat (width sem') = size_divisibility self /\
       (size_divisibility self < Z.of_nat (dim1 image) ->
        Z.of_nat (dim1 image') <
        Z.of_nat (dim1 image)
          + Z.max 0 (size_divisibility self - Z.of_nat (dim1 image))) /\
       (size_divisibility self < Z.of_nat (dim2 image) ->
        Z.of_nat (dim2 image') <
        Z.of_nat (dim2 image)
          + Z.max 0 (size_divisibility self - Z.of_nat (dim2 image)))) /\
  (exists (image' : ndarray3 Z) (sem' : ndarray Z),
     pad_stage Demo.self Demo.image_20_40 Demo.label_20_40 = Ok (image', sem') /\
     (dim1 image', dim2 image') = (32%nat, 32%nat) /\
     (height sem', width sem') = (32%nat, 32%nat) /\
     (dim1 image', dim2 image') <> (32%nat, 40%nat)) /\
  np_transpose_201 Cases.image_hwc_20_40 = Demo.image_20_40 /\
  call Demo.self Cases.lib_20_40 Cases.record_20_40 =
    Err (TypeError "transpose() received an invalid combination of arguments").
Proof.
  split; [|split; [|split]].
  - intros self image sem HD Hwf3 Hwf Hh Hw.
    destruct (pad_stage_to_divisor self image sem HD Hwf3 Hwf Hh Hw)
      as (image' & sem' & Hpad & Hshape & Hsem & _).
    exists image', sem'. split; [exact Hpad|].
    unfold shape3 in Hshape. injection Hshape as _ H1 H2.
    injection Hsem as H3 H4.
    rewrite H1, H2, H3, H4, Z2Nat.id by lia.
    repeat split; try reflexivity; lia.
  - eexists. eexists. split; [vm_compute; reflexivity|].
    cbn [dim1 dim2 height width]. repeat split; discriminate.
  - vm_compute. reflexivity.
  - vm_compute. reflexivity.
Qed.

Lemma padding_crops_oversize_witness :
  exists (image' : ndarray3 Z) (sem' : ndarray Z),
    pad_stage Demo.self Demo.image_20_40 Demo.label_20_40 = Ok (image', sem') /\
    Z.of_nat (dim1 image') = 32 /\
    Z.of_nat (dim2 image') = 32 /\
    Z.of_nat (height sem') = 32 /\
    Z.of_nat (width sem') = 32 /\
    (32 < 20 -> Z.of_nat (dim1 image') < 20 + Z.max 0 (32 - 20)) /\
    (32 < 40 -> Z.of_nat (dim2 image') < 40 + Z.max 0 (32 - 40)).
Proof.
  apply (proj1 padding_crops_oversize
           Demo.self Demo.image_20_40 Demo.label_20_40).
  - vm_compute. reflexivity.
  - apply (bool_decide_unpack _). vm_compute. exact I.
  - apply (bool_decide_unpack _). vm_compute. exact I.
  - reflexivity.
  - reflexivity.
Defined.

(** ** Bounding boxes *)

(** [where_true] lists exactly the positions that hold [true]. *)
Lemma where_true_In (v : list bool) (i : nat) :
  In i (where_true v) <-> v !! i = Some true.
Proof.
  unfold where_true. rewrite in_map_iff. split.
  - intros ([j b] & Hfst & Hin). simpl in Hfst. subst j.
    apply filter_In in Hin as [Hin Hb]. simpl in Hb. subst b.
    apply list_elem_of_In, list_elem_of_lookup in Hin as [k Hk].
    rewrite list_lookup_imap in Hk.
    destruct (v !! k) as [b|] eqn:Hvk; [|discriminate Hk].
    simpl in Hk. injection Hk as <- <-. exact Hvk.
  - intros Hi. exists (i, true). split; [reflexivity|].
    apply filter_In. split; [|reflexivity].
    apply list_elem_of_In, list_elem_of_lookup. exists i.
    rewrite list_lookup_imap, Hi. reflexivity.
Qed.

Lemma where_true_offset_sorted (v : list bool) :
  forall k : nat,
    let l := map fst (List.filter snd (imap (fun i b => ((k + i)%nat, b)) v)) in
    StronglySorted lt l /\ Forall (le k) l.
Proof.
  induction v as [|b rest IH]; intros k; simpl.
  - split; constructor.
  - rewrite (imap_ext _ (fun i b => ((S k + i)%nat, b)) rest)
      by (intros i x _; simpl; f_equal; lia).
    destruct (IH (S k)) as [Hsorted Hge]. simpl in Hsorted, Hge.
    assert (Hge' : Forall (le k)
              (map fst (List.filter snd
                 (imap (fun i b => (S (k + i), b)) rest)))).
    { eapply Forall_impl; [exact Hge|]. intros x Hx. simpl in Hx. lia. }
    destruct b; simpl.
    + split.
      * constructor; [exact Hsorted|].
        eapply Forall_impl; [exact Hge|]. intros x Hx. simpl in Hx. lia.
      * constructor; [lia | exact Hge'].
    + split; assumption.
Qed.

Lemma where_true_sorted (v : list bool) : StronglySorted lt (where_true v).
Proof. exact (proj1 (where_true_offset_sorted v 0)). Qed.

(** In a strictly ascending list the head is the least entry and the
    last entry the greatest. *)
Lemma sorted_head_least (x : nat) (l : list nat) :
  StronglySorted lt (x :: l) -> forall y, In y (x :: l) -> (x <= y)%nat.
Proof.
  intros Hs y [<-|Hin]; [lia|].
  apply StronglySorted_inv in Hs as [_ Hall].
  rewrite Forall_forall in Hall.
  specialize (Hall y (proj2 (list_elem_of_In _ _) Hin)). lia.
Qed.

Lemma sorted_last_greatest (l : list nat) (d : nat) :
  StronglySorted lt l -> forall y, In y l -> (y <= List.last l d)%nat.
Proof.
  induction 1 as [|x t Hs IH Hall]; intros y Hin; [destruct Hin|].
  destruct t as [|x' t'].
  - destruct Hin as [<-|[]]. simpl. lia.
  - change (List.last (x :: x' :: t') d) with (List.last (x' :: t') d).
    destruct Hin as [<-|Hin]; [|exact (IH y Hin)].
    rewrite Forall_forall in Hall.
    specialize (Hall x' (list_elem_of_here _ _)).
    specialize (IH x' (or_introl eq_refl)). lia.
Qed.

Lemma last_In (x : nat) (l : list nat) (d : nat) : In (List.last (x :: l) d) (x :: l).
Proof.
  revert x. induction l as [|y t IH]; intros x.
  - left. reflexivity.
  - right. exact (IH y).
Qed.

(** A column is flagged exactly when it lies within the declared width
    and some row has it set. *)
Lemma any_per_column_spec (m : mask) (c : nat) :
  any_per_column m !! c = Some true <->
  (c < width m)%nat /\ exists r, pixel m r c = Some true.
Proof.
  unfold any_per_column. rewrite list_lookup_fmap. split.
  - intros H. destruct (seq 0 (width m) !! c) as [c'|] eqn:Hc; [|discriminate H].
    apply lookup_seq in Hc as [-> Hlt]. simpl in H. injection H as H.
    apply existsb_exists in H as (row & Hin & Hnth).
    split; [exact Hlt|].
    apply list_elem_of_In, list_elem_of_lookup in Hin as [r Hr].
    exists r. unfold pixel. rewrite Hr.
    rewrite nth_lookup in Hnth. destruct (row !! c) as [b|]; simpl in Hnth;
      [congruence | discriminate Hnth].
  - intros [Hlt [r Hr]]. rewrite (lookup_seq_lt 0 _ _ Hlt). simpl. f_equal.
    unfold pixel in Hr. destruct (rows m !! r) as [row|] eqn:Hrow;
      [|discriminate Hr].
    apply existsb_exists. exists row. split.
    + apply list_elem_of_In, list_elem_of_lookup. eauto.
    + rewrite nth_lookup, Hr. reflexivity.
Qed.

(** A row is flagged exactly when some column has it set. *)
Lemma any_per_row_spec (m : mask) (r : nat) :
  any_per_row m !! r = Some true <-> exists c, pixel m r c = Some true.
Proof.
  unfold any_per_row, pixel. rewrite list_lookup_fmap.
  destruct (rows m !! r) as [row|]; simpl.
  - split.
    + intros H. injection H as H.
      apply existsb_exists in H as (b & Hin & ->).
      apply list_elem_of_In, list_elem_of_lookup in Hin. exact Hin.
    + intros [c Hc]. f_equal. apply existsb_exists. exists true.
      split; [|reflexivity].
      apply list_elem_of_In, list_elem_of_lookup. eauto.
  - split; [discriminate | intros [c Hc]; discriminate Hc].
Qed.

(** In a well-shaped mask every set pixel lies within the width. *)
Lemma pixel_within_width (m : mask) (r c : nat) (b : bool) :
  wf_ndarray m -> pixel m r c = Some b -> (c < width m)%nat.
Proof.
  intros [_ Hrows] H. unfold pixel in H.
  destruct (rows m !! r) as [row|] eqn:Hrow; [|discriminate H].
  rewrite Forall_forall in Hrows.
  rewrite <- (Hrows row) by (apply list_elem_of_lookup; eauto).
  eapply lookup_lt_Some. exact H.
Qed.

(** The box of a well-shaped mask is tight. *)
Lemma bounding_box_tight (m : mask) :
  wf_ndarray m -> tight_box m (bounding_box m).
Proof.
  intros Hwf. unfold bounding_box.
  assert (HX : forall c, In c (where_true (any_per_column m)) <->
                         exists r, pixel m r c = Some true).
  { intros c. rewrite where_true_In, any_per_column_spec. split.
    - intros [_ H]. exact H.
    - intros [r Hr]. split; [|eauto].
      exact (pixel_within_width m r c true Hwf Hr). }
  assert (HY : forall r, In r (where_true (any_per_row m)) <->
                         exists c, pixel m r c = Some true).
  { intros r. rewrite where_true_In. apply any_per_row_spec. }
  pose proof (where_true_sorted (any_per_column m)) as HsX.
  pose proof (where_true_sorted (any_per_row m)) as HsY.
  destruct (where_true (any_per_column m)) as [|x0 X'].
  { unfold tight_box. split; [|split].
    - intros r c Hp. destruct (proj2 (HX c) (ex_intro _ r Hp)).
    - intros (r & c & Hp). destruct (proj2 (HX c) (ex_intro _ r Hp)).
    - reflexivity. }
  destruct (where_true (any_per_row m)) as [|y0 Y'].
  { unfold tight_box. split; [|split].
    - intros r c Hp. destruct (proj2 (HY r) (ex_intro _ c Hp)).
    - intros (r & c & Hp). destruct (proj2 (HY r) (ex_intro _ c Hp)).
    - reflexivity. }
  unfold tight_box. split; [|split].
  - intros r c Hp.
    assert (Hc : In c (x0 :: X')) by (apply HX; eauto).
    assert (Hr : In r (y0 :: Y')) by (apply HY; eauto).
    pose proof (sorted_head_least x0 X' HsX c Hc).
    pose proof (sorted_head_least y0 Y' HsY r Hr).
    pose proof (sorted_last_greatest (x0 :: X') 0%nat HsX c Hc).
    pose proof (sorted_last_greatest (y0 :: Y') 0%nat HsY r Hr).
    lia.
  - intros _.
    replace (Z.of_nat (List.last (x0 :: X') 0%nat) + 1 - 1)
      with (Z.of_nat (List.last (x0 :: X') 0%nat)) by lia.
    replace (Z.of_nat (List.last (y0 :: Y') 0%nat) + 1 - 1)
      with (Z.of_nat (List.last (y0 :: Y') 0%nat)) by lia.
    rewrite !Nat2Z.id.
    split; [apply HX; left; reflexivity|].
    split; [apply HX, last_In|].
    split; [apply HY; left; reflexivity|].
    apply HY, last_In.
  - intros Hnone. exfalso.
    destruct (proj1 (HX x0) (or_introl eq_refl)) as [r Hr].
    exact (Hnone r x0 Hr).
Qed.

Lemma wf_eq_scalar (a : ndarray Z) (v : Z) :
  wf_ndarray a -> wf_ndarray (eq_scalar a v).
Proof. apply wf_ndmap. Qed.

(** ** The boxes of the instance bundle *)

(** C8.  In an instance bundle with a kept segment there is one box per
    mask, and the box at every index is [bounding_box] of the mask at
    that index, a function of that mask alone, which for a well-shaped
    mask is its tight box (first and last set column and row, the upper
    bounds exclusive).  This holds for the builder and for the bundle
    every returning call attaches. *)
Theorem boxes_recomputed_from_masks (self : config) (lib : library) :
  (forall (shape : nat * nat) (lm : ndarray Z) (segs : list segment_info)
          (ins : Instances),
     Forall (fun s : segment_info => is_Some (s !! "iscrowd")) segs ->
     ins_targets shape lm segs = Ok ins ->
     exists bs : list box,
       gt_boxes ins = Some bs /\
       length bs = dim0 (gt_masks ins) /\
       dim0 (gt_masks ins) <> 0%nat /\
       (forall (i : nat) (m : mask),
          plane_at (gt_masks ins) i = Some m ->
          bs !! i = Some (bounding_box m)) /\
       (wf_ndarray lm ->
        forall (i : nat) (m : mask) (b : box),
          plane_at (gt_masks ins) i = Some m -> bs !! i = Some b ->
          tight_box m b)) /\
  (forall (d out : dataset_record),
     call self lib d = Ok out ->
     is_Some (d !! "pan_seg_file_name") ->
     exists (ins : Instances) (bs : list box),
       out !! "ins_instances" = Some (VInstances ins) /\
       gt_boxes ins = Some bs /\
       length bs = dim0 (gt_masks ins) /\
       forall (i : nat) (m : mask),
         plane_at (gt_masks ins) i = Some m ->
         bs !! i = Some (bounding_box m)) /\
  (forall m : mask, wf_ndarray m -> tight_box m (bounding_box m)).
Proof.
  assert (Hbuilder : forall shape lm segs ins,
     Forall (fun s : segment_info => is_Some (s !! "iscrowd")) segs ->
     ins_targets shape lm segs = Ok ins ->
     exists bs : list box,
       gt_boxes ins = Some bs /\
       length bs = dim0 (gt_masks ins) /\
       dim0 (gt_masks ins) <> 0%nat /\
       (forall (i : nat) (m : mask),
          plane_at (gt_masks ins) i = Some m ->
          bs !! i = Some (bounding_box m)) /\
       (wf_ndarray lm ->
        forall (i : nat) (m : mask) (b : box),
          plane_at (gt_masks ins) i = Some m -> bs !! i = Some b ->
          tight_box m b)).
  { intros shape lm segs ins Hcrowd H. rewrite Forall_forall in Hcrowd.
    apply ins_targets_Ok in H as (Hkept & _ & Hplanes & Hshape & Hboxes);
      [|exact Hcrowd].
    exists (map bounding_box (planes (gt_masks ins))).
    assert (Hlook : forall i m, plane_at (gt_masks ins) i = Some m ->
              map bounding_box (planes (gt_masks ins)) !! i =
              Some (bounding_box m)).
    { intros i m Hm. rewrite list_lookup_fmap, planes_lookup, Hm. reflexivity. }
    injection Hshape as Hd0 _ _.
    split; [exact Hboxes|]. split.
    { rewrite length_map, Hplanes, length_map. symmetry. exact Hd0. }
    split.
    { rewrite Hd0. destruct (List.filter ins_keeps segs);
        [congruence | discriminate]. }
    split; [exact Hlook|].
    intros Hwf i m b Hm Hb. rewrite (Hlook i m Hm) in Hb. injection Hb as <-.
    apply bounding_box_tight.
    rewrite <- planes_lookup, Hplanes, list_lookup_fmap in Hm.
    destruct (List.filter ins_keeps segs !! i) as [s|]; [|discriminate Hm].
    simpl in Hm. injection Hm as <-. apply wf_eq_scalar, Hwf. }
  split; [exact Hbuilder|]. split; [|exact bounding_box_tight].
  intros d out Hcall Hfile.
  destruct (call_Ok_pan _ _ _ _ Hcall Hfile)
    as (d1 & image & tfm & lm & segs & pan & ins
        & _ & _ & _ & _ & Hp & Hi & ->).
  assert (Hcrowd : Forall (fun s : segment_info => is_Some (s !! "iscrowd")) segs).
  { apply Forall_forall. intros s Hin.
    apply pan_targets_Ok in Hp as (Hkeys & _). apply (Hkeys s Hin). }
  destruct (Hbuilder _ _ _ _ Hcrowd Hi) as (bs & Hbs & Hlen & _ & Hlook & _).
  exists ins, bs. split; [apply lookup_insert_eq|].
  repeat split; assumption.
Qed.

Lemma boxes_recomputed_from_masks_witness :
  (exists bs : list box,
     gt_boxes Demo.ins_bundle = Some bs /\
     length bs = 1%nat /\
     forall (i : nat) (m : mask),
       plane_at (gt_masks Demo.ins_bundle) i = Some m ->
       bs !! i = Some (bounding_box m)) /\
  (exists (ins : Instances) (bs : list box),
     Demo.output !! "ins_instances" = Some (VInstances ins) /\
     gt_boxes ins = Some bs /\
     length bs = dim0 (gt_masks ins) /\
     forall (i : nat) (m : mask),
       plane_at (gt_masks ins) i = Some m ->
       bs !! i = Some (bounding_box m)) /\
  tight_box (eq_scalar Demo.label_map 2) (1, 0, 3, 2).
Proof.
  destruct (boxes_recomputed_from_masks Demo.self Demo.lib) as (HA & HB & HC).
  split; [|split].
  - destruct (HA (3%nat, 3%nat) Demo.label_map Demo.segments Demo.ins_bundle)
      as (bs & Hbs & Hlen & _ & Hlook & _).
    + repeat constructor; vm_compute; eauto.
    + vm_compute. reflexivity.
    + exists bs. repeat split; assumption.
  - apply (HB Demo.record Demo.output).
    + vm_compute. reflexivity.
    + vm_compute. eauto.
  - apply (HC (eq_scalar Demo.label_map 2)).
    apply (bool_decide_unpack _). vm_compute. exact I.
Defined.

(** ** The semantic branch inside a call *)

(** With a semantic label the panoptic branch always raises: it enters
    lines 164 to 214 holding torch tensors. *)
Lemma panoptic_branch_sem_raises (self : config) (lib : library)
    (d : dataset_record) (image : ndarray3 Z) (sem : ndarray Z)
    (tfm : transform lib) (shape : nat * nat) :
  raises (panoptic_branch self lib d image (Some sem) tfm shape).
Proof.
  destruct (panoptic_branch self lib d image (Some sem) tfm shape)
    as [out|e] eqn:H.
  - apply panoptic_branch_Ok in H as (lm & segs & pan & ins & _ & _ & Hsem & _).
    discriminate Hsem.
  - exists e. reflexivity.
Qed.

(** So a call that returns has written none of "image", "sem_seg" and
    "sem_instances". *)
Lemma call_writes_no_semantic_field (self : config) (lib : library)
    (d out : dataset_record) (key : string) :
  call self lib d = Ok out ->
  key ∈ ["image"; "sem_seg"; "sem_instances"] ->
  out !! key = d !! key.
Proof.
  intros H Hkey.
  assert (Hne : key <> "width" /\ key <> "height" /\
                key <> "sem_seg_file_name" /\ key <> "pan_seg_file_name" /\
                key <> "pan_instances" /\ key <> "ins_instances").
  { repeat (apply elem_of_cons in Hkey as [->|Hkey]);
      [repeat split; discriminate ..|].
    apply elem_of_nil in Hkey. destruct Hkey. }
  destruct Hne as (N1 & N2 & N3 & N4 & N5 & N6).
  destruct (d !! "pan_seg_file_name") as [path|] eqn:Hpan.
  - destruct (call_Ok_pan _ _ _ _ H (ltac:(eauto) : is_Some (d !! "pan_seg_file_name")))
      as (d1 & image & tfm & lm & segs & pan & ins
          & Hload & _ & _ & _ & _ & _ & ->).
    destruct (load_image_Ok _ _ _ _ _ _ _ Hload) as (_ & _ & _ & Hframe).
    rewrite !lookup_insert_ne, lookup_delete_ne by congruence.
    apply Hframe; assumption.
  - destruct (call_Ok_no_pan _ _ _ _ H Hpan) as (image & sem & tfm & Hload).
    destruct (load_image_Ok _ _ _ _ _ _ _ Hload) as (_ & _ & _ & Hframe).
    apply Hframe; assumption.
Qed.

(** * Further properties of the code *)

(** ** When the loops return *)

(** X1.  The outcomes of the panoptic builder.  A table with an entry
    that lacks "category_id" or "iscrowd" or, not being a crowd, "id"
    raises a [KeyError] on one of these keys; a crowd entry needs
    neither "id" nor "isthing".  On a table without such an entry the
    builder returns when the class ids of the non-crowd entries fit
    int64, with these ids and the masks of these entries in table order;
    it raises a [TypeError] (lines 121 to 122) when one of these ids
    fits no 64-bit type or when there are such ids and all lie from 2^63
    up.  It returns on no table with a refused entry. *)
Theorem pan_targets_outcomes (shape : nat * nat) (lm : ndarray Z)
    (segs : list segment_info) :
  (forallb pan_accepts segs = false ->
   exists key, key ∈ ["category_id"; "iscrowd"; "id"] /\
               pan_targets shape lm segs = Err (KeyError key)) /\
  (forallb pan_accepts segs = true ->
   forallb in_int64 (map category_id (List.filter pan_keeps segs)) = true ->
   exists pan,
     pan_targets shape lm segs = Ok pan /\
     gt_classes pan = map category_id (List.filter pan_keeps segs) /\
     planes (gt_masks pan) = map (segment_mask lm) (List.filter pan_keeps segs)) /\
  (forallb pan_accepts segs = true ->
   existsb beyond_64_bits (map category_id (List.filter pan_keeps segs)) = true \/
   (List.filter pan_keeps segs <> [] /\
    forallb above_int64 (map category_id (List.filter pan_keeps segs)) = true) ->
   exists msg, pan_targets shape lm segs = Err (TypeError msg)) /\
  (forall pan, pan_targets shape lm segs = Ok pan ->
   forallb pan_accepts segs = true).
Proof.
  split; [|split; [|split]].
  - intros Hno. destruct (collect_pan_refused lm segs Hno) as (key & Hkey & Hc).
    exists key. split; [exact Hkey|].
    unfold pan_targets. rewrite Hc. reflexivity.
  - intros Hacc Hfit.
    destruct (pan_targets_accepted shape lm segs Hacc Hfit) as [pan Hpan].
    exists pan. split; [exact Hpan|].
    apply pan_targets_Ok in Hpan as (_ & Hc & Hm & _). split; assumption.
  - intros Hacc Hbad.
    destruct (int64_tensor_TypeError
                (map (fun s => fst (entry_of lm s)) (List.filter pan_keeps segs)))
      as [msg Hmsg].
    { rewrite kept_class_ids. destruct Hbad as [H | [Hne H]]; [left; exact H|].
      right. split; [|exact H].
      destruct (List.filter pan_keeps segs); [congruence | discriminate]. }
    exists msg. unfold pan_targets.
    rewrite (collect_pan_accepted lm segs Hacc).
    unfold mbind, result_bind, bind. rewrite Hmsg. reflexivity.
  - intros pan Hpan.
    destruct (forallb pan_accepts segs) eqn:Hacc; [reflexivity|].
    destruct (collect_pan_refused lm segs Hacc) as (key & _ & Hc).
    unfold pan_targets in Hpan. rewrite Hc in Hpan. discriminate Hpan.
Qed.

Lemma pan_targets_outcomes_witness :
  (exists key, key ∈ ["category_id"; "iscrowd"; "id"] /\
     pan_targets (3%nat, 3%nat) Demo.label_map [Demo.segment_no_iscrowd]
       = Err (KeyError key)) /\
  (exists pan,
     pan_targets (3%nat, 3%nat) Demo.label_map Demo.segments = Ok pan /\
     gt_classes pan = map category_id (List.filter pan_keeps Demo.segments) /\
     planes (gt_masks pan) =
       map (segment_mask Demo.label_map) (List.filter pan_keeps Demo.segments)) /\
  (exists msg,
     pan_targets (3%nat, 3%nat) Demo.label_map
       [Demo.segment 1 9223372036854775808 0 true] = Err (TypeError msg)) /\
  forallb pan_accepts Demo.segments = true.
Proof.
  split; [|split; [|split]].
  - apply (proj1 (pan_targets_outcomes (3%nat, 3%nat) Demo.label_map
                    [Demo.segment_no_iscrowd])).
    vm_compute. reflexivity.
  - destruct (pan_targets_outcomes (3%nat, 3%nat) Demo.label_map Demo.segments)
      as (_ & H & _).
    apply H; vm_compute; reflexivity.
  - destruct (pan_targets_outcomes (3%nat, 3%nat) Demo.label_map
                [Demo.segment 1 9223372036854775808 0 true]) as (_ & _ & H & _).
    apply H; [vm_compute; reflexivity|].
    right. split; [vm_compute; discriminate | vm_compute; reflexivity].
  - destruct (pan_targets_outcomes (3%nat, 3%nat) Demo.label_map Demo.segments)
      as (_ & _ & _ & H).
    apply (H Demo.pan_bundle). vm_compute. reflexivity.
Defined.

(** X2.  The outcomes of the instance builder.  A table with an entry
    that lacks "category_id" or, its "iscrowd" not being true,
    "isthing" or, being a thing, "id" raises a [KeyError].  On a table
    without such an entry, an entry without "iscrowd" counting as
    non-crowd: when no non-crowd thing is left the builder raises the
    [NameError] of line 152; when some are left and their class ids fit
    int64 it returns their ids, masks and boxes in table order; when one
    of these ids fits no 64-bit type, or all lie from 2^63 up, it raises
    a [TypeError] (lines 147 to 148).  It returns on no table with a
    refused entry and on no table that keeps nothing. *)
Theorem ins_targets_outcomes (shape : nat * nat) (lm : ndarray Z)
    (segs : list segment_info) :
  (forallb ins_accepts segs = false ->
   exists key, ins_targets shape lm segs = Err (KeyError key)) /\
  (forallb ins_accepts segs = true -> List.filter ins_keeps segs = [] ->
   ins_targets shape lm segs = Err (NameError "Boxes")) /\
  (forallb ins_accepts segs = true -> List.filter ins_keeps segs <> [] ->
   forallb in_int64 (map category_id (List.filter ins_keeps segs)) = true ->
   exists ins,
     ins_targets shape lm segs = Ok ins /\
     gt_classes ins = map category_id (List.filter ins_keeps segs) /\
     planes (gt_masks ins) = map (segment_mask lm) (List.filter ins_keeps segs) /\
     gt_boxes ins = Some (map (fun s => bounding_box (segment_mask lm s))
                              (List.filter ins_keeps segs))) /\
  (forallb ins_accepts segs = true ->
   existsb beyond_64_bits (map category_id (List.filter ins_keeps segs)) = true \/
   (List.filter ins_keeps segs <> [] /\
    forallb above_int64 (map category_id (List.filter ins_keeps segs)) = true) ->
   exists msg, ins_targets shape lm segs = Err (TypeError msg)) /\
  (forall ins, ins_targets shape lm segs = Ok ins ->
   forallb ins_accepts segs = true /\ List.filter ins_keeps segs <> []).
Proof.
  split; [|split; [|split; [|split]]].
  - intros Hno. destruct (collect_ins_refused lm segs Hno) as (key & Hc).
    exists key. unfold ins_targets. rewrite Hc. reflexivity.
  - intros Hacc Hnil. apply ins_targets_empty.
    rewrite (collect_ins_accepted lm segs Hacc), Hnil. reflexivity.
  - intros Hacc Hkept Hfit.
    destruct (ins_targets_accepted shape lm segs Hacc Hfit Hkept) as [ins Hins].
    exists ins. split; [exact Hins|].
    apply ins_targets_Ok_any in Hins as (_ & _ & Hc & Hm & _ & Hb).
    split; [exact Hc|]. split; [exact Hm|].
    rewrite Hb, Hm, map_map. reflexivity.
  - intros Hacc Hbad.
    destruct (int64_tensor_TypeError
                (map (fun s => fst (entry_of lm s)) (List.filter ins_keeps segs)))
      as [msg Hmsg].
    { rewrite kept_class_ids. destruct Hbad as [H | [Hne H]]; [left; exact H|].
      right. split; [|exact H].
      destruct (List.filter ins_keeps segs); [congruence | discriminate]. }
    exists msg. unfold ins_targets.
    rewrite (collect_ins_accepted lm segs Hacc).
    unfold mbind, result_bind, bind. rewrite Hmsg. reflexivity.
  - intros ins Hins. split.
    + destruct (forallb ins_accepts segs) eqn:Hacc; [reflexivity|].
      destruct (collect_ins_refused lm segs Hacc) as (key & Hc).
      unfold ins_targets in Hins. rewrite Hc in Hins. discriminate Hins.
    + apply ins_targets_Ok_any in Hins as (Hkept & _). exact Hkept.
Qed.

Lemma ins_targets_outcomes_witness :
  (exists key, ins_targets (3%nat, 3%nat) Demo.label_map
                 [<["category_id" := PyInt 7]> ∅] = Err (KeyError key)) /\
  ins_targets (3%nat, 3%nat) Demo.label_map
    [<["category_id" := PyInt 7]> (<["iscrowd" := PyInt 1]> ∅)]
    = Err (NameError "Boxes") /\
  (exists ins,
     ins_targets (3%nat, 3%nat) Demo.label_map Demo.segments = Ok ins /\
     gt_classes ins = map category_id (List.filter ins_keeps Demo.segments) /\
     planes (gt_masks ins) =
       map (segment_mask Demo.label_map) (List.filter ins_keeps Demo.segments) /\
     gt_boxes ins =
       Some (map (fun s => bounding_box (segment_mask Demo.label_map s))
                 (List.filter ins_keeps Demo.segments))) /\
  (exists msg,
     ins_targets (3%nat, 3%nat) Demo.label_map
       [Demo.segment 1 9223372036854775808 0 true] = Err (TypeError msg)) /\
  (forallb ins_accepts Demo.segments = true /\
   List.filter ins_keeps Demo.segments <> []).
Proof.
  split; [|split; [|split; [|split]]].
  - destruct (ins_targets_outcomes (3%nat, 3%nat) Demo.label_map
                [<["category_id" := PyInt 7]> ∅]) as (H & _).
    apply H. vm_compute. reflexivity.
  - destruct (ins_targets_outcomes (3%nat, 3%nat) Demo.label_map
                [<["category_id" := PyInt 7]> (<["iscrowd" := PyInt 1]> ∅)])
      as (_ & H & _).
    apply H; vm_compute; reflexivity.
  - destruct (ins_targets_outcomes (3%nat, 3%nat) Demo.label_map
                Demo.segments) as (_ & _ & H & _).
    apply H; [vm_compute; reflexivity | vm_compute; discriminate
             | vm_compute; reflexivity].
  - destruct (ins_targets_outcomes (3%nat, 3%nat) Demo.label_map
                [Demo.segment 1 9223372036854775808 0 true])
      as (_ & _ & _ & H & _).
    apply H; [vm_compute; reflexivity|].
    right. split; [vm_compute; discriminate | vm_compute; reflexivity].
  - destruct (ins_targets_outcomes (3%nat, 3%nat) Demo.label_map
                Demo.segments) as (_ & _ & _ & _ & H).
    apply (H Demo.ins_bundle). vm_compute. reflexivity.
Defined.

(** ** Aligned bundles *)

Lemma pan_targets_image_size (shape : nat * nat) (lm : ndarray Z)
    (segs : list segment_info) (pan : Instances) :
  pan_targets shape lm segs = Ok pan -> image_size pan = shape.
Proof.
  unfold pan_targets. intros H. ok_bind H as r Hcol. destruct r as [cs ms].
  ok_bind H as values Hvalues.
  ret_simpl. injection H as <-. reflexivity.
Qed.

(** X3.  Every bundle a builder returns is aligned: as many classes as
    masks, at most one per table entry, the mask tensor of shape
    [(N, H, W)] with [H, W] those of the label array (also for [N = 0]);
    the instance bundle has [N > 0] and [N] boxes, the panoptic and the
    semantic bundle have no boxes. *)
Theorem bundles_aligned :
  (forall (shape : nat * nat) (lm : ndarray Z) (segs : list segment_info)
          (pan : Instances),
     pan_targets shape lm segs = Ok pan ->
     length (gt_classes pan) = dim0 (gt_masks pan) /\
     length (planes (gt_masks pan)) = dim0 (gt_masks pan) /\
     (dim0 (gt_masks pan) <= length segs)%nat /\
     (dim1 (gt_masks pan), dim2 (gt_masks pan)) = (height lm, width lm) /\
     gt_boxes pan = None) /\
  (forall (shape : nat * nat) (lm : ndarray Z) (segs : list segment_info)
          (ins : Instances),
     ins_targets shape lm segs = Ok ins ->
     length (gt_classes ins) = dim0 (gt_masks ins) /\
     length (planes (gt_masks ins)) = dim0 (gt_masks ins) /\
     (0 < dim0 (gt_masks ins) <= length segs)%nat /\
     (dim1 (gt_masks ins), dim2 (gt_masks ins)) = (height lm, width lm) /\
     exists bs, gt_boxes ins = Some bs /\ length bs = dim0 (gt_masks ins)) /\
  (forall (ignore : Z) (shape : nat * nat) (sem : ndarray Z),
     let b := sem_targets ignore shape sem in
     length (gt_classes b) = dim0 (gt_masks b) /\
     length (planes (gt_masks b)) = dim0 (gt_masks b) /\
     (dim1 (gt_masks b), dim2 (gt_masks b)) = (height sem, width sem) /\
     gt_boxes b = None).
Proof.
  split; [|split].
  - intros shape lm segs pan H.
    apply pan_targets_Ok in H as (_ & Hc & Hp & Hs & Hb).
    injection Hs as Hd0 Hd1 Hd2.
    rewrite Hc, Hp, !length_map, Hd0, Hd1, Hd2.
    repeat split; try reflexivity; try assumption.
    apply filter_length_le.
  - intros shape lm segs ins H.
    apply ins_targets_Ok_any in H as (Hne & _ & Hc & Hp & Hs & Hb).
    injection Hs as Hd0 Hd1 Hd2.
    rewrite Hc, Hp, !length_map, Hd0, Hd1, Hd2.
    split; [reflexivity|]. split; [reflexivity|]. split.
    + split; [|apply filter_length_le].
      destruct (List.filter ins_keeps segs); [congruence | simpl; lia].
    + split; [reflexivity|].
      eexists. split; [exact Hb|]. rewrite Hp, !length_map. reflexivity.
  - intros ignore shape sem. cbv zeta.
    pose proof (sem_targets_fields ignore shape sem) as H. cbv zeta in H.
    destruct H as (_ & Hp & Hs & _ & Hb).
    remember (sem_targets ignore shape sem) as b eqn:Hb_def.
    unfold shape3 in Hs. injection Hs as Hd0 Hd1 Hd2.
    rewrite Hp, length_map, Hd0, Hd1, Hd2. repeat split; assumption.
Qed.

Lemma bundles_aligned_witness :
  (length (gt_classes Demo.pan_bundle) = dim0 (gt_masks Demo.pan_bundle) /\
   length (planes (gt_masks Demo.pan_bundle)) = dim0 (gt_masks Demo.pan_bundle) /\
   (dim0 (gt_masks Demo.pan_bundle) <= length Demo.segments)%nat /\
   (dim1 (gt_masks Demo.pan_bundle), dim2 (gt_masks Demo.pan_bundle))
     = (height Demo.label_map, width Demo.label_map) /\
   gt_boxes Demo.pan_bundle = None) /\
  (length (gt_classes Demo.ins_bundle) = dim0 (gt_masks Demo.ins_bundle) /\
   length (planes (gt_masks Demo.ins_bundle)) = dim0 (gt_masks Demo.ins_bundle) /\
   (0 < dim0 (gt_masks Demo.ins_bundle) <= length Demo.segments)%nat /\
   (dim1 (gt_masks Demo.ins_bundle), dim2 (gt_masks Demo.ins_bundle))
     = (height Demo.label_map, width Demo.label_map) /\
   exists bs, gt_boxes Demo.ins_bundle = Some bs /\
              length bs = dim0 (gt_masks Demo.ins_bundle)).
Proof.
  destruct bundles_aligned as (HA & HB & _). split.
  - apply (HA (3%nat, 3%nat) Demo.label_map Demo.segments Demo.pan_bundle).
    vm_compute. reflexivity.
  - apply (HB (3%nat, 3%nat) Demo.label_map Demo.segments Demo.ins_bundle).
    vm_compute. reflexivity.
Defined.

(** ** The instance bundle inside the panoptic one *)

Lemma filter_and_sublist {A B : Type} (h : A -> B) (p q : A -> bool)
    (l : list A) :
  map h (List.filter (fun x => p x && q x) l) `sublist_of` map h (List.filter p l).
Proof.
  induction l as [|x t IH]; simpl; [constructor|].
  destruct (p x); simpl; [|exact IH].
  destruct (q x); simpl; [apply sublist_skip | apply sublist_cons]; exact IH.
Qed.

Lemma combine_maps {A B C : Type} (f : A -> B) (g : A -> C) (l : list A) :
  combine (map f l) (map g l) = map (fun x => (f x, g x)) l.
Proof.
  induction l as [|x t IH]; simpl; [reflexivity|]. rewrite IH. reflexivity.
Qed.

(** X4.  On one table and label map, the instance bundle is the panoptic
    bundle with the non-things left out: its (class, mask) pairs are a
    sub-sequence, in the same order, of the panoptic ones. *)
Theorem instance_within_panoptic (shape1 shape2 : nat * nat) (lm : ndarray Z)
    (segs : list segment_info) (pan ins : Instances) :
  pan_targets shape1 lm segs = Ok pan ->
  ins_targets shape2 lm segs = Ok ins ->
  combine (gt_classes ins) (planes (gt_masks ins))
    `sublist_of` combine (gt_classes pan) (planes (gt_masks pan)) /\
  (length (gt_classes ins) <= length (gt_classes pan))%nat.
Proof.
  intros Hp Hi.
  apply pan_targets_Ok in Hp as (_ & Hpc & Hpm & _).
  apply ins_targets_Ok_any in Hi as (_ & _ & Hic & Him & _).
  assert (Hsub : combine (gt_classes ins) (planes (gt_masks ins))
            `sublist_of` combine (gt_classes pan) (planes (gt_masks pan))).
  { rewrite Hpc, Hpm, Hic, Him, !combine_maps.
    apply (filter_and_sublist _ pan_keeps is_thing). }
  split; [exact Hsub|].
  apply sublist_length in Hsub. rewrite !length_combine in Hsub.
  rewrite Hpc, Hpm, Hic, Him, !length_map in Hsub.
  rewrite Hpc, Hic, !length_map. lia.
Qed.

Lemma instance_within_panoptic_witness :
  combine (gt_classes Demo.ins_bundle) (planes (gt_masks Demo.ins_bundle))
    `sublist_of`
    combine (gt_classes Demo.pan_bundle) (planes (gt_masks Demo.pan_bundle)) /\
  (length (gt_classes Demo.ins_bundle) <= length (gt_classes Demo.pan_bundle))%nat.
Proof.
  apply (instance_within_panoptic (3%nat, 3%nat) (3%nat, 3%nat)
           Demo.label_map Demo.segments).
  - vm_compute. reflexivity.
  - vm_compute. reflexivity.
Defined.

(** ** What the masks cover *)

Lemma kept_masks_cover (keep : segment_info -> bool) (lm : ndarray Z)
    (segs : list segment_info) (r c : nat) :
  (exists (i : nat) (m : mask),
     map (segment_mask lm) (List.filter keep segs) !! i = Some m /\
     pixel m r c = Some true) <->
  (exists s, s ∈ segs /\ keep s = true /\ pixel lm r c = Some (segment_id s)).
Proof.
  split.
  - intros (i & m & Hi & Hp). rewrite list_lookup_fmap in Hi.
    destruct (List.filter keep segs !! i) as [s|] eqn:Hs; [|discriminate Hi].
    simpl in Hi. injection Hi as <-.
    assert (Hin : In s (List.filter keep segs)).
    { apply list_elem_of_In, list_elem_of_lookup. eauto. }
    apply filter_In in Hin as [Hin Hk].
    exists s. split; [apply list_elem_of_In, Hin|]. split; [exact Hk|].
    apply pixel_eq_scalar. exact Hp.
  - intros (s & Hin & Hk & Hp).
    assert (Hf : s ∈ List.filter keep segs).
    { apply list_elem_of_In, filter_In. split; [apply list_elem_of_In, Hin | exact Hk]. }
    apply list_elem_of_lookup in Hf as [i Hi].
    exists i, (segment_mask lm s). split.
    + rewrite list_lookup_fmap, Hi. reflexivity.
    + apply pixel_eq_scalar. exact Hp.
Qed.

(** With pairwise distinct ids in the table, a pixel that holds the id
    of an entry the loop leaves out is set in no mask. *)
Lemma unique_id_segment (segs : list segment_info) :
  NoDup (map segment_id segs) ->
  forall s s', s ∈ segs -> s' ∈ segs -> segment_id s = segment_id s' -> s = s'.
Proof.
  induction segs as [|s0 rest IH]; simpl; intros Hnd s s' Hs Hs' Hid.
  - apply elem_of_nil in Hs. destruct Hs.
  - apply NoDup_cons in Hnd as [Hnotin Hrest].
    assert (Hmem : forall x, x ∈ rest -> segment_id x ∈ map segment_id rest).
    { intros x Hx. apply list_elem_of_In, in_map, list_elem_of_In, Hx. }
    apply elem_of_cons in Hs as [->|Hs]; apply elem_of_cons in Hs' as [->|Hs'].
    + reflexivity.
    + exfalso. apply Hnotin. rewrite Hid. apply Hmem, Hs'.
    + exfalso. apply Hnotin. rewrite <- Hid. apply Hmem, Hs.
    + apply (IH Hrest s s' Hs Hs' Hid).
Qed.

Lemma unkept_pixels_uncovered (keep : segment_info -> bool) (lm : ndarray Z)
    (segs : list segment_info) (s : segment_info) (r c : nat) :
  NoDup (map segment_id segs) ->
  s ∈ segs -> keep s = false -> pixel lm r c = Some (segment_id s) ->
  ~ exists (i : nat) (m : mask),
      map (segment_mask lm) (List.filter keep segs) !! i = Some m /\
      pixel m r c = Some true.
Proof.
  intros Hnd Hin Hout Hpx Hset.
  apply kept_masks_cover in Hset as (s' & Hin' & Hkeep & Hpx').
  assert (Hid : segment_id s = segment_id s') by congruence.
  rewrite (unique_id_segment segs Hnd s s' Hin Hin' Hid) in Hout. congruence.
Qed.

(** A pixel that holds an id the table does not list is set in no mask. *)
Lemma unlisted_pixels_uncovered (keep : segment_info -> bool) (lm : ndarray Z)
    (segs : list segment_info) (v : Z) (r c : nat) :
  pixel lm r c = Some v ->
  (forall s, s ∈ segs -> segment_id s <> v) ->
  ~ exists (i : nat) (m : mask),
      map (segment_mask lm) (List.filter keep segs) !! i = Some m /\
      pixel m r c = Some true.
Proof.
  intros Hpx Hnone Hset.
  apply kept_masks_cover in Hset as (s' & Hin' & _ & Hpx').
  apply (Hnone s' Hin'). congruence.
Qed.

(** X5.  A pixel is set in some mask of the panoptic bundle exactly when
    the label map holds there the id of a non-crowd segment of the
    table, and in some mask of the instance bundle exactly when it holds
    the id of a non-crowd thing.  A pixel that holds an id the table
    does not list is set in no mask of either bundle; and when the ids
    of the table are pairwise distinct, a pixel that holds the id of a
    crowd is set in no mask of the panoptic bundle, and one that holds
    the id of a crowd or of a stuff segment in no mask of the instance
    bundle.  (Without distinct ids a crowd may share its id with a kept
    entry, whose mask then covers its pixels.) *)
Theorem masks_cover_kept_segments (lm : ndarray Z) (segs : list segment_info) :
  (forall (shape : nat * nat) (pan : Instances) (r c : nat),
     pan_targets shape lm segs = Ok pan ->
     ((exists (i : nat) (m : mask),
         planes (gt_masks pan) !! i = Some m /\ pixel m r c = Some true) <->
      (exists s, s ∈ segs /\ pan_keeps s = true /\
                 pixel lm r c = Some (segment_id s)))) /\
  (forall (shape : nat * nat) (ins : Instances) (r c : nat),
     ins_targets shape lm segs = Ok ins ->
     ((exists (i : nat) (m : mask),
         planes (gt_masks ins) !! i = Some m /\ pixel m r c = Some true) <->
      (exists s, s ∈ segs /\ ins_keeps s = true /\
                 pixel lm r c = Some (segment_id s)))) /\
  (forall (shape : nat * nat) (pan : Instances) (r c : nat) (v : Z),
     pan_targets shape lm segs = Ok pan ->
     pixel lm r c = Some v -> (forall s, s ∈ segs -> segment_id s <> v) ->
     ~ exists (i : nat) (m : mask),
         planes (gt_masks pan) !! i = Some m /\ pixel m r c = Some true) /\
  (forall (shape : nat * nat) (ins : Instances) (r c : nat) (v : Z),
     ins_targets shape lm segs = Ok ins ->
     pixel lm r c = Some v -> (forall s, s ∈ segs -> segment_id s <> v) ->
     ~ exists (i : nat) (m : mask),
         planes (gt_masks ins) !! i = Some m /\ pixel m r c = Some true) /\
  (forall (shape : nat * nat) (pan : Instances) (r c : nat) (s : segment_info),
     NoDup (map segment_id segs) ->
     pan_targets shape lm segs = Ok pan ->
     s ∈ segs -> is_crowd s = true -> pixel lm r c = Some (segment_id s) ->
     ~ exists (i : nat) (m : mask),
         planes (gt_masks pan) !! i = Some m /\ pixel m r c = Some true) /\
  (forall (shape : nat * nat) (ins : Instances) (r c : nat) (s : segment_info),
     NoDup (map segment_id segs) ->
     ins_targets shape lm segs = Ok ins ->
     s ∈ segs -> is_crowd s = true \/ is_thing s = false ->
     pixel lm r c = Some (segment_id s) ->
     ~ exists (i : nat) (m : mask),
         planes (gt_masks ins) !! i = Some m /\ pixel m r c = Some true).
Proof.
  split; [|split; [|split; [|split; [|split]]]].
  - intros shape pan r c H. apply pan_targets_Ok in H as (_ & _ & -> & _).
    apply kept_masks_cover.
  - intros shape ins r c H. apply ins_targets_Ok_any in H as (_ & _ & _ & -> & _).
    apply kept_masks_cover.
  - intros shape pan r c v H Hpx Hnone.
    apply pan_targets_Ok in H as (_ & _ & -> & _).
    apply (unlisted_pixels_uncovered _ _ _ v); assumption.
  - intros shape ins r c v H Hpx Hnone.
    apply ins_targets_Ok_any in H as (_ & _ & _ & -> & _).
    apply (unlisted_pixels_uncovered _ _ _ v); assumption.
  - intros shape pan r c s Hnd H Hin Hcrowd Hpx.
    apply pan_targets_Ok in H as (_ & _ & -> & _).
    apply (unkept_pixels_uncovered _ _ _ s); try assumption.
    unfold pan_keeps. rewrite Hcrowd. reflexivity.
  - intros shape ins r c s Hnd H Hin Hout Hpx.
    apply ins_targets_Ok_any in H as (_ & _ & _ & -> & _).
    apply (unkept_pixels_uncovered _ _ _ s); try assumption.
    unfold ins_keeps. destruct Hout as [-> | ->]; [reflexivity|].
    apply andb_false_r.
Qed.

Lemma masks_cover_kept_segments_witness :
  ((exists (i : nat) (m : mask),
      planes (gt_masks Demo.pan_bundle) !! i = Some m /\
      pixel m 1 0 = Some true) <->
   (exists s, s ∈ Demo.segments /\ pan_keeps s = true /\
              pixel Demo.label_map 1 0 = Some (segment_id s))) /\
  ((exists (i : nat) (m : mask),
      planes (gt_masks Demo.ins_bundle) !! i = Some m /\
      pixel m 0 0 = Some true) <->
   (exists s, s ∈ Demo.segments /\ ins_keeps s = true /\
              pixel Demo.label_map 0 0 = Some (segment_id s))) /\
  (~ exists (i : nat) (m : mask),
       planes (gt_masks Demo.pan_bundle) !! i = Some m /\
       pixel m 1 0 = Some true) /\
  (~ exists (i : nat) (m : mask),
       planes (gt_masks Demo.ins_bundle) !! i = Some m /\
       pixel m 0 2 = Some true).
Proof.
  assert (Hnd : NoDup (map segment_id Demo.segments)).
  { apply (bool_decide_unpack _). vm_compute. exact I. }
  destruct (masks_cover_kept_segments Demo.label_map Demo.segments)
    as (HA & HB & _ & _ & HC & HD).
  split; [|split; [|split]].
  - apply (HA (3%nat, 3%nat) Demo.pan_bundle). vm_compute. reflexivity.
  - apply (HB (3%nat, 3%nat) Demo.ins_bundle). vm_compute. reflexivity.
  - apply (HC (3%nat, 3%nat) Demo.pan_bundle 1%nat 0%nat
              (Demo.segment 3 300 1 true) Hnd).
    + vm_compute. reflexivity.
    + do 2 apply list_elem_of_further. apply list_elem_of_here.
    + vm_compute. reflexivity.
    + vm_compute. reflexivity.
  - apply (HD (3%nat, 3%nat) Demo.ins_bundle 0%nat 2%nat
              (Demo.segment 2 200 0 false) Hnd).
    + vm_compute. reflexivity.
    + apply list_elem_of_further, list_elem_of_here.
    + right. vm_compute. reflexivity.
    + vm_compute. reflexivity.
Defined.

(** ** Segments the label map no longer shows *)

Lemma pixel_flatten {A : Type} (a : ndarray A) (r c : nat) (v : A) :
  pixel a r c = Some v -> v ∈ flatten a.
Proof.
  unfold pixel, flatten. intros H.
  destruct (rows a !! r) as [row|] eqn:Hrow; [|discriminate H].
  apply list_elem_of_In, in_concat. exists row.
  split; apply list_elem_of_In, list_elem_of_lookup; eauto.
Qed.

Lemma flatten_pixel {A : Type} (a : ndarray A) (v : A) :
  v ∈ flatten a -> exists r c, pixel a r c = Some v.
Proof.
  unfold pixel, flatten. intros H.
  apply list_elem_of_In, in_concat in H as (row & Hrow & Hv).
  apply list_elem_of_In, list_elem_of_lookup in Hrow as [r Hr].
  apply list_elem_of_In, list_elem_of_lookup in Hv as [c Hc].
  exists r, c. rewrite Hr. exact Hc.
Qed.

(** A mask with no set pixel has the all-zero box. *)
Lemma bounding_box_empty (m : mask) :
  (forall r c, pixel m r c <> Some true) -> bounding_box m = (0, 0, 0, 0).
Proof.
  intros Hnone. unfold bounding_box.
  destruct (where_true (any_per_column m)) as [|x0 X'] eqn:HX; [reflexivity|].
  exfalso.
  assert (Hin : In x0 (where_true (any_per_column m)))
    by (rewrite HX; left; reflexivity).
  apply where_true_In, any_per_column_spec in Hin as [_ [r Hr]].
  exact (Hnone r x0 Hr).
Qed.

(** X6.  A kept segment whose id occurs nowhere in the label map (after
    cropping, say) is not dropped: the instance bundle still lists its
    class, with a mask that has no set pixel and the box (0, 0, 0, 0). *)
Theorem vanished_segment_kept (shape : nat * nat) (lm : ndarray Z)
    (segs : list segment_info) (ins : Instances) (s : segment_info) :
  ins_targets shape lm segs = Ok ins ->
  s ∈ segs -> ins_keeps s = true -> segment_id s ∉ flatten lm ->
  exists (i : nat) (m : mask) (bs : list box),
    gt_classes ins !! i = Some (category_id s) /\
    plane_at (gt_masks ins) i = Some m /\
    (forall r c, pixel m r c <> Some true) /\
    gt_boxes ins = Some bs /\ bs !! i = Some (0, 0, 0, 0).
Proof.
  intros H Hin Hkeep Habsent.
  apply ins_targets_Ok_any in H as (_ & _ & Hc & Hp & _ & Hb).
  assert (Hf : s ∈ List.filter ins_keeps segs).
  { apply list_elem_of_In, filter_In. split; [apply list_elem_of_In, Hin | exact Hkeep]. }
  apply list_elem_of_lookup in Hf as [i Hi].
  assert (Hnone : forall r c, pixel (segment_mask lm s) r c <> Some true).
  { intros r c Hset. apply pixel_eq_scalar in Hset.
    apply Habsent. exact (pixel_flatten lm r c _ Hset). }
  exists i, (segment_mask lm s), (map bounding_box (planes (gt_masks ins))).
  split; [rewrite Hc, list_lookup_fmap, Hi; reflexivity|].
  split; [rewrite <- planes_lookup, Hp, list_lookup_fmap, Hi; reflexivity|].
  split; [exact Hnone|]. split; [exact Hb|].
  rewrite Hp, !list_lookup_fmap, Hi. simpl. f_equal.
  apply bounding_box_empty, Hnone.
Qed.

Lemma vanished_segment_kept_witness :
  exists (i : nat) (m : mask) (bs : list box),
    gt_classes Cases.ins_bundle_vanished !! i = Some 900 /\
    plane_at (gt_masks Cases.ins_bundle_vanished) i = Some m /\
    (forall r c, pixel m r c <> Some true) /\
    gt_boxes Cases.ins_bundle_vanished = Some bs /\
    bs !! i = Some (0, 0, 0, 0).
Proof.
  apply (vanished_segment_kept (3%nat, 3%nat) Demo.label_map
           Cases.segments_vanished Cases.ins_bundle_vanished
           (Demo.segment 9 900 0 true)).
  - vm_compute. reflexivity.
  - apply list_elem_of_further, list_elem_of_here.
  - vm_compute. reflexivity.
  - apply (bool_decide_unpack _). vm_compute. exact I.
Defined.

(** ** What a call leaves alone *)

(** X7.  A call that returns changes the record at most at "width",
    "height", the two popped paths and the two bundles: every other key,
    among them "file_name", "segments_info", "image", "sem_seg" and
    "sem_instances", has in the output the value (or the absence) it had
    in the input. *)
Theorem call_frame (self : config) (lib : library) (d out : dataset_record)
    (key : string) :
  call self lib d = Ok out -> key ∉ touched_keys -> out !! key = d !! key.
Proof.
  intros H Hkey. unfold touched_keys in Hkey.
  repeat (apply not_elem_of_cons in Hkey as [? Hkey]).
  destruct (d !! "pan_seg_file_name") as [path|] eqn:Hpan.
  - destruct (call_Ok_pan _ _ _ _ H (ltac:(eauto) : is_Some (d !! "pan_seg_file_name")))
      as (d1 & image & tfm & lm & segs & pan & ins
          & Hload & _ & _ & _ & _ & _ & ->).
    destruct (load_image_Ok _ _ _ _ _ _ _ Hload) as (_ & _ & _ & Hframe).
    rewrite !lookup_insert_ne, lookup_delete_ne by congruence.
    apply Hframe; assumption.
  - destruct (call_Ok_no_pan _ _ _ _ H Hpan) as (image & sem & tfm & Hload).
    destruct (load_image_Ok _ _ _ _ _ _ _ Hload) as (_ & _ & _ & Hframe).
    apply Hframe; assumption.
Qed.

Lemma call_frame_witness :
  Demo.output !! "segments_info" = Demo.record !! "segments_info" /\
  Demo.output !! "image" = Demo.record !! "image".
Proof.
  split.
  - apply (call_frame Demo.self Demo.lib Demo.record Demo.output).
    + vm_compute. reflexivity.
    + apply (bool_decide_unpack _). vm_compute. exact I.
  - apply (call_frame Demo.self Demo.lib Demo.record Demo.output).
    + vm_compute. reflexivity.
    + apply (bool_decide_unpack _). vm_compute. exact I.
Defined.

(** ** Width and height *)

Lemma value_is_true (v : value) (n : nat) :
  value_is v n = true -> v = VInt (Z.of_nat n).
Proof.
  destruct v; simpl; try discriminate. intros H. apply Z.eqb_eq in H.
  congruence.
Qed.

(** After the size check the record holds the image's width and height. *)
Lemma check_image_size_records (d d' : dataset_record) (image : ndarray3 Z) :
  check_image_size d image = Ok d' ->
  d' !! "width" = Some (VInt (Z.of_nat (dim1 image))) /\
  d' !! "height" = Some (VInt (Z.of_nat (dim0 image))).
Proof.
  unfold check_image_size, contains. intros H. ok_bind H as u Hcheck.
  ret_simpl. injection H as <-.
  destruct (d !! "width") as [w|] eqn:Hw; destruct (d !! "height") as [h|] eqn:Hh;
    simpl in Hcheck; unfold getitem in Hcheck; rewrite ?Hw, ?Hh in Hcheck;
    simpl in Hcheck; try discriminate Hcheck.
  - destruct (value_is w (dim1 image)) eqn:Vw; [|discriminate Hcheck].
    destruct (value_is h (dim0 image)) eqn:Vh; [|discriminate Hcheck].
    apply value_is_true in Vw, Vh. subst w h.
    rewrite Hw, Hh. split; reflexivity.
  - rewrite (lookup_insert_ne d "width" "height") by congruence.
    rewrite Hh. split.
    + rewrite lookup_insert_ne by congruence. apply lookup_insert_eq.
    + apply lookup_insert_eq.
Qed.

(** Lines 70 and 71 inside the loading. *)
Lemma load_image_size (self : config) (lib : library) (d d1 : dataset_record)
    (image : ndarray3 Z) (sem : option (ndarray Z)) (tfm : transform lib) :
  load_image self lib d = Ok (d1, image, sem, tfm) ->
  exists (file : value) (image0 : ndarray3 Z),
    d !! "file_name" = Some file /\
    read_image lib file (img_format self) = inr image0 /\
    d1 !! "width" = Some (VInt (Z.of_nat (dim1 image0))) /\
    d1 !! "height" = Some (VInt (Z.of_nat (dim0 image0))).
Proof.
  unfold load_image. intros H.
  ok_bind H as u Hassert. ok_bind H as file Hfile. ok_bind H as image0 Hread.
  ok_bind H as d0 Hcheck. ok_bind H as loaded Hsem. destruct loaded as [sem0 d2].
  ok_bind H as aug Haug. destruct aug as [[image' aug_sem] tfm'].
  ret_simpl. injection H as <- <- <- <-.
  apply getitem_Ok in Hfile. apply external_Ok in Hread.
  apply check_image_size_records in Hcheck as [Hw Hh].
  apply load_sem_seg_Ok in Hsem as [-> _].
  exists file, image0. rewrite !lookup_delete_ne by congruence.
  repeat split; assumption.
Qed.

(** X8.  In the output of every call that returns, "width" and "height"
    are the width and height of the image as decoded (before any
    augmentation); an input record that already had them had these
    values. *)
Theorem output_records_image_size (self : config) (lib : library)
    (d out : dataset_record) :
  call self lib d = Ok out ->
  exists (file : value) (image0 : ndarray3 Z),
    d !! "file_name" = Some file /\
    read_image lib file (img_format self) = inr image0 /\
    out !! "width" = Some (VInt (Z.of_nat (dim1 image0))) /\
    out !! "height" = Some (VInt (Z.of_nat (dim0 image0))) /\
    (is_Some (d !! "width") \/ is_Some (d !! "height") ->
     d !! "width" = out !! "width" /\ d !! "height" = out !! "height").
Proof.
  intros H.
  assert (Hout : exists d1 image sem tfm,
            load_image self lib d = Ok (d1, image, sem, tfm) /\
            out !! "width" = d1 !! "width" /\ out !! "height" = d1 !! "height").
  { destruct (d !! "pan_seg_file_name") as [path|] eqn:Hpan.
    - destruct (call_Ok_pan _ _ _ _ H (ltac:(eauto) : is_Some (d !! "pan_seg_file_name")))
        as (d1 & image & tfm & lm & segs & pan & ins
            & Hload & _ & _ & _ & _ & _ & ->).
      exists d1, image, None, tfm. split; [exact Hload|].
      rewrite !lookup_insert_ne, !lookup_delete_ne by congruence.
      split; reflexivity.
    - destruct (call_Ok_no_pan _ _ _ _ H Hpan) as (image & sem & tfm & Hload).
      exists out, image, sem, tfm. repeat split. exact Hload. }
  destruct Hout as (d1 & image & sem & tfm & Hload & Hw & Hh).
  destruct (load_image_size _ _ _ _ _ _ _ Hload)
    as (file & image0 & Hfile & Hread & Hw1 & Hh1).
  exists file, image0. rewrite Hw, Hh.
  split; [exact Hfile|]. split; [exact Hread|].
  split; [exact Hw1|]. split; [exact Hh1|].
  intros Hhad. rewrite Hw1, Hh1.
  unfold load_image in Hload.
  ok_bind Hload as u Hassert. ok_bind Hload as file' Hfile'.
  ok_bind Hload as image0' Hread'. ok_bind Hload as d0 Hcheck.
  apply getitem_Ok in Hfile'. apply external_Ok in Hread'.
  assert (file' = file) as -> by congruence.
  assert (image0' = image0) as -> by congruence.
  clear Hload. unfold check_image_size, contains in Hcheck.
  ok_bind Hcheck as u' Hc.
  destruct (d !! "width") as [w|] eqn:Hdw; destruct (d !! "height") as [h|] eqn:Hdh;
    simpl in Hc; unfold getitem in Hc; rewrite ?Hdw, ?Hdh in Hc;
    simpl in Hc; try discriminate Hc.
  - destruct (value_is w (dim1 image0)) eqn:Vw; [|discriminate Hc].
    destruct (value_is h (dim0 image0)) eqn:Vh; [|discriminate Hc].
    apply value_is_true in Vw, Vh. subst w h. split; reflexivity.
  - destruct Hhad as [[x Hx]|[x Hx]]; discriminate Hx.
Qed.

Lemma output_records_image_size_witness :
  exists (file : value) (image0 : ndarray3 Z),
    Demo.record !! "file_name" = Some file /\
    read_image Demo.lib file (img_format Demo.self) = inr image0 /\
    Demo.output !! "width" = Some (VInt (Z.of_nat (dim1 image0))) /\
    Demo.output !! "height" = Some (VInt (Z.of_nat (dim0 image0))) /\
    (is_Some (Demo.record !! "width") \/ is_Some (Demo.record !! "height") ->
     Demo.record !! "width" = Demo.output !! "width" /\
     Demo.record !! "height" = Demo.output !! "height").
Proof.
  apply (output_records_image_size Demo.self Demo.lib Demo.record Demo.output).
  vm_compute. reflexivity.
Defined.

(** ** The image size stored in the bundles *)

(** X9.  In the output of every call that returns on a record with a
    panoptic label, the [image_size] of both bundles is the pair of the
    last two axes of the augmented image array as line 86 reads it: for
    the [(H, W, C)] array the decoder gives, that is [(W, C)], while the
    masks have the label map's height and width. *)
Theorem bundles_image_size (self : config) (lib : library)
    (d out : dataset_record) :
  call self lib d = Ok out ->
  is_Some (d !! "pan_seg_file_name") ->
  exists (d1 : dataset_record) (image : ndarray3 Z) (tfm : transform lib)
         (lm : ndarray Z) (pan ins : Instances),
    load_image self lib d = Ok (d1, image, None, tfm) /\
    decoded_label_map self lib d = Ok lm /\
    out !! "pan_instances" = Some (VInstances pan) /\
    out !! "ins_instances" = Some (VInstances ins) /\
    image_size pan = (dim1 image, dim2 image) /\
    image_size ins = (dim1 image, dim2 image) /\
    (dim1 (gt_masks pan), dim2 (gt_masks pan)) = (height lm, width lm) /\
    (dim1 (gt_masks ins), dim2 (gt_masks ins)) = (height lm, width lm).
Proof.
  intros H Hpan.
  destruct (call_Ok_pan _ _ _ _ H Hpan)
    as (d1 & image & tfm & lm & segs & pan & ins
        & Hload & Hlm & _ & _ & Hp & Hi & ->).
  exists d1, image, tfm, lm, pan, ins.
  pose proof (pan_targets_image_size _ _ _ _ Hp) as Hpsize.
  apply pan_targets_Ok in Hp as (_ & _ & _ & Hps & _).
  apply ins_targets_Ok_any in Hi as (_ & Hisize & _ & _ & His & _).
  injection Hps as _ Hp1 Hp2. injection His as _ Hi1 Hi2.
  split; [exact Hload|]. split; [exact Hlm|].
  split; [rewrite lookup_insert_ne by congruence; apply lookup_insert_eq|].
  split; [apply lookup_insert_eq|].
  split; [exact Hpsize|]. split; [exact Hisize|].
  rewrite Hp1, Hp2, Hi1, Hi2. split; reflexivity.
Qed.

Lemma bundles_image_size_witness :
  exists (d1 : dataset_record) (image : ndarray3 Z) (tfm : transform Demo.lib)
         (lm : ndarray Z) (pan ins : Instances),
    load_image Demo.self Demo.lib Demo.record = Ok (d1, image, None, tfm) /\
    decoded_label_map Demo.self Demo.lib Demo.record = Ok lm /\
    Demo.output !! "pan_instances" = Some (VInstances pan) /\
    Demo.output !! "ins_instances" = Some (VInstances ins) /\
    image_size pan = (dim1 image, dim2 image) /\
    image_size ins = (dim1 image, dim2 image) /\
    (dim1 (gt_masks pan), dim2 (gt_masks pan)) = (height lm, width lm) /\
    (dim1 (gt_masks ins), dim2 (gt_masks ins)) = (height lm, width lm).
Proof.
  apply (bundles_image_size Demo.self Demo.lib Demo.record Demo.output).
  - vm_compute. reflexivity.
  - vm_compute. eauto.
Defined.

(** ** Records with a semantic label *)

(** An augmentation that keeps the semantic label hands the loading a
    label whenever the record has a semantic path. *)
Lemma load_image_sem (self : config) (lib : library) (d d1 : dataset_record)
    (image : ndarray3 Z) (sem : option (ndarray Z)) (tfm : transform lib) :
  keeps_sem_seg lib ->
  load_image self lib d = Ok (d1, image, sem, tfm) ->
  is_Some (d !! "sem_seg_file_name") -> is_Some sem.
Proof.
  unfold load_image. intros Hkeeps H Hpath.
  ok_bind H as u Hassert. ok_bind H as file Hfile. ok_bind H as image0 Hread.
  ok_bind H as d0 Hcheck. ok_bind H as loaded Hsem. destruct loaded as [sem0 d2].
  ok_bind H as aug Haug. destruct aug as [[image' aug_sem] tfm'].
  ret_simpl. injection H as <- <- <- <-.
  apply load_sem_seg_Ok in Hsem as [_ Hs].
  assert (Hk : d0 !! "sem_seg_file_name" = d !! "sem_seg_file_name").
  { eapply check_image_size_Ok; [exact Hcheck | congruence | congruence]. }
  rewrite Hk in Hs. apply Hs in Hpath. destruct Hpath as [s ->].
  apply external_Ok in Haug. exact (Hkeeps _ _ _ Haug).
Qed.

(** X10.  With an augmentation that keeps the semantic label, a record
    that has both a panoptic and a semantic label never gets through the
    call: lines 165 and 166 call numpy methods on the torch tensors of
    lines 101 and 103.  When everything before is in order (the label
    map decodes, no "annotations", a table of complete entries that keeps
    an instance), the error is the [TypeError] of line 165. *)
Theorem both_labels_raise (self : config) (lib : library) :
  keeps_sem_seg lib ->
  (forall d : dataset_record,
     is_Some (d !! "pan_seg_file_name") -> is_Some (d !! "sem_seg_file_name") ->
     raises (call self lib d)) /\
  (forall (d : dataset_record) (lm : ndarray Z) (segs : list segment_info),
     is_Some (d !! "sem_seg_file_name") ->
     decoded_label_map self lib d = Ok lm ->
     d !! "annotations" = None ->
     d !! "segments_info" = Some (VSegments segs) ->
     Forall complete_segment segs -> List.filter ins_keeps segs <> [] ->
     call self lib d =
     Err (TypeError "transpose() received an invalid combination of arguments")).
Proof.
  intros Hkeeps. split.
  - intros d Hpan Hsem. destruct (call self lib d) as [out|e] eqn:H.
    + destruct (call_Ok_pan _ _ _ _ H Hpan)
        as (d1 & image & tfm & lm & segs & pan & ins & Hload & _).
      destruct (load_image_sem _ _ _ _ _ _ _ Hkeeps Hload Hsem) as [x Hx].
      discriminate Hx.
    + exists e. reflexivity.
  - intros d lm segs Hsem Hlm Hann Hsegs Hall Hkept.
    rewrite Forall_forall in Hall.
    apply decoded_label_map_Ok in Hlm
      as (d1 & image & sem & tfm & table & Hload & Hpan & Htable & Hframe & Hc).
    assert (table = VSegments segs) as -> by congruence.
    destruct (load_image_sem _ _ _ _ _ _ _ Hkeeps Hload Hsem) as [s ->].
    unfold call. rewrite Hload. simpl. rewrite Hc.
    unfold panoptic_branch. rewrite Hpan. simpl.
    assert (Ha : contains (delete "pan_seg_file_name" d1) "annotations" = false).
    { apply contains_false. rewrite lookup_delete_ne by congruence.
      rewrite Hframe. exact Hann. }
    rewrite Ha. simpl.
    destruct (pan_targets_complete (dim1 image, dim2 image) lm segs Hall)
      as [pan ->].
    destruct (ins_targets_complete (dim1 image, dim2 image) lm segs Hall Hkept)
      as [ins ->].
    reflexivity.
Qed.

Lemma both_labels_raise_witness :
  raises (call Demo.self Demo.lib Demo.record_with_sem) /\
  call Demo.self Demo.lib Demo.record_with_sem =
    Err (TypeError "transpose() received an invalid combination of arguments").
Proof.
  assert (Hkeeps : keeps_sem_seg Demo.lib).
  { intros image sem r Hr. simpl in Hr. unfold Demo.apply_transform_gens in Hr.
    injection Hr as <-. simpl. eauto. }
  destruct (both_labels_raise Demo.self Demo.lib Hkeeps) as [HA HB]. split.
  - apply (HA Demo.record_with_sem); vm_compute; eauto.
  - apply (HB Demo.record_with_sem Demo.label_map Demo.segments).
    + vm_compute. eauto.
    + vm_compute. reflexivity.
    + vm_compute. reflexivity.
    + vm_compute. reflexivity.
    + repeat constructor; vm_compute; eauto.
    + vm_compute. discriminate.
Defined.

(** ** Failures before the targets *)

(** X11.  A mapper that is not in training mode refuses every record
    with the [AssertionError] of line 67, before the record or any
    collaborator is looked at; a training mapper given a record without
    "file_name" raises [KeyError] on it. *)
Theorem early_failures (self : config) (lib : library) (d : dataset_record) :
  (is_train self = false ->
   call self lib d =
   Err (AssertionError
          "MaskFormerPanopticDatasetMapper should only be used for training!")) /\
  (is_train self = true -> d !! "file_name" = None ->
   call self lib d = Err (KeyError "file_name")).
Proof.
  split.
  - intros Hoff. unfold call, load_image, assert_is_train. rewrite Hoff.
    reflexivity.
  - intros Hon Hnone. unfold call, load_image, assert_is_train, getitem.
    rewrite Hon, Hnone. reflexivity.
Qed.

Lemma early_failures_witness :
  call (mk_config false "RGB" 255 32) Demo.lib Demo.record =
    Err (AssertionError
           "MaskFormerPanopticDatasetMapper should only be used for training!") /\
  call Demo.self Demo.lib (delete "file_name" Demo.record) =
    Err (KeyError "file_name").
Proof.
  split.
  - apply (proj1 (early_failures (mk_config false "RGB" 255 32) Demo.lib
                    Demo.record)).
    reflexivity.
  - apply (proj2 (early_failures Demo.self Demo.lib
                    (delete "file_name" Demo.record))).
    + reflexivity.
    + vm_compute. reflexivity.
Defined.

(** X12.  On a record with a panoptic label but no "segments_info", once
    the image and the label image are read the call raises [KeyError] on
    "segments_info" (line 91), whether or not the record has
    "annotations": the lookup comes before the check of line 107. *)
Theorem missing_segments_info (self : config) (lib : library)
    (d d1 : dataset_record) (image : ndarray3 Z) (sem : option (ndarray Z))
    (tfm : transform lib) (path : value) (pan_image : ndarray3 Z) :
  load_image self lib d = Ok (d1, image, sem, tfm) ->
  d !! "pan_seg_file_name" = Some path ->
  read_image lib path "RGB" = inr pan_image ->
  d !! "segments_info" = None ->
  call self lib d = Err (KeyError "segments_info").
Proof.
  intros Hload Hpath Hread Hnone.
  destruct (load_image_Ok _ _ _ _ _ _ _ Hload) as (_ & _ & _ & Hframe).
  unfold call. rewrite Hload. simpl.
  assert (Hc : contains d1 "pan_seg_file_name" = true).
  { apply contains_true. rewrite Hframe by congruence. eauto. }
  rewrite Hc. unfold panoptic_branch, load_pan_seg, getitem.
  rewrite (Hframe "pan_seg_file_name") by congruence. rewrite Hpath. simpl.
  rewrite Hread. simpl.
  rewrite lookup_delete_ne by congruence.
  rewrite (Hframe "segments_info") by congruence. rewrite Hnone. reflexivity.
Qed.

Lemma missing_segments_info_witness :
  call Demo.self Demo.lib
    (delete "segments_info" Demo.record_with_annotations)
  = Err (KeyError "segments_info").
Proof.
  eapply (missing_segments_info Demo.self Demo.lib
            (delete "segments_info" Demo.record_with_annotations)
            _ Demo.image None tt (VStr "pan.png") Demo.pan_image).
  - vm_compute. reflexivity.
  - vm_compute. reflexivity.
  - reflexivity.
  - vm_compute. reflexivity.
Defined.

(** ** Boxes inside the image *)

Lemma set_columns (m : mask) (c : nat) :
  wf_ndarray m ->
  (In c (where_true (any_per_column m)) <-> exists r, pixel m r c = Some true).
Proof.
  intros Hwf. rewrite where_true_In, any_per_column_spec. split.
  - intros [_ H]. exact H.
  - intros [r Hr]. split; [|eauto].
    exact (pixel_within_width m r c true Hwf Hr).
Qed.

Lemma set_rows (m : mask) (r : nat) :
  In r (where_true (any_per_row m)) <-> exists c, pixel m r c = Some true.
Proof. rewrite where_true_In. apply any_per_row_spec. Qed.

Lemma pixel_within_height {A : Type} (a : ndarray A) (r c : nat) (v : A) :
  wf_ndarray a -> pixel a r c = Some v -> (r < height a)%nat.
Proof.
  intros [Hlen _] H. unfold pixel in H.
  destruct (rows a !! r) as [row|] eqn:Hrow; [|discriminate H].
  rewrite <- Hlen. eapply lookup_lt_Some. exact Hrow.
Qed.

Lemma pixel_within_width_any {A : Type} (a : ndarray A) (r c : nat) (v : A) :
  wf_ndarray a -> pixel a r c = Some v -> (c < width a)%nat.
Proof.
  intros [_ Hrows] H. unfold pixel in H.
  destruct (rows a !! r) as [row|] eqn:Hrow; [|discriminate H].
  rewrite Forall_forall in Hrows.
  rewrite <- (Hrows row) by (apply list_elem_of_lookup; eauto).
  eapply lookup_lt_Some. exact H.
Qed.

(** X13.  The box of a well-shaped mask lies inside the mask's grid,
    [0 <= x0 <= x1 <= W] and [0 <= y0 <= y1 <= H], and it has a positive
    width and height exactly when the mask has a set pixel. *)
Theorem bounding_box_within (m : mask) :
  wf_ndarray m ->
  forall x0 y0 x1 y1 : Z,
    bounding_box m = (x0, y0, x1, y1) ->
    0 <= x0 <= x1 /\ x1 <= Z.of_nat (width m) /\
    0 <= y0 <= y1 /\ y1 <= Z.of_nat (height m) /\
    (x0 < x1 /\ y0 < y1 <-> exists r c, pixel m r c = Some true).
Proof.
  intros Hwf x0 y0 x1 y1. unfold bounding_box.
  pose proof (set_columns m) as HX. pose proof (set_rows m) as HY.
  pose proof (where_true_sorted (any_per_column m)) as HsX.
  pose proof (where_true_sorted (any_per_row m)) as HsY.
  destruct (where_true (any_per_column m)) as [|cx X'].
  { intros Hb. injection Hb as <- <- <- <-.
    split; [lia|]. split; [lia|]. split; [lia|]. split; [lia|].
    split; [intros [? ?]; lia|].
    intros (r & c & Hp). destruct (proj2 (HX c Hwf) (ex_intro _ r Hp)). }
  destruct (where_true (any_per_row m)) as [|cy Y'].
  { intros Hb. injection Hb as <- <- <- <-.
    split; [lia|]. split; [lia|]. split; [lia|]. split; [lia|].
    split; [intros [? ?]; lia|].
    intros (r & c & Hp). destruct (proj2 (HY r) (ex_intro _ c Hp)). }
  pose proof (sorted_last_greatest (cx :: X') 0%nat HsX cx (or_introl eq_refl)).
  pose proof (sorted_last_greatest (cy :: Y') 0%nat HsY cy (or_introl eq_refl)).
  destruct (proj1 (HX _ Hwf) (last_In cx X' 0%nat)) as [r1 Hr1].
  destruct (proj1 (HY _) (last_In cy Y' 0%nat)) as [c1 Hc1].
  pose proof (pixel_within_width m _ _ _ Hwf Hr1).
  pose proof (pixel_within_height m _ _ _ Hwf Hc1).
  remember (List.last (cx :: X') 0%nat) as lx eqn:Hlx.
  remember (List.last (cy :: Y') 0%nat) as ly eqn:Hly.
  intros Hb. injection Hb as <- <- <- <-.
  split; [lia|]. split; [lia|]. split; [lia|]. split; [lia|].
  split; [|intros _; lia].
  intros _. destruct (proj1 (HX cx Hwf) (or_introl eq_refl)) as [r Hr].
  eauto.
Qed.

Lemma bounding_box_within_witness :
  0 <= 1 <= 3 /\ 3 <= Z.of_nat (width (eq_scalar Demo.label_map 2)) /\
  0 <= 0 <= 2 /\ 2 <= Z.of_nat (height (eq_scalar Demo.label_map 2)) /\
  (1 < 3 /\ 0 < 2 <->
   exists r c, pixel (eq_scalar Demo.label_map 2) r c = Some true).
Proof.
  apply (bounding_box_within (eq_scalar Demo.label_map 2)).
  - apply (bool_decide_unpack _). vm_compute. exact I.
  - vm_compute. reflexivity.
Defined.

(** ** Segment ids of colours *)

(** X14.  On colours of three bytes [rgb2id] is injective and stays below
    [2^24]: two pixels of the label image get the same segment id only
    when they have the same colour. *)
Theorem rgb2id_pixel_injective (r g b r' g' b' : Z) :
  0 <= r < 256 -> 0 <= g < 256 -> 0 <= b < 256 ->
  0 <= r' < 256 -> 0 <= g' < 256 -> 0 <= b' < 256 ->
  0 <= rgb2id_pixel [r; g; b] < 2 ^ 24 /\
  (rgb2id_pixel [r; g; b] = rgb2id_pixel [r'; g'; b'] ->
   r = r' /\ g = g' /\ b = b').
Proof.
  intros Hr Hg Hb Hr' Hg' Hb'. unfold rgb2id_pixel. simpl.
  change (2 ^ 24) with 16777216. split; [lia|]. intros H. lia.
Qed.

Lemma rgb2id_pixel_injective_witness :
  0 <= rgb2id_pixel [1; 2; 3] < 2 ^ 24 /\
  (rgb2id_pixel [1; 2; 3] = rgb2id_pixel [1; 2; 3] ->
   1 = 1 /\ 2 = 2 /\ 3 = 3).
Proof. apply (rgb2id_pixel_injective 1 2 3 1 2 3); lia. Defined.

(** ** The empty semantic bundle *)

(** X15.  The semantic bundle has no class, and then a mask tensor of
    shape [(0, H, W)], exactly when every value of the label array is
    [ignore_label]. *)
Theorem sem_bundle_empty_iff (ignore : Z) (shape : nat * nat) (sem : ndarray Z) :
  (gt_classes (sem_targets ignore shape sem) = [] <->
   forall v, v ∈ flatten sem -> v = ignore) /\
  (gt_classes (sem_targets ignore shape sem) = [] ->
   shape3 (gt_masks (sem_targets ignore shape sem))
     = (0%nat, height sem, width sem) /\
   planes (gt_masks (sem_targets ignore shape sem)) = []).
Proof.
  pose proof (sem_targets_fields ignore shape sem) as H. cbv zeta in H.
  destruct H as (Hc & Hp & Hs & _).
  assert (Hmem : forall c, In c (gt_classes (sem_targets ignore shape sem)) <->
                           In c (flatten sem) /\ c <> ignore).
  { intros c. rewrite Hc, filter_In, np_unique_In, negb_true_iff, Z.eqb_neq.
    reflexivity. }
  split.
  - split.
    + intros Hnil v Hv. destruct (Z.eq_dec v ignore) as [|Hne]; [assumption|].
      exfalso. apply list_elem_of_In in Hv.
      pose proof (proj2 (Hmem v) (conj Hv Hne)) as Hin.
      rewrite Hnil in Hin. destruct Hin.
    + intros Hall.
      destruct (gt_classes (sem_targets ignore shape sem)) as [|c t];
        [reflexivity|].
      destruct (proj1 (Hmem c) (or_introl eq_refl)) as [Hin Hne].
      exfalso. apply Hne, Hall, list_elem_of_In, Hin.
  - intros Hnil. rewrite Hs, Hp, Hnil. split; reflexivity.
Qed.

(** ** Padding twice *)

Lemma pad_axis_zero {A : Type} (fill : A) (l : list A) : pad_axis fill 0 0 l = l.
Proof. unfold pad_axis. simpl. apply app_nil_r. Qed.

Lemma pad_plane_zero {A : Type} (fill : A) (w : nat) (p : list (list A)) :
  pad_plane fill 0 0 0 0 w p = p.
Proof.
  unfold pad_plane. rewrite pad_axis_zero.
  rewrite (map_ext _ (fun row => row)) by (intros row; apply pad_axis_zero).
  apply map_id.
Qed.

(** An image that already has height and width [size_divisibility] goes
    through the padding unchanged, and so does the label next to it. *)
Lemma pad_stage_fixed (self : config) (image : ndarray3 Z) (sem : ndarray Z) :
  0 < size_divisibility self ->
  dim1 image = Z.to_nat (size_divisibility self) ->
  dim2 image = Z.to_nat (size_divisibility self) ->
  pad_stage self image sem = Ok (image, sem).
Proof.
  intros HD H1 H2. unfold pad_stage.
  assert (Hon : (size_divisibility self >? 0) = true) by (apply Z.gtb_lt; lia).
  rewrite Hon. cbn [fst snd].
  replace (size_divisibility self - Z.of_nat (dim2 image)) with 0 by lia.
  replace (size_divisibility self - Z.of_nat (dim1 image)) with 0 by lia.
  unfold F_pad3, F_pad, padded_dim.
  replace (Z.of_nat (dim2 image) + 0 + 0) with (Z.of_nat (dim2 image)) by lia.
  replace (Z.of_nat (dim1 image) + 0 + 0) with (Z.of_nat (dim1 image)) by lia.
  replace (Z.of_nat (width sem) + 0 + 0) with (Z.of_nat (width sem)) by lia.
  replace (Z.of_nat (height sem) + 0 + 0) with (Z.of_nat (height sem)) by lia.
  destruct (Z.of_nat (dim2 image) <? 0) eqn:E1; [apply Z.ltb_lt in E1; lia|].
  destruct (Z.of_nat (dim1 image) <? 0) eqn:E2; [apply Z.ltb_lt in E2; lia|].
  destruct (Z.of_nat (width sem) <? 0) eqn:E3; [apply Z.ltb_lt in E3; lia|].
  destruct (Z.of_nat (height sem) <? 0) eqn:E4; [apply Z.ltb_lt in E4; lia|].
  cbn [mbind result_bind bind mret result_ret]. rewrite !Nat2Z.id.
  rewrite (map_ext _ (fun p => p)) by (intros p; apply pad_plane_zero).
  rewrite map_id, pad_plane_zero.
  destruct image, sem. reflexivity.
Qed.

(** The shapes the padding gives, on any contents. *)
Lemma pad_stage_shape (self : config) (image : ndarray3 Z) (sem : ndarray Z) :
  0 < size_divisibility self ->
  height sem = dim1 image -> width sem = dim2 image ->
  exists (image' : ndarray3 Z) (sem' : ndarray Z),
    pad_stage self image sem = Ok (image', sem') /\
    dim0 image' = dim0 image /\
    dim1 image' = Z.to_nat (size_divisibility self) /\
    dim2 image' = Z.to_nat (size_divisibility self) /\
    height sem' = Z.to_nat (size_divisibility self) /\
    width sem' = Z.to_nat (size_divisibility self) /\
    rows sem' = pad_plane (ignore_label self) 0
                  (size_divisibility self - Z.of_nat (width sem)) 0
                  (size_divisibility self - Z.of_nat (height sem))
                  (width sem) (rows sem).
Proof.
  intros HD Hh Hw. unfold pad_stage.
  assert (Hon : (size_divisibility self >? 0) = true) by (apply Z.gtb_lt; lia).
  rewrite Hon. cbn [fst snd]. unfold F_pad3, F_pad.
  rewrite <- Hw, <- Hh.
  rewrite !(padded_dim_to _ _ HD). cbn [mbind result_bind bind mret result_ret].
  eexists. eexists. split; [reflexivity|]. repeat split; reflexivity.
Qed.

(** X16.  Padding is idempotent: when [size_divisibility] is positive
    and the label has the image's height and width, padding the padded
    image and label again returns them unchanged. *)
Theorem pad_stage_idempotent (self : config) (image : ndarray3 Z)
    (sem : ndarray Z) :
  0 < size_divisibility self ->
  height sem = dim1 image -> width sem = dim2 image ->
  exists (image' : ndarray3 Z) (sem' : ndarray Z),
    pad_stage self image sem = Ok (image', sem') /\
    pad_stage self image' sem' = Ok (image', sem').
Proof.
  intros HD Hh Hw.
  destruct (pad_stage_shape self image sem HD Hh Hw)
    as (image' & sem' & Hpad & _ & H1 & H2 & _).
  exists image', sem'. split; [exact Hpad|].
  apply pad_stage_fixed; assumption.
Qed.

Lemma pad_stage_idempotent_witness :
  exists (image' : ndarray3 Z) (sem' : ndarray Z),
    pad_stage Demo.self Demo.image_20_40 Demo.label_20_40 = Ok (image', sem') /\
    pad_stage Demo.self image' sem' = Ok (image', sem').
Proof.
  apply (pad_stage_idempotent Demo.self Demo.image_20_40 Demo.label_20_40).
  - vm_compute. reflexivity.
  - reflexivity.
  - reflexivity.
Defined.

(** ** Padding and the semantic classes *)

(** Two strictly ascending lists with the same entries are equal. *)
Lemma sorted_lt_ext (l1 l2 : list Z) :
  StronglySorted Z.lt l1 -> StronglySorted Z.lt l2 ->
  (forall x, In x l1 <-> In x l2) -> l1 = l2.
Proof.
  intros H1. revert l2.
  induction H1 as [|a t1 Hs1 IH Hall1]; intros l2 H2 Hmem.
  - destruct l2 as [|b t2]; [reflexivity|].
    destruct (proj2 (Hmem b) (or_introl eq_refl)).
  - destruct H2 as [|b t2 Hs2 Hall2].
    + destruct (proj1 (Hmem a) (or_introl eq_refl)).
    + rewrite Forall_forall in Hall1, Hall2.
      assert (Hab : a = b).
      { destruct (proj1 (Hmem a) (or_introl eq_refl)) as [->|Ha]; [reflexivity|].
        destruct (proj2 (Hmem b) (or_introl eq_refl)) as [->|Hb]; [reflexivity|].
        specialize (Hall1 b (proj2 (list_elem_of_In _ _) Hb)).
        specialize (Hall2 a (proj2 (list_elem_of_In _ _) Ha)). lia. }
      subst b. f_equal. apply IH; [exact Hs2|].
      intros x. split; intros Hx.
      * destruct (proj1 (Hmem x) (or_intror Hx)) as [->|Hx2]; [|exact Hx2].
        specialize (Hall1 x (proj2 (list_elem_of_In _ _) Hx)). lia.
      * destruct (proj2 (Hmem x) (or_intror Hx)) as [->|Hx1]; [|exact Hx1].
        specialize (Hall2 x (proj2 (list_elem_of_In _ _) Hx)). lia.
Qed.

Lemma sem_classes_In (ignore : Z) (shape : nat * nat) (sem : ndarray Z) (c : Z) :
  In c (gt_classes (sem_targets ignore shape sem)) <->
  (exists r k, pixel sem r k = Some c) /\ c <> ignore.
Proof.
  pose proof (sem_targets_fields ignore shape sem) as H. cbv zeta in H.
  destruct H as (Hc & _).
  rewrite Hc, filter_In, np_unique_In, negb_true_iff, Z.eqb_neq.
  split; intros [Hin Hne]; (split; [|exact Hne]).
  - apply flatten_pixel, list_elem_of_In, Hin.
  - destruct Hin as (r & k & Hp). apply list_elem_of_In.
    exact (pixel_flatten sem r k c Hp).
Qed.

Lemma sem_classes_sorted (ignore : Z) (shape : nat * nat) (sem : ndarray Z) :
  StronglySorted Z.lt (gt_classes (sem_targets ignore shape sem)).
Proof.
  pose proof (sem_targets_fields ignore shape sem) as H. cbv zeta in H.
  destruct H as (Hc & _). rewrite Hc. apply filter_sorted, np_unique_sorted.
Qed.

(** X17.  Padding adds no semantic class: the classes of the padded
    label are among those of the label, and they are the same list when
    the label is no larger than [size_divisibility] in either direction,
    the fill being [ignore_label]; only the cropping of a larger label
    can lose a class. *)
Theorem padding_keeps_classes (self : config) (image image' : ndarray3 Z)
    (sem sem' : ndarray Z) (shape shape' : nat * nat) :
  0 < size_divisibility self ->
  wf_ndarray sem -> height sem = dim1 image -> width sem = dim2 image ->
  pad_stage self image sem = Ok (image', sem') ->
  (forall c, c ∈ gt_classes (sem_targets (ignore_label self) shape' sem') ->
             c ∈ gt_classes (sem_targets (ignore_label self) shape sem)) /\
  ((height sem <= Z.to_nat (size_divisibility self))%nat ->
   (width sem <= Z.to_nat (size_divisibility self))%nat ->
   gt_classes (sem_targets (ignore_label self) shape' sem') =
   gt_classes (sem_targets (ignore_label self) shape sem)).
Proof.
  intros HD Hwf Hh Hw Hpad.
  destruct (pad_stage_shape self image sem HD Hh Hw)
    as (image2 & sem2 & Hpad2 & _ & _ & _ & Hh2 & Hw2 & Hrows).
  rewrite Hpad in Hpad2. injection Hpad2 as <- <-.
  destruct Hwf as [Hlen Hall].
  destruct (pad_plane_trailing (ignore_label self) (size_divisibility self)
              (height sem) (width sem) (rows sem) HD Hlen Hall)
    as (Hq & Hqrows & Hqpix).
  rewrite <- Hrows in Hq, Hqrows, Hqpix.
  assert (Hwf' : wf_ndarray sem').
  { split; [rewrite Hh2; exact Hq | rewrite Hw2; exact Hqrows]. }
  assert (Hpix : forall r k c, pixel sem' r k = Some c ->
            c = ignore_label self \/
            ((r < height sem)%nat /\ (k < width sem)%nat /\
             pixel sem r k = Some c)).
  { intros r k c Hp.
    pose proof (pixel_within_height sem' r k c Hwf' Hp) as Hr.
    pose proof (pixel_within_width_any sem' r k c Hwf' Hp) as Hk.
    rewrite Hh2 in Hr. rewrite Hw2 in Hk.
    specialize (Hqpix r k Hr Hk). unfold pixel in Hqpix, Hp |- *.
    simpl in Hqpix. rewrite Hqpix in Hp.
    destruct (r <? height sem)%nat eqn:Er; simpl in Hp;
      [|left; congruence].
    destruct (k <? width sem)%nat eqn:Ek; simpl in Hp;
      [|left; congruence].
    apply Nat.ltb_lt in Er, Ek. right. repeat split; assumption. }
  assert (Hsub : forall c,
            In c (gt_classes (sem_targets (ignore_label self) shape' sem')) ->
            In c (gt_classes (sem_targets (ignore_label self) shape sem))).
  { intros c Hc. apply sem_classes_In in Hc as [(r & k & Hp) Hne].
    apply sem_classes_In. split; [|exact Hne].
    destruct (Hpix r k c Hp) as [->|(_ & _ & Hold)]; [congruence|eauto]. }
  split.
  - intros c Hc. apply list_elem_of_In, Hsub, list_elem_of_In, Hc.
  - intros Hfit_h Hfit_w.
    apply sorted_lt_ext; try apply sem_classes_sorted.
    intros c. split; [apply Hsub|].
    intros Hc. apply sem_classes_In in Hc as [(r & k & Hp) Hne].
    apply sem_classes_In. split; [|exact Hne].
    exists r, k.
    pose proof (pixel_within_height sem r k c (conj Hlen Hall) Hp) as Hr.
    pose proof (pixel_within_width_any sem r k c (conj Hlen Hall) Hp) as Hk.
    assert (Hr' : (r < Z.to_nat (size_divisibility self))%nat) by lia.
    assert (Hk' : (k < Z.to_nat (size_divisibility self))%nat) by lia.
    specialize (Hqpix r k Hr' Hk'). unfold pixel in Hqpix, Hp |- *.
    simpl in Hqpix. rewrite Hqpix.
    apply Nat.ltb_lt in Hr, Hk. rewrite Hr, Hk. exact Hp.
Qed.

Lemma padding_keeps_classes_witness :
  (forall c, c ∈ gt_classes (sem_targets 255 (32%nat, 32%nat)
                              (mk_ndarray 32 32
                                 (pad_plane 255 0 29 0 30 3 (rows Demo.sem_image)))) ->
             c ∈ gt_classes (sem_targets 255 (2%nat, 3%nat) Demo.sem_image)) /\
  ((2 <= 32)%nat -> (3 <= 32)%nat ->
   gt_classes (sem_targets 255 (32%nat, 32%nat)
                 (mk_ndarray 32 32
                    (pad_plane 255 0 29 0 30 3 (rows Demo.sem_image)))) =
   gt_classes (sem_targets 255 (2%nat, 3%nat) Demo.sem_image)).
Proof.
  apply (padding_keeps_classes Demo.self
           (mk_ndarray3 1 2 3 [[[1; 2; 3]; [4; 5; 6]]])
           (mk_ndarray3 1 32 32
              [pad_plane 128 0 29 0 30 3 [[1; 2; 3]; [4; 5; 6]]])
           Demo.sem_image).
  - vm_compute. reflexivity.
  - apply (bool_decide_unpack _). vm_compute. exact I.
  - reflexivity.
  - reflexivity.
  - vm_compute. reflexivity.
Defined.

(** ** Records without a panoptic label *)

(** X18.  On a record without "pan_seg_file_name" a call that returns
    has built nothing: the output is the input except for "width",
    "height" and the popped "sem_seg_file_name".  In particular a
    semantic label that was read is dropped, and no "image", "sem_seg",
    "sem_instances", "pan_instances" or "ins_instances" is added. *)
Theorem no_panoptic_no_targets (self : config) (lib : library)
    (d out : dataset_record) :
  call self lib d = Ok out ->
  d !! "pan_seg_file_name" = None ->
  out !! "sem_seg_file_name" = None /\
  (forall key, key ∉ ["width"; "height"; "sem_seg_file_name"] ->
               out !! key = d !! key).
Proof.
  intros H Hpan.
  destruct (call_Ok_no_pan _ _ _ _ H Hpan) as (image & sem & tfm & Hload).
  destruct (load_image_Ok _ _ _ _ _ _ _ Hload) as (_ & Hsem & _ & Hframe).
  split; [exact Hsem|].
  intros key Hkey. repeat (apply not_elem_of_cons in Hkey as [? Hkey]).
  apply Hframe; assumption.
Qed.

Lemma no_panoptic_no_targets_witness :
  Cases.output_sem_only !! "sem_seg_file_name" = None /\
  (forall key, key ∉ ["width"; "height"; "sem_seg_file_name"] ->
               Cases.output_sem_only !! key = Cases.record_sem_only !! key).
Proof.
  apply (no_panoptic_no_targets Demo.self Demo.lib Cases.record_sem_only
           Cases.output_sem_only).
  - vm_compute. reflexivity.
  - vm_compute. reflexivity.
Defined.

(** ** When a call returns *)

(** X19.  A call returns, with both bundles attached and the panoptic
    path removed, on every record without a semantic path and without
    "annotations" whose label map decodes and whose table consists of
    complete entries (the four fields present, the class id within
    int64) with a non-crowd thing among them. *)
Theorem call_returns (self : config) (lib : library) (d : dataset_record)
    (lm : ndarray Z) (segs : list segment_info) :
  decoded_label_map self lib d = Ok lm ->
  d !! "sem_seg_file_name" = None ->
  d !! "annotations" = None ->
  d !! "segments_info" = Some (VSegments segs) ->
  Forall complete_segment segs ->
  List.filter ins_keeps segs <> [] ->
  exists (out : dataset_record) (pan ins : Instances),
    call self lib d = Ok out /\
    out !! "pan_instances" = Some (VInstances pan) /\
    out !! "ins_instances" = Some (VInstances ins) /\
    out !! "pan_seg_file_name" = None /\
    gt_classes pan = map category_id (List.filter pan_keeps segs) /\
    gt_classes ins = map category_id (List.filter ins_keeps segs).
Proof.
  intros Hlm Hnosem Hann Hsegs Hall Hkept. rewrite Forall_forall in Hall.
  apply decoded_label_map_Ok in Hlm
    as (d1 & image & sem & tfm & table & Hload & Hpan & Htable & Hframe & Hc).
  assert (table = VSegments segs) as -> by congruence.
  destruct (load_image_Ok _ _ _ _ _ _ _ Hload) as (_ & _ & Hsem & _).
  assert (sem = None) as ->.
  { destruct sem as [s|]; [|reflexivity].
    destruct (Hsem (ltac:(eauto) : is_Some (Some s))) as [x Hx]. congruence. }
  destruct (pan_targets_complete (dim1 image, dim2 image) lm segs Hall)
    as [pan Hp].
  destruct (ins_targets_complete (dim1 image, dim2 image) lm segs Hall Hkept)
    as [ins Hi].
  eexists. exists pan, ins. split.
  - unfold call. rewrite Hload. simpl. rewrite Hc.
    unfold panoptic_branch. rewrite Hpan. simpl.
    assert (Ha : contains (delete "pan_seg_file_name" d1) "annotations" = false).
    { apply contains_false. rewrite lookup_delete_ne by congruence.
      rewrite Hframe. exact Hann. }
    rewrite Ha. simpl. rewrite Hp. simpl. rewrite Hi. reflexivity.
  - split; [rewrite lookup_insert_ne by congruence; apply lookup_insert_eq|].
    split; [apply lookup_insert_eq|].
    split; [rewrite !lookup_insert_ne by congruence; apply lookup_delete_eq|].
    apply pan_targets_Ok in Hp as (_ & Hpc & _).
    apply ins_targets_Ok_any in Hi as (_ & _ & Hic & _).
    split; assumption.
Qed.

Lemma call_returns_witness :
  exists (out : dataset_record) (pan ins : Instances),
    call Demo.self Demo.lib Demo.record = Ok out /\
    out !! "pan_instances" = Some (VInstances pan) /\
    out !! "ins_instances" = Some (VInstances ins) /\
    out !! "pan_seg_file_name" = None /\
    gt_classes pan = map category_id (List.filter pan_keeps Demo.segments) /\
    gt_classes ins = map category_id (List.filter ins_keeps Demo.segments).
Proof.
  apply (call_returns Demo.self Demo.lib Demo.record Demo.label_map
           Demo.segments).
  - vm_compute. reflexivity.
  - vm_compute. reflexivity.
  - vm_compute. reflexivity.
  - vm_compute. reflexivity.
  - repeat constructor; vm_compute; eauto.
  - vm_compute. discriminate.
Defined.
